(** * A shallow embedding of the neo-blockchain virtual machine

    The development follows [packages/neo-blockchain-vm/src/opcodes.js] and
    [packages/neo-blockchain-vm/src/syscalls.js].  JavaScript numbers are
    integers of [Z], buffers are lists of bytes, objects used as dictionaries
    are finite maps, exceptions are the [Throw] branch of [Result], and the
    arrays behind [ArrayStackItem] and [StructStackItem] live in a store of
    cells addressed by their identity, so that aliasing is observable. *)

From Stdlib Require Import ZArith Bool Lia Ascii String.
From Stdlib.Strings Require Import Byte.
From stdpp Require Import base option list gmap strings pretty.

Local Open Scope Z_scope.

(** ** Bytes, hashes and hexadecimal keys *)

Definition Buffer := list byte.
Definition UInt160 := Buffer.
Definition UInt256 := Buffer.
Definition ECPoint := Buffer.
Definition UInt160Hex := string.
Definition UInt256Hex := string.

#[global] Instance byte_eq_dec : EqDecision byte := Byte.byte_eq_dec.
#[global] Instance byte_countable : Countable byte :=
  inj_countable Byte.to_nat Byte.of_nat Byte.of_to_nat.

Definition byteToZ (b : byte) : Z := Z.of_N (Byte.to_N b).

Definition hexDigit (n : N) : ascii :=
  match n with
  | 0%N => "0" | 1%N => "1" | 2%N => "2" | 3%N => "3"
  | 4%N => "4" | 5%N => "5" | 6%N => "6" | 7%N => "7"
  | 8%N => "8" | 9%N => "9" | 10%N => "a" | 11%N => "b"
  | 12%N => "c" | 13%N => "d" | 14%N => "e" | _ => "f"
  end%char.

(** [buffer.toString('hex')] *)
Fixpoint toHexString (value : Buffer) : string :=
  match value with
  | [] => EmptyString
  | b :: rest =>
      String (hexDigit (N.div (Byte.to_N b) 16))
        (String (hexDigit (N.modulo (Byte.to_N b) 16)) (toHexString rest))
  end.

(** [common.uInt160ToHex]: [add0x(utils.reverse(value).toString('hex'))] *)
Definition uInt160ToHex (value : UInt160) : UInt160Hex :=
  String "0"%char (String "x"%char (toHexString (reverse value))).

(** [common.uInt256ToHex] *)
Definition uInt256ToHex (value : UInt256) : UInt256Hex :=
  String "0"%char (String "x"%char (toHexString (reverse value))).

(** [common.uInt160Equal]: [a.equals(b)] on two buffers. *)
Definition uInt160Equal (a b : UInt160) : bool := bool_decide (a = b).

(** ** Faults *)

Inductive VMError : Type :=
| UnknownOpError (opCode : option Z)
| CodeOverflowError
| PushOnlyError (opCode : Z)
| UnknownSysCallError
| InvalidCheckMultisigArgumentsError
| InvalidPackCountError
| InvalidPickItemIndexError
| InvalidSetItemIndexError
| XDropNegativeError
| ThrowError
| InvalidTypeError
| NumberTooLargeError
| BadWitnessCheckError
| ContractNoStorageError (hash : UInt160)
| InvalidContractGetStorageContextError
| AccountFrozenError
| TooManyVotesError
| NotEligibleVoteError
| InvalidScriptContainerTypeError
| InvalidContractParameterTypeError
| InvalidFormatError
| KeyNotFoundError
| StackUnderflowError
| StackOverflowError
| InvocationStackOverflowError
| OutOfGasError
(* faults raised by the JavaScript runtime itself *)
| JSTypeError    (* a method called on [undefined] *)
| JSRangeError   (* a buffer read outside the buffer *)
| CryptoError.   (* an exception out of the crypto primitives *)

Inductive Result (A : Type) : Type :=
| Ok (value : A)
| Throw (error : VMError).
Arguments Ok {A} value.
Arguments Throw {A} error.

#[global] Instance Result_ret : MRet Result := fun _ x => Ok x.
#[global] Instance Result_bind : MBind Result := fun _ _ f m =>
  match m with
  | Ok x => f x
  | Throw e => Throw e
  end.
#[global] Instance Result_fmap : FMap Result := fun _ _ f m =>
  match m with
  | Ok x => Ok (f x)
  | Throw e => Throw e
  end.

(** [try { body } catch (error) { handler }] *)
Definition tryCatch {A} (body : Result A) (handler : A) : A :=
  match body with
  | Ok x => x
  | Throw _ => handler
  end.

Definition isOk {A} (r : Result A) : bool :=
  match r with Ok _ => true | Throw _ => false end.

(** The value of a call of an [async] function: a promise, an object that
    holds how the body settles.  [await] takes the outcome back; used as a
    condition, a promise is true like every object. *)
Record Promise (A : Type) : Type := async { await : Result A }.
Arguments async {A} await.
Arguments await {A} p.

Definition truthyPromise {A} (p : Promise A) : bool := true.

(** [xs.map(f)] where [f] may throw: the first exception aborts the map. *)
Fixpoint mapM {A B} (f : A → Result B) (xs : list A) : Result (list B) :=
  match xs with
  | [] => Ok []
  | x :: rest => y ← f x; ys ← mapM f rest; Ok (y :: ys)
  end.

(** ** Ledger entities *)

(** [neo-blockchain-core/src/Account.js] *)
Module Account.
Record t := mk {
  hash : UInt160;
  isFrozen : bool;
  votes : list ECPoint;
  balances : gmap UInt256Hex Z;
}.

Definition hashHex (this : t) : UInt160Hex := uInt160ToHex (hash this).

(** [isDeletable()] *)
Definition isDeletable (this : t) : bool :=
  let values := (map_to_list (balances this)).*2 in
  negb (isFrozen this) &&
  bool_decide (length (votes this) = 0%nat) &&
  (bool_decide (length values = 0%nat) ||
   forallb (λ value, value <=? 0) values).

(** The argument of [update]: absent fields are [None]. *)
Record Update := mkUpdate {
  upd_isFrozen : option bool;
  upd_votes : option (list ECPoint);
  upd_balances : option (gmap UInt256Hex Z);
}.

(** [update({ isFrozen, votes, balances })] *)
Definition update (this : t) (u : Update) : t :=
  {| hash := hash this;
     isFrozen := default (isFrozen this) (upd_isFrozen u);
     votes := default (votes this) (upd_votes u);
     balances := default (balances this) (upd_balances u) |}.
End Account.

(** The contract state of [neo-blockchain-core]; its [hash] is computed
    from the script by [crypto.toScriptHash] and is not a stored field. *)
Module Contract.
Record t := mk {
  script : Buffer;
  parameterList : list Z;
  returnType : Z;
  hasStorage : bool;
  name : string;
  codeVersion : string;
  author : string;
  email : string;
  description : string;
}.
End Contract.

Module StorageItem.
Record t := mk {
  hash : UInt160;
  key : Buffer;
  value : Buffer;
}.
End StorageItem.

(** ** Stack items

    [ArrayStackItem] and [StructStackItem] wrap a JavaScript array; the
    array is a cell of the store and the item carries its address. *)

Definition Ref := nat.

Inductive StackItem : Type :=
| IntegerStackItem (value : Z)
| BooleanStackItem (value : bool)
| BufferStackItem (value : Buffer)
| ArrayStackItem (value : Ref)
| StructStackItem (value : Ref)
| UInt160StackItem (value : UInt160)
| UInt256StackItem (value : UInt256)
| ECPointStackItem (value : ECPoint)
| AccountStackItem (value : Account.t)
| ContractStackItem (value : Contract.t)
| StorageContextStackItem (value : UInt160).

Abbreviation Heap := (list (list StackItem)).

(** [new ArrayStackItem([...])]: a fresh array is a new cell. *)
Definition alloc (h : Heap) (cell : list StackItem) : Heap * Ref :=
  (h ++ [cell], length h).

(** The elements of the array at an address. *)
Definition readCell (h : Heap) (r : Ref) : list StackItem :=
  default [] (h !! r).

(** [value[index] = newItem] on the array at address [r]. *)
Definition writeCell (h : Heap) (r : Ref) (index : nat) (newItem : StackItem)
  : Heap :=
  <[r := <[index := newItem]> (readCell h r)]> h.

(** *** Coercions

    The stack item classes ([IntegerStackItem], [BufferStackItem], ...) are
    not among the sources, apart from a few object wrappers.  Section 3 of
    the specification declares the coercions of [Integer], [Boolean] and
    [Buffer]; pairs it does not declare fail with [InvalidTypeError]
    (invariant i). *)

Definition byteOfZ (z : Z) : byte :=
  default x00%byte (Byte.of_N (Z.to_N (z mod 256))).

(** Modelled from the spec: the serialization of an [Integer] is the
    little-endian two's complement of minimal length, and zero is the empty
    buffer (section 3).  The recursion writes one byte per step; a number
    has no more bytes than bits. *)
Fixpoint toSignedBufferFrom (fuel : nat) (z : Z) : Buffer :=
  match fuel with
  | O => []
  | S fuel' =>
      let b := z mod 256 in
      let rest := z / 256 in
      if ((rest =? 0) && (b <? 128)) || ((rest =? -1) && (128 <=? b))
      then [byteOfZ b]
      else byteOfZ b :: toSignedBufferFrom fuel' rest
  end.

Definition toSignedBuffer (z : Z) : Buffer :=
  if z =? 0 then [] else toSignedBufferFrom (S (Z.to_nat (Z.log2 (Z.abs z)))) z.

Fixpoint fromUnsignedBuffer (value : Buffer) : Z :=
  match value with
  | [] => 0
  | b :: rest => byteToZ b + 256 * fromUnsignedBuffer rest
  end.

(** Modelled from the spec: a [Buffer] decodes as little-endian two's
    complement with the sign bit in the last byte; the empty buffer is 0
    (section 4.1). *)
Definition fromSignedBuffer (value : Buffer) : Z :=
  let u := fromUnsignedBuffer value in
  match last value with
  | Some b => if 128 <=? byteToZ b then u - 256 ^ Z.of_nat (length value) else u
  | None => 0
  end.

(** Modelled from the spec: [asBigInteger] of section 3; a [Boolean] is 1
    or 0. *)
Definition asBigInteger (item : StackItem) : Result Z :=
  match item with
  | IntegerStackItem value => Ok value
  | BooleanStackItem value => Ok (if value then 1 else 0)
  | BufferStackItem value => Ok (fromSignedBuffer value)
  | _ => Throw InvalidTypeError
  end.

(** Modelled from the spec: [asBuffer] of section 3; a [Boolean] is [0x01]
    or empty. *)
Definition asBuffer (item : StackItem) : Result Buffer :=
  match item with
  | IntegerStackItem value => Ok (toSignedBuffer value)
  | BooleanStackItem value => Ok (if value then [x01%byte] else [])
  | BufferStackItem value => Ok value
  | _ => Throw InvalidTypeError
  end.

(** Modelled from the spec: [asBoolean] of section 3; a [Buffer] is true
    when one of its bytes is not zero, and an [Integer] when it is not zero
    (scenario S2 jumps on [PUSH1]). *)
Definition asBoolean (item : StackItem) : Result bool :=
  match item with
  | IntegerStackItem value => Ok (negb (value =? 0))
  | BooleanStackItem value => Ok value
  | BufferStackItem value => Ok (existsb (λ b, negb (byteToZ b =? 0)) value)
  | _ => Throw InvalidTypeError
  end.

(** Modelled from the spec: [isArray()]; a [Struct] behaves like an [Array]
    (section 3). *)
Definition isArray (item : StackItem) : bool :=
  match item with
  | ArrayStackItem _ | StructStackItem _ => true
  | _ => false
  end.

(** Modelled from the spec: [asArray()] hands out the underlying JavaScript
    array itself, the one [SETITEM] assigns into. *)
Definition asArray (item : StackItem) : Result Ref :=
  match item with
  | ArrayStackItem value | StructStackItem value => Ok value
  | _ => Throw InvalidTypeError
  end.

(** Modelled from the spec: the typed accessors of the object wrappers give
    the payload of their own wrapper, as [asInput] and [asValidator] of the
    wrappers among the sources do, and fail on any other item. *)
Definition asAccount (item : StackItem) : Result Account.t :=
  match item with
  | AccountStackItem value => Ok value
  | _ => Throw InvalidTypeError
  end.

Definition asContract (item : StackItem) : Result Contract.t :=
  match item with
  | ContractStackItem value => Ok value
  | _ => Throw InvalidTypeError
  end.

Definition asECPoint (item : StackItem) : Result ECPoint :=
  match item with
  | ECPointStackItem value => Ok value
  | _ => Throw InvalidTypeError
  end.

Definition asUInt256 (item : StackItem) : Result UInt256 :=
  match item with
  | UInt256StackItem value => Ok value
  | _ => Throw InvalidTypeError
  end.

(** [args[i]]: reading past the end gives [undefined], and a method call on
    it raises a [TypeError].  Where the source hands the item on without
    calling a method of it ([DUP], [SWAP], ...) the model faults alike: a step
    of the engine hands [invoke] as many arguments as the descriptor asks
    for, so that no item is missing there. *)
Definition arg (args : list StackItem) (i : nat) : Result StackItem :=
  match args !! i with
  | Some item => Ok item
  | None => Throw JSTypeError
  end.

(** ** The ledger facade

    Modelled from the spec: the [WriteBlockchain] facade is known only by its
    interface ([get], [tryGet], [add], [update], [delete] over typed
    collections, section 4.7).  [get] fails with [KeyNotFoundError] and
    [tryGet] answers [null] on a missing key, as in
    [neo-blockchain-levelup/src/read.js]. *)
Module Blockchain.
Record t := mk {
  account : gmap UInt160 Account.t;
  contract : gmap UInt160 Contract.t;
  storageItem : gmap (UInt160 * Buffer) StorageItem.t;
  (* [settings.governingToken.hashHex] *)
  governingToken_hashHex : UInt256Hex;
}.

Definition get `{Countable K} {V} (collection : gmap K V) (key : K)
  : Result V :=
  match collection !! key with
  | Some value => Ok value
  | None => Throw KeyNotFoundError
  end.

Definition tryGet `{Countable K} {V} (collection : gmap K V) (key : K)
  : option V :=
  collection !! key.

Definition with_account (b : t) (v : gmap UInt160 Account.t) : t :=
  {| account := v; contract := contract b; storageItem := storageItem b;
     governingToken_hashHex := governingToken_hashHex b |}.

Definition with_contract (b : t) (v : gmap UInt160 Contract.t) : t :=
  {| account := account b; contract := v; storageItem := storageItem b;
     governingToken_hashHex := governingToken_hashHex b |}.

(** [account.update(value, update)] stores and returns the updated value. *)
Definition account_update (b : t) (value : Account.t) (u : Account.Update)
  : t * Account.t :=
  let newValue := Account.update value u in
  (with_account b (<[Account.hash newValue := newValue]> (account b)),
   newValue).

Definition account_delete (b : t) (hash : UInt160) : t :=
  with_account b (delete hash (account b)).
End Blockchain.

(** The script container: its [type] tag (0x00 transaction, 0x01 block), the
    signed [message] of its value and the witness hashes of its value, which
    the value computes from the ledger. *)
Module ScriptContainer.
Record t := mk {
  type : Z;
  message : Buffer;
  getScriptHashesForVerifying : Blockchain.t → Result (gset UInt160Hex);
}.
End ScriptContainer.

Module ExecutionInit.
Record t := mk {
  scriptContainer : ScriptContainer.t;
  triggerType : Z;
}.
End ExecutionInit.

(** ** The execution context ([constants.js])

    The mutable objects a context points to, the ledger and the arrays of
    the stack items, are kept in the [World] beside it. *)
Module ExecutionContext.
Record t := mk {
  init : ExecutionInit.t;
  code : Buffer;
  pushOnly : bool;
  scriptHash : UInt160;
  callingScriptHash : option UInt160;
  entryScriptHash : UInt160;
  pc : Z;
  depth : Z;
  stack : list StackItem;
  stackAlt : list StackItem;
  done : bool;
  gasLeft : Z;
  actionIndex : Z;
  createdContracts : gmap UInt160Hex UInt160;
}.

(** [{ ...context, pc }] and its siblings. *)
Definition with_pc (c : t) (v : Z) : t :=
  mk (init c) (code c) (pushOnly c) (scriptHash c) (callingScriptHash c)
     (entryScriptHash c) v (depth c) (stack c) (stackAlt c) (done c)
     (gasLeft c) (actionIndex c) (createdContracts c).
Definition with_stack (c : t) (v : list StackItem) : t :=
  mk (init c) (code c) (pushOnly c) (scriptHash c) (callingScriptHash c)
     (entryScriptHash c) (pc c) (depth c) v (stackAlt c) (done c)
     (gasLeft c) (actionIndex c) (createdContracts c).
Definition with_stackAlt (c : t) (v : list StackItem) : t :=
  mk (init c) (code c) (pushOnly c) (scriptHash c) (callingScriptHash c)
     (entryScriptHash c) (pc c) (depth c) (stack c) v (done c)
     (gasLeft c) (actionIndex c) (createdContracts c).
Definition with_done (c : t) (v : bool) : t :=
  mk (init c) (code c) (pushOnly c) (scriptHash c) (callingScriptHash c)
     (entryScriptHash c) (pc c) (depth c) (stack c) (stackAlt c) v
     (gasLeft c) (actionIndex c) (createdContracts c).
Definition with_gasLeft (c : t) (v : Z) : t :=
  mk (init c) (code c) (pushOnly c) (scriptHash c) (callingScriptHash c)
     (entryScriptHash c) (pc c) (depth c) (stack c) (stackAlt c) (done c)
     v (actionIndex c) (createdContracts c).
Definition with_createdContracts (c : t) (v : gmap UInt160Hex UInt160) : t :=
  mk (init c) (code c) (pushOnly c) (scriptHash c) (callingScriptHash c)
     (entryScriptHash c) (pc c) (depth c) (stack c) (stackAlt c) (done c)
     (gasLeft c) (actionIndex c) v.

(** What a property read [context.key] evaluates to, as far as its
    truthiness goes.  The context is an exact object: a key that is not one
    of its fields reads as [undefined]. *)
Inductive JSValue : Type :=
| JSUndefined
| JSBoolean (b : bool)
| JSNumber (n : Z)
| JSObject.

Definition getProperty (c : t) (key : string) : JSValue :=
  if String.eqb key "pushOnly" then JSBoolean (pushOnly c)
  else if String.eqb key "done" then JSBoolean (done c)
  else if String.eqb key "pc" then JSNumber (pc c)
  else if String.eqb key "depth" then JSNumber (depth c)
  else if String.eqb key "actionIndex" then JSNumber (actionIndex c)
  else if String.eqb key "callingScriptHash" then
    match callingScriptHash c with Some _ => JSObject | None => JSUndefined end
  else if existsb (String.eqb key)
            ["blockchain"; "init"; "engine"; "code"; "scriptHash";
             "entryScriptHash"; "stack"; "stackAlt"; "gasLeft";
             "createdContracts"]%string
  then JSObject
  else JSUndefined.

(** JavaScript's conversion of a value to a condition. *)
Definition truthy (v : JSValue) : bool :=
  match v with
  | JSUndefined => false
  | JSBoolean b => b
  | JSNumber n => negb (n =? 0)
  | JSObject => true
  end.
End ExecutionContext.

Module World.
Record t := mk {
  arrays : Heap;
  blockchain : Blockchain.t;
}.
Definition with_arrays (w : t) (h : Heap) : t := mk h (blockchain w).
Definition with_blockchain (w : t) (b : Blockchain.t) : t := mk (arrays w) b.
End World.

(** ** Operation descriptors ([constants.js]) *)

Module OpResult.
Record t := mk {
  context : ExecutionContext.t;
  results : option (list StackItem);
  resultsAlt : option (list StackItem);
}.
End OpResult.

Definition OpInvoke : Type :=
  World.t → ExecutionContext.t → list StackItem → list StackItem →
  Result (World.t * OpResult.t).

Module Op.
Record t := mk {
  name : string;
  in_ : Z;
  inAlt : Z;
  out : Z;
  outAlt : Z;
  modify : Z;
  modifyAlt : Z;
  invocation : Z;
  array : Z;
  item : Z;
  fee : Z;
  invoke : OpInvoke;
  context : ExecutionContext.t;
}.
End Op.

(** Creating an operation reads the context and, for the operations of
    dynamic arity, the arrays on the stack, and may throw. *)
Definition CreateOp : Type := World.t → ExecutionContext.t → Result Op.t.

(** The optional numeric fields of the object literal given to [createOp]. *)
Definition Fields := list (string * Z).

Fixpoint field (fields : Fields) (key : string) : option Z :=
  match fields with
  | [] => None
  | (k, v) :: rest => if String.eqb k key then Some v else field rest key
  end.

(** [createOp]: [in: in_ || 0], [out: out || 0], ... *)
Definition createOp (name : string) (fields : Fields) (invoke : OpInvoke)
  : CreateOp :=
  λ _ context,
    Ok {| Op.name := name;
          Op.in_ := default 0 (field fields "in");
          Op.inAlt := default 0 (field fields "inAlt");
          Op.out := default 0 (field fields "out");
          Op.outAlt := default 0 (field fields "outAlt");
          Op.modify := default 0 (field fields "modify");
          Op.modifyAlt := default 0 (field fields "modifyAlt");
          Op.invocation := default 0 (field fields "invocation");
          Op.array := default 0 (field fields "array");
          Op.item := default 0 (field fields "item");
          Op.fee := default 0 (field fields "fee");
          Op.invoke := invoke;
          Op.context := context |}.

(** [createSysCall] builds the same descriptor ([syscalls.js]). *)
Definition createSysCall := createOp.

(** An [invoke] that neither reads nor writes the world. *)
Definition pureInvoke
    (f : ExecutionContext.t → list StackItem → list StackItem →
         Result OpResult.t) : OpInvoke :=
  λ world context args argsAlt,
    r ← f context args argsAlt; Ok (world, r).

(** [{ context }], [{ context, results }], [{ context, results, resultsAlt }] *)
Definition ret0 (context : ExecutionContext.t) : Result OpResult.t :=
  Ok (OpResult.mk context None None).
Definition ret1 (context : ExecutionContext.t) (results : list StackItem)
  : Result OpResult.t :=
  Ok (OpResult.mk context (Some results) None).

(** The number of items an operation hands back for a stack. *)
Definition count (results : option (list StackItem)) : Z :=
  Z.of_nat (length (default [] results)).

(** ** JavaScript helpers *)

(** [xs.slice(start, end)]: negative positions count from the end and both
    are clamped to the array. *)
Definition clampIndex (len pos : Z) : Z :=
  if pos <? 0 then Z.max (len + pos) 0 else Z.min pos len.

Definition slice {A} (xs : list A) (start : Z) (end_ : option Z) : list A :=
  let len := Z.of_nat (length xs) in
  let from := clampIndex len start in
  let to := clampIndex len (default len end_) in
  take (Z.to_nat (to - from)) (drop (Z.to_nat from) xs).

(** [xs[i]] for a number [i]: anything outside the array is [undefined]. *)
Definition itemAt (xs : list StackItem) (i : Z) : option StackItem :=
  if i <? 0 then None else xs !! Z.to_nat i.

Definition argAt (args : list StackItem) (i : Z) : Result StackItem :=
  if i <? 0 then Throw JSTypeError else arg args (Z.to_nat i).

(** [buffer.readInt16LE(offset)]: a signed 16-bit little-endian read, which
    raises a [RangeError] when the two bytes are not inside the buffer. *)
Definition readInt16LE (buffer : Buffer) (offset : Z) : Result Z :=
  if (offset <? 0) || (Z.of_nat (length buffer) <? offset + 2) then
    Throw JSRangeError
  else
    match buffer !! Z.to_nat offset, buffer !! S (Z.to_nat offset) with
    | Some lo, Some hi =>
        let value := byteToZ lo + 256 * byteToZ hi in
        Ok (if 32768 <=? value then value - 65536 else value)
    | _, _ => Throw JSRangeError
    end.

(** [bn.toNumber()] of bn.js refuses numbers of more than 53 bits. *)
Definition BN_toNumber (value : Z) : Result Z :=
  if Z.abs value <? 2 ^ 53 then Ok value else Throw JSRangeError.

(** [_.range(0, n)] of lodash: it counts down when [n] is negative, so it
    has [|n|] elements either way. *)
Definition range0_length (n : Z) : nat := Z.to_nat (Z.abs n).

(** Modelled from the spec: the table [OPCODE_TO_BYTECODE] of
    [neo-blockchain-core] is not among the sources; section 6 gives
    [0x51..0x60] for [PUSH1..PUSH16] and [0x66] for [RET]. *)
Definition OPCODE_TO_BYTECODE_PUSH16 : Z := 0x60.
Definition OPCODE_TO_BYTECODE_RET : Z := 0x66.

(** Limits of [constants.js]. *)
Definition MAX_STACK_SIZE : Z := 2 * 1024.
Definition MAX_INVOCATION_STACK_SIZE : Z := 1024.
Definition MAX_ARRAY_SIZE : Z := 1024.
Definition MAX_ITEM_SIZE : Z := 1024 * 1024.
Definition MAX_VOTES : Z := 1024.

(** ** Opcodes ([opcodes.js]) *)

(** The parts of the repository the opcodes and system calls rest on and
    which are not among the sources. *)
Class Platform : Type := {
  (** The bound of [vmUtils.toNumber]. *)
  MAX_SIZE : Z;
  (** [crypto.verify({ message, signature, publicKey })]; it answers a
      boolean or throws. *)
  verify : Buffer → Buffer → Buffer → Result bool;
  (** [crypto.hash160] and [crypto.toScriptHash]. *)
  hash160 : Buffer → UInt160;
  toScriptHash : Buffer → UInt160;
  (** [vmUtils.toStorageContext(context, item).value] *)
  toStorageContext : ExecutionContext.t → StackItem → Result UInt160;
  (** [assertContractParameterType] *)
  assertContractParameterType : Z → Result Z;
  (** [item.asString()] *)
  asString : StackItem → Result string;
  (** [new BinaryReader(code, pc).readVarBytesLE(max)] followed by
      [utils.toASCII]: the name read and the index the reader stops at. *)
  readSysCallName : Buffer → Z → Z → Result (string * Z);
  (** The behaviour of the operations that rest on bn.js bit operations,
      on the hash functions, on raw buffer reads or on the engine. *)
  externalInvoke : string → OpInvoke;
}.

Section VM.
Context {platform : Platform}.

(** Modelled from the spec: [vmUtils.toNumber] is not among the sources;
    by section 4.1 it converts a big integer to a number and fails if it
    exceeds [±MAX_SIZE]. *)
Definition toNumber (context : ExecutionContext.t) (value : Z) : Result Z :=
  if (value <? - MAX_SIZE) || (MAX_SIZE <? value)
  then Throw NumberTooLargeError
  else Ok value.

Definition message (context : ExecutionContext.t) : Buffer :=
  ScriptContainer.message
    (ExecutionInit.scriptContainer (ExecutionContext.init context)).

Definition pushNumber (name : string) (value : Z) : CreateOp :=
  createOp name [("out", 1)]%string
    (pureInvoke (λ context _ _, ret1 context [IntegerStackItem value])).

Definition pushData (name : string) (numBytes : Z) : CreateOp :=
  createOp name [("out", 1)]%string (externalInvoke name).

Definition jump_invoke (checkTrue : option bool) : OpInvoke :=
  pureInvoke (λ context args _,
    let code := ExecutionContext.code context in
    let pc := ExecutionContext.pc context in
    offset ← readInt16LE code pc;
    let pc := pc + 2 in
    let newPC := pc + offset - 3 in
    if (newPC <? 0) || (Z.of_nat (length code) <? newPC) then
      Throw CodeOverflowError
    else
      shouldJump ←
        match checkTrue with
        | None => Ok true
        | Some checkTrue =>
            shouldJump ← arg args 0 ≫= asBoolean;
            Ok (if negb checkTrue then negb shouldJump else shouldJump)
        end;
      ret0 (ExecutionContext.with_pc context
              (if shouldJump : bool then newPC else pc))).

Definition jump (name : string) (checkTrue : option bool) : CreateOp :=
  createOp name
    [("in", match checkTrue with None => 0 | Some _ => 1 end)]%string
    (jump_invoke checkTrue).

Definition call (name : string) (tailCall : option bool) : CreateOp :=
  createOp name
    [("invocation", if default false tailCall then 0 else 1)]%string
    (externalInvoke name).

Definition JMP : CreateOp := jump "JMP" None.

(** *** Constants and control flow *)

Definition PUSH0 : CreateOp :=
  createOp "PUSH0" [("out", 1)]%string
    (pureInvoke (λ context _ _, ret1 context [BufferStackItem []])).

Definition PUSHBYTES (idx : Z) : CreateOp :=
  createOp ("PUSHBYTES" +:+ pretty idx) [("out", 1)]%string
    (pureInvoke (λ context _ _,
      let pc := ExecutionContext.pc context in
      ret1 (ExecutionContext.with_pc context (pc + idx))
        [BufferStackItem
           (slice (ExecutionContext.code context) pc (Some (pc + idx)))])).

Definition NOP : CreateOp :=
  createOp "NOP" [] (pureInvoke (λ context _ _, ret0 context)).

Definition CALL : CreateOp :=
  createOp "CALL" [("invocation", 1)]%string (externalInvoke "CALL").

Definition RET : CreateOp :=
  createOp "RET" []
    (pureInvoke (λ context _ _,
      ret0 (ExecutionContext.with_done context true))).

(** *** Stack shuffling *)

Definition DUPFROMALTSTACK : CreateOp :=
  createOp "DUPFROMALTSTACK" [("inAlt", 1); ("out", 1); ("outAlt", 1)]%string
    (pureInvoke (λ context _ argsAlt,
      a0 ← arg argsAlt 0;
      Ok (OpResult.mk context (Some [a0]) (Some [a0])))).

Definition TOALTSTACK : CreateOp :=
  createOp "TOALTSTACK" [("in", 1); ("outAlt", 1)]%string
    (pureInvoke (λ context args _,
      a0 ← arg args 0;
      Ok (OpResult.mk context None (Some [a0])))).

Definition FROMALTSTACK : CreateOp :=
  createOp "FROMALTSTACK" [("inAlt", 1); ("out", 1)]%string
    (pureInvoke (λ context _ argsAlt,
      a0 ← arg argsAlt 0; ret1 context [a0])).

Definition XDROP : CreateOp :=
  createOp "XDROP" [("in", 1); ("modify", -1)]%string
    (pureInvoke (λ context args _,
      n ← (arg args 0 ≫= asBigInteger) ≫= toNumber context;
      if n <? 0 then Throw XDropNegativeError
      else
        let stack := ExecutionContext.stack context in
        ret0 (ExecutionContext.with_stack context
                (slice stack 0 (Some n) ++ slice stack (n + 1) None)))).

Definition DEPTH : CreateOp :=
  createOp "DEPTH" [("out", 1)]%string
    (pureInvoke (λ context _ _,
      ret1 context
        [IntegerStackItem
           (Z.of_nat (length (ExecutionContext.stack context)))])).

Definition DROP : CreateOp :=
  createOp "DROP" [("in", 1)]%string
    (pureInvoke (λ context _ _, ret0 context)).

Definition DUP : CreateOp :=
  createOp "DUP" [("in", 1); ("out", 2)]%string
    (pureInvoke (λ context args _,
      a0 ← arg args 0; ret1 context [a0; a0])).

Definition NIP : CreateOp :=
  createOp "NIP" [("in", 2); ("out", 1)]%string
    (pureInvoke (λ context args _,
      a0 ← arg args 0; ret1 context [a0])).

Definition OVER_invoke : OpInvoke :=
  pureInvoke (λ context args _,
    a0 ← arg args 0; a1 ← arg args 1; ret1 context [a1; a0; a1]).

Definition OVER : CreateOp := createOp "OVER" [("in", 2)]%string OVER_invoke.

Definition ROT : CreateOp :=
  createOp "ROT" [("in", 3); ("out", 3)]%string
    (pureInvoke (λ context args _,
      a0 ← arg args 0; a1 ← arg args 1; a2 ← arg args 2;
      ret1 context [a1; a0; a2])).

Definition SWAP : CreateOp :=
  createOp "SWAP" [("in", 2); ("out", 2)]%string
    (pureInvoke (λ context args _,
      a0 ← arg args 0; a1 ← arg args 1; ret1 context [a0; a1])).

Definition TUCK : CreateOp :=
  createOp "TUCK" [("in", 2); ("out", 3)]%string
    (pureInvoke (λ context args _,
      a0 ← arg args 0; a1 ← arg args 1; ret1 context [a0; a1; a0])).

(** *** Arithmetic and comparison on big integers *)

Definition SIZE : CreateOp :=
  createOp "SIZE" [("in", 1); ("out", 1)]%string
    (pureInvoke (λ context args _,
      value ← arg args 0 ≫= asBuffer;
      ret1 context [IntegerStackItem (Z.of_nat (length value))])).

Definition unaryInteger (name : string) (f : Z → StackItem) : CreateOp :=
  createOp name [("in", 1); ("out", 1)]%string
    (pureInvoke (λ context args _,
      value ← arg args 0 ≫= asBigInteger; ret1 context [f value])).

Definition INC := unaryInteger "INC" (λ value, IntegerStackItem (value + 1)).
Definition DEC := unaryInteger "DEC" (λ value, IntegerStackItem (value - 1)).
Definition SIGN :=
  unaryInteger "SIGN" (λ value,
    if value =? 0 then IntegerStackItem 0
    else if value <? 0 then IntegerStackItem (-1)
    else IntegerStackItem 1).
Definition NEGATE := unaryInteger "NEGATE" (λ value, IntegerStackItem (- value)).
Definition ABS := unaryInteger "ABS" (λ value, IntegerStackItem (Z.abs value)).
Definition NZ :=
  unaryInteger "NZ" (λ value, BooleanStackItem (negb (value =? 0))).

Definition NOT : CreateOp :=
  createOp "NOT" [("in", 1); ("out", 1)]%string
    (pureInvoke (λ context args _,
      value ← arg args 0 ≫= asBoolean;
      ret1 context [BooleanStackItem (negb value)])).

(** [args[1].asBigInteger().op(args[0].asBigInteger())] *)
Definition binaryInteger10 (name : string) (f : Z → Z → StackItem)
  : CreateOp :=
  createOp name [("in", 2); ("out", 1)]%string
    (pureInvoke (λ context args _,
      a1 ← arg args 1 ≫= asBigInteger;
      a0 ← arg args 0 ≫= asBigInteger;
      ret1 context [f a1 a0])).

(** [args[0].asBigInteger().op(args[1].asBigInteger())] *)
Definition binaryInteger01 (name : string) (f : Z → Z → StackItem)
  : CreateOp :=
  createOp name [("in", 2); ("out", 1)]%string
    (pureInvoke (λ context args _,
      a0 ← arg args 0 ≫= asBigInteger;
      a1 ← arg args 1 ≫= asBigInteger;
      ret1 context [f a0 a1])).

Definition ADD := binaryInteger10 "ADD" (λ a b, IntegerStackItem (a + b)).
Definition SUB := binaryInteger10 "SUB" (λ a b, IntegerStackItem (a - b)).
Definition MUL := binaryInteger10 "MUL" (λ a b, IntegerStackItem (a * b)).
Definition NUMEQUAL :=
  binaryInteger01 "NUMEQUAL" (λ a b, BooleanStackItem (a =? b)).
Definition NUMNOTEQUAL :=
  binaryInteger01 "NUMNOTEQUAL" (λ a b, BooleanStackItem (negb (a =? b))).
Definition LT := binaryInteger10 "LT" (λ a b, BooleanStackItem (a <? b)).
Definition GT := binaryInteger10 "GT" (λ a b, BooleanStackItem (b <? a)).
Definition LTE := binaryInteger10 "LTE" (λ a b, BooleanStackItem (a <=? b)).
Definition GTE := binaryInteger10 "GTE" (λ a b, BooleanStackItem (b <=? a)).
Definition MIN := binaryInteger10 "MIN" (λ a b, IntegerStackItem (Z.min a b)).
Definition MAX := binaryInteger10 "MAX" (λ a b, IntegerStackItem (Z.max a b)).

(** [args[0].asBoolean() && args[1].asBoolean()]: the second operand is
    coerced only when the first is true. *)
Definition BOOLAND : CreateOp :=
  createOp "BOOLAND" [("in", 2); ("out", 1)]%string
    (pureInvoke (λ context args _,
      a0 ← arg args 0 ≫= asBoolean;
      result ← (if a0 : bool then arg args 1 ≫= asBoolean else Ok false);
      ret1 context [BooleanStackItem result])).

Definition BOOLOR : CreateOp :=
  createOp "BOOLOR" [("in", 2); ("out", 1)]%string
    (pureInvoke (λ context args _,
      a0 ← arg args 0 ≫= asBoolean;
      result ← (if a0 : bool then Ok true else arg args 1 ≫= asBoolean);
      ret1 context [BooleanStackItem result])).

Definition WITHIN : CreateOp :=
  createOp "WITHIN" [("in", 3); ("out", 1)]%string
    (pureInvoke (λ context args _,
      a1 ← arg args 1 ≫= asBigInteger;
      a2 ← arg args 2 ≫= asBigInteger;
      result ←
        (if a1 <=? a2 then
           a2 ← arg args 2 ≫= asBigInteger;
           a0 ← arg args 0 ≫= asBigInteger;
           Ok (a2 <? a0)
         else Ok false);
      ret1 context [BooleanStackItem result])).

(** An operation whose behaviour is left to [externalInvoke]. *)
Definition external (name : string) (fields : Fields) : CreateOp :=
  createOp name fields (externalInvoke name).

(** *** Signatures

    [CHECKMULTISIG] uses what [crypto.verify] returns as a boolean, and
    [CHECKSIG] awaits it, which leaves a value that is no promise as it
    is: [verify] is a function that answers at once. *)

Definition CHECKSIG_invoke : OpInvoke :=
  pureInvoke (λ context args _,
    publicKey ← arg args 0 ≫= asBuffer;
    signature ← arg args 1 ≫= asBuffer;
    let result :=
      tryCatch (verify (message context) signature publicKey) false in
    ret1 context [BooleanStackItem result]).

Definition CHECKSIG : CreateOp :=
  createOp "CHECKSIG" [("in", 2); ("out", 1)]%string CHECKSIG_invoke.

(** The loop of [CHECKMULTISIG],
    [for (let i = 0, j = 0; result && i < m && j < n;)], entered with
    [result] true.  [remaining] holds the public keys from index [j] on,
    so that [j < n] is its being non-empty; an exception of [verify]
    leaves the loop. *)
Fixpoint checkMultisigLoop (msg : Buffer) (signatures : list Buffer)
    (m n : Z) (remaining : list Buffer) (i j : Z) : Result bool :=
  match remaining with
  | [] => Ok true
  | publicKey :: remaining' =>
      if i <? m then
        match signatures !! Z.to_nat i with
        | None => Throw JSTypeError
        | Some signature =>
            currentResult ← verify msg signature publicKey;
            let i := if currentResult : bool then i + 1 else i in
            let j := j + 1 in
            if n - j <? m - i then Ok false
            else checkMultisigLoop msg signatures m n remaining' i j
        end
      else Ok true
  end.

Definition CHECKMULTISIG_invoke : OpInvoke :=
  λ world context args _,
    a0 ← arg args 0;
    '(index, publicKeys) ←
      (if isArray a0 then
         value ← asArray a0;
         publicKeys ← mapM asBuffer (readCell (World.arrays world) value);
         Ok (1, publicKeys)
       else
         count ← asBigInteger a0 ≫= toNumber context;
         let index := 1 + count in
         publicKeys ← mapM asBuffer (slice args 1 (Some index));
         Ok (index, publicKeys));
    ai ← argAt args index;
    signatures ←
      (if isArray ai then
         value ← asArray ai;
         mapM asBuffer (readCell (World.arrays world) value)
       else mapM asBuffer (slice args (index + 1) None));
    let n := Z.of_nat (length publicKeys) in
    let m := Z.of_nat (length signatures) in
    if (n =? 0) || (m =? 0) || (n <? m) then
      Throw InvalidCheckMultisigArgumentsError
    else
      let result :=
        tryCatch
          (checkMultisigLoop (message context) signatures m n publicKeys 0 0)
          false in
      Ok (world, OpResult.mk context (Some [BooleanStackItem result]) None).

Definition CHECKMULTISIG : CreateOp :=
  λ world contextIn,
    let stack := ExecutionContext.stack contextIn in
    let top := stack !! 0%nat in
    in_ ←
      match top with
      | None => Ok 1
      | Some top =>
          if isArray top then Ok 1
          else
            count ← asBigInteger top ≫= toNumber contextIn;
            if count <=? 0 then Throw InvalidCheckMultisigArgumentsError
            else Ok (1 + count)
      end;
    let next := itemAt stack in_ in
    in_ ←
      match next with
      | None => Ok (in_ + 1)
      | Some next =>
          if isArray next then Ok (in_ + 1)
          else
            count ← asBigInteger next ≫= toNumber contextIn;
            if count <? 0 then Throw InvalidCheckMultisigArgumentsError
            else Ok (in_ + (1 + count))
      end;
    createOp "CHECKMULTISIG" [("in", in_); ("out", 1)]%string
      CHECKMULTISIG_invoke world contextIn.

(** *** Collections *)

Definition ARRAYSIZE : CreateOp :=
  createOp "ARRAYSIZE" [("in", 1); ("out", 1)]%string
    (λ world context args _,
      a0 ← arg args 0;
      size ←
        (if isArray a0 then
           value ← asArray a0;
           Ok (length (readCell (World.arrays world) value))
         else value ← asBuffer a0; Ok (length value));
      Ok (world,
          OpResult.mk context (Some [IntegerStackItem (Z.of_nat size)]) None)).

Definition PACK_invoke : OpInvoke :=
  λ world context args _,
    let '(arrays, value) := alloc (World.arrays world) (slice args 1 None) in
    Ok (World.with_arrays world arrays,
        OpResult.mk context (Some [ArrayStackItem value]) None).

Definition PACK : CreateOp :=
  λ world contextIn,
    let stack := ExecutionContext.stack contextIn in
    let top := stack !! 0%nat in
    in_ ←
      match top with
      | None => Ok 1
      | Some top =>
          count ← asBigInteger top ≫= toNumber contextIn;
          let in_ := 1 + count in
          if in_ <? 0 then Throw InvalidPackCountError else Ok in_
      end;
    createOp "PACK" [("in", in_); ("out", 1)]%string PACK_invoke world
      contextIn.

Definition UNPACK_invoke : OpInvoke :=
  λ world context args _,
    arr ← (λ value, readCell (World.arrays world) value)
            <$> (arg args 0 ≫= asArray);
    let results :=
      reverse arr ++ [IntegerStackItem (Z.of_nat (length arr))] in
    Ok (world, OpResult.mk context (Some results) None).

Definition UNPACK : CreateOp :=
  λ world contextIn,
    let stack := ExecutionContext.stack contextIn in
    let top := stack !! 0%nat in
    out ←
      match top with
      | None => Ok 1
      | Some top =>
          value ← asArray top;
          Ok (1 + Z.of_nat (length (readCell (World.arrays world) value)))
      end;
    createOp "UNPACK" [("in", 1); ("out", out)]%string UNPACK_invoke world
      contextIn.

Definition PICKITEM : CreateOp :=
  createOp "PICKITEM" [("in", 2); ("out", 1)]%string
    (λ world context args _,
      index ← (arg args 0 ≫= asBigInteger) ≫= toNumber context;
      value ← (λ value, readCell (World.arrays world) value)
                <$> (arg args 1 ≫= asArray);
      if (index <? 0) || (Z.of_nat (length value) <=? index) then
        Throw InvalidPickItemIndexError
      else
        item ← argAt value index;
        Ok (world, OpResult.mk context (Some [item]) None)).

(** Modelled from the spec: [StructStackItem.clone] is not among the
    sources.  By sections 3 and 9 it is a structural deep copy made at the
    moment of [SETITEM]: the copy is a new struct, the structs nested in
    it are copied in turn, and every other element, arrays among them,
    retains its identity.  The recursion follows the nesting of structs;
    on a struct nested in itself it would not end, which JavaScript
    reports as a [RangeError] when its call stack is exhausted: a chain
    of nested structs without a cycle is no longer than the store. *)
Fixpoint cloneItems (cloneRec : Heap → Ref → Result (Heap * Ref))
    (h : Heap) (items : list StackItem) : Result (Heap * list StackItem) :=
  match items with
  | [] => Ok (h, [])
  | value :: rest =>
      '(h, value) ←
        match value with
        | StructStackItem r =>
            '(h, r') ← cloneRec h r; Ok (h, StructStackItem r')
        | _ => Ok (h, value)
        end;
      '(h, rest) ← cloneItems cloneRec h rest;
      Ok (h, value :: rest)
  end.

Fixpoint cloneFrom (nesting : nat) (h : Heap) (r : Ref)
  : Result (Heap * Ref) :=
  match nesting with
  | O => Throw JSRangeError
  | S nesting' =>
      '(h, newItems) ← cloneItems (cloneFrom nesting') h (readCell h r);
      Ok (alloc h newItems)
  end.

Definition clone (h : Heap) (r : Ref) : Result (Heap * Ref) :=
  cloneFrom (S (length h)) h r.

Definition SETITEM_invoke : OpInvoke :=
    (λ world context args _,
      newItem ← arg args 0;
      '(arrays, newItem) ←
        match newItem with
        | StructStackItem r =>
            '(h, r') ← clone (World.arrays world) r;
            Ok (h, StructStackItem r')
        | _ => Ok (World.arrays world, newItem)
        end;
      index ← (arg args 1 ≫= asBigInteger) ≫= toNumber context;
      value ← arg args 2 ≫= asArray;
      if (index <? 0)
         || (Z.of_nat (length (readCell arrays value)) <=? index) then
        Throw InvalidSetItemIndexError
      else
        Ok (World.with_arrays world
              (writeCell arrays value (Z.to_nat index) newItem),
            OpResult.mk context None None)).

Definition SETITEM : CreateOp :=
  createOp "SETITEM" [("in", 3)]%string SETITEM_invoke.

Definition NEWARRAY : CreateOp :=
  createOp "NEWARRAY" [("in", 1); ("out", 1)]%string
    (λ world context args _,
      n ← (arg args 0 ≫= asBigInteger) ≫= toNumber context;
      let '(arrays, value) :=
        alloc (World.arrays world)
          (replicate (range0_length n) (BooleanStackItem false)) in
      Ok (World.with_arrays world arrays,
          OpResult.mk context (Some [ArrayStackItem value]) None)).

Definition NEWSTRUCT : CreateOp :=
  createOp "NEWSTRUCT" [("in", 1); ("out", 1)]%string
    (λ world context args _,
      n ← (arg args 0 ≫= asBigInteger) ≫= toNumber context;
      let '(arrays, value) :=
        alloc (World.arrays world)
          (replicate (range0_length n) (BooleanStackItem false)) in
      Ok (World.with_arrays world arrays,
          OpResult.mk context (Some [StructStackItem value]) None)).

(** *** Exceptions *)

Definition THROW : CreateOp :=
  createOp "THROW" [] (pureInvoke (λ context _ _, Throw ThrowError)).

Definition THROWIFNOT : CreateOp :=
  createOp "THROWIFNOT" [("in", 1)]%string
    (pureInvoke (λ context args _,
      value ← arg args 0 ≫= asBoolean;
      if negb value then Throw ThrowError else ret0 context)).

(** ** System calls ([syscalls.js]) *)

Definition checkWitness (world : World.t) (context : ExecutionContext.t)
    (hash : UInt160) : Promise bool :=
  async (
    let scriptContainer :=
      ExecutionInit.scriptContainer (ExecutionContext.init context) in
    scriptHashesForVerifiying ←
      (if ScriptContainer.type scriptContainer =? 0x00 then
         ScriptContainer.getScriptHashesForVerifying scriptContainer
           (World.blockchain world)
       else if ScriptContainer.type scriptContainer =? 0x01 then
         ScriptContainer.getScriptHashesForVerifying scriptContainer
           (World.blockchain world)
       else Throw InvalidScriptContainerTypeError);
    Ok (bool_decide (uInt160ToHex hash ∈ scriptHashesForVerifiying))).

(** [this.hash] and [this.hashHex] of a contract. *)
Definition Contract_hash (contract : Contract.t) : UInt160 :=
  toScriptHash (Contract.script contract).
Definition Contract_hashHex (contract : Contract.t) : UInt160Hex :=
  uInt160ToHex (Contract_hash contract).

(** Modelled from the spec: [blockchain.contract.add] of the ledger
    facade, which files a contract under its hash (section 4.7). *)
Definition contract_add (b : Blockchain.t) (contract : Contract.t)
  : Blockchain.t :=
  Blockchain.with_contract b
    (<[Contract_hash contract := contract]> (Blockchain.contract b)).

Definition createContract (world : World.t) (context : ExecutionContext.t)
    (args : list StackItem) : Result (World.t * (Contract.t * bool)) :=
  script ← arg args 0 ≫= asBuffer;
  parameterList ←
    (arg args 1 ≫= asBuffer) ≫=
    (λ buffer, mapM assertContractParameterType (byteToZ <$> buffer));
  returnType ←
    ((arg args 2 ≫= asBigInteger) ≫= BN_toNumber)
    ≫= assertContractParameterType;
  hasStorage ← arg args 3 ≫= asBoolean;
  name ← arg args 4 ≫= asString;
  codeVersion ← arg args 5 ≫= asString;
  author ← arg args 6 ≫= asString;
  email ← arg args 7 ≫= asString;
  description ← arg args 8 ≫= asString;
  let hash := hash160 script in
  match
    Blockchain.tryGet (Blockchain.contract (World.blockchain world)) hash
  with
  | None =>
      let contract :=
        Contract.mk script parameterList returnType hasStorage name
          codeVersion author email description in
      Ok (World.with_blockchain world
            (contract_add (World.blockchain world) contract),
          (contract, true))
  | Some contract => Ok (world, (contract, false))
  end.

Definition checkStorage (world : World.t) (context : ExecutionContext.t)
    (hash : UInt160) : Result Contract.t :=
  contract ←
    Blockchain.get (Blockchain.contract (World.blockchain world)) hash;
  if negb (Contract.hasStorage contract) then
    Throw (ContractNoStorageError hash)
  else Ok contract.

Definition Neo_Runtime_GetTrigger : CreateOp :=
  createSysCall "Neo.Runtime.GetTrigger" [("out", 1)]%string
    (pureInvoke (λ context _ _,
      ret1 context
        [IntegerStackItem
           (ExecutionInit.triggerType (ExecutionContext.init context))])).

Definition Neo_Account_GetScriptHash : CreateOp :=
  createSysCall "Neo.Account.GetScriptHash" [("in", 1); ("out", 1)]%string
    (pureInvoke (λ context args _,
      account ← arg args 0 ≫= asAccount;
      ret1 context [UInt160StackItem (Account.hash account)])).

Definition Neo_Account_GetBalance_invoke : OpInvoke :=
    (λ world context args _,
      account ← arg args 0 ≫= asAccount;
      accountState ←
        Blockchain.get (Blockchain.account (World.blockchain world))
          (Account.hash account);
      asset ← uInt256ToHex <$> (arg args 1 ≫= asUInt256);
      let result := default 0 (Account.balances accountState !! asset) in
      Ok (world, OpResult.mk context (Some [IntegerStackItem result]) None)).

Definition Neo_Account_GetBalance : CreateOp :=
  createSysCall "Neo.Account.GetBalance" [("in", 1); ("out", 1)]%string
    Neo_Account_GetBalance_invoke.

Definition Neo_Contract_GetScript : CreateOp :=
  createSysCall "Neo.Contract.GetScript" [("in", 1); ("out", 1)]%string
    (pureInvoke (λ context args _,
      contract ← arg args 0 ≫= asContract;
      ret1 context [BufferStackItem (Contract.script contract)])).

Definition Neo_Storage_GetContext : CreateOp :=
  createSysCall "Neo.Storage.GetContext" [("out", 1)]%string
    (pureInvoke (λ context _ _,
      ret1 context
        [StorageContextStackItem (ExecutionContext.scriptHash context)])).

Definition Neo_Storage_Get_invoke : OpInvoke :=
    (λ world context args _,
      hash ← arg args 0 ≫= toStorageContext context;
      _ ← checkStorage world context hash;
      key ← arg args 1 ≫= asBuffer;
      let item :=
        Blockchain.tryGet (Blockchain.storageItem (World.blockchain world))
          (hash, key) in
      let result :=
        match item with
        | None => []
        | Some item => StorageItem.value item
        end in
      Ok (world, OpResult.mk context (Some [BufferStackItem result]) None)).

Definition Neo_Storage_Get : CreateOp :=
  createSysCall "Neo.Storage.Get" [("in", 2); ("out", 1)]%string
    Neo_Storage_Get_invoke.

Definition Neo_Account_SetVotes_invoke : OpInvoke :=
    (λ world context args _,
      address ← Account.hash <$> (arg args 0 ≫= asAccount);
      votes ←
        (arg args 1 ≫= asArray) ≫=
        (λ value, mapM asECPoint (readCell (World.arrays world) value));
      if MAX_VOTES <? Z.of_nat (length votes) then Throw TooManyVotesError
      else
        account ←
          Blockchain.get (Blockchain.account (World.blockchain world))
            address;
        let asset :=
          Blockchain.governingToken_hashHex (World.blockchain world) in
        let balance := default 0 (Account.balances account !! asset) in
        if Account.isFrozen account then Throw AccountFrozenError
        else if (balance =? 0) && (0 <? Z.of_nat (length votes)) then
          Throw NotEligibleVoteError
        else if negb (truthyPromise (checkWitness world context address))
        then Throw BadWitnessCheckError
        else
          let '(blockchain, newAccount) :=
            Blockchain.account_update (World.blockchain world) account
              (Account.mkUpdate None (Some votes) None) in
          let blockchain :=
            if Account.isDeletable newAccount
            then Blockchain.account_delete blockchain address
            else blockchain in
          Ok (World.with_blockchain world blockchain,
              OpResult.mk context None None)).

Definition Neo_Account_SetVotes : CreateOp :=
  createSysCall "Neo.Account.SetVotes" [("in", 2)]%string
    Neo_Account_SetVotes_invoke.

Definition Neo_Contract_Create_invoke : OpInvoke :=
    (λ world context args _,
      '(world, (contract, _)) ← createContract world context args;
      let result := ContractStackItem contract in
      Ok (world,
          OpResult.mk
            (ExecutionContext.with_createdContracts context
               (<[Contract_hashHex contract :=
                    ExecutionContext.scriptHash context]>
                  (ExecutionContext.createdContracts context)))
            (Some [result]) None)).

Definition Neo_Contract_Create : CreateOp :=
  createSysCall "Neo.Contract.Create" [("in", 9); ("out", 1)]%string
    Neo_Contract_Create_invoke.

Definition Neo_Contract_GetStorageContext_invoke : OpInvoke :=
    (pureInvoke (λ context args _,
      contract ← arg args 0 ≫= asContract;
      let createdScriptHash :=
        ExecutionContext.createdContracts context
          !! Contract_hashHex contract in
      equal ←
        match createdScriptHash with
        | None => Throw JSTypeError
        | Some createdScriptHash =>
            Ok (uInt160Equal createdScriptHash
                  (ExecutionContext.scriptHash context))
        end;
      if negb equal then Throw InvalidContractGetStorageContextError
      else ret1 context [StorageContextStackItem (Contract_hash contract)])).

Definition Neo_Contract_GetStorageContext : CreateOp :=
  createSysCall "Neo.Contract.GetStorageContext"
    [("in", 1); ("out", 1)]%string
    Neo_Contract_GetStorageContext_invoke.

Definition System_ExecutionEngine_GetExecutingScriptHash : CreateOp :=
  createSysCall "System.ExecutionEngine.GetExecutingScriptHash"
    [("out", 1)]%string
    (pureInvoke (λ context _ _,
      ret1 context [UInt160StackItem (ExecutionContext.scriptHash context)])).

Definition System_ExecutionEngine_GetCallingScriptHash : CreateOp :=
  createSysCall "System.ExecutionEngine.GetCallingScriptHash"
    [("out", 1)]%string
    (pureInvoke (λ context _ _,
      ret1 context
        [match ExecutionContext.callingScriptHash context with
         | None => BufferStackItem []
         | Some callingScriptHash => UInt160StackItem callingScriptHash
         end])).

Definition System_ExecutionEngine_GetEntryScriptHash : CreateOp :=
  createSysCall "System.ExecutionEngine.GetEntryScriptHash"
    [("out", 1)]%string
    (pureInvoke (λ context _ _,
      ret1 context
        [UInt160StackItem (ExecutionContext.entryScriptHash context)])).

Definition SYSCALLS : list (string * CreateOp) :=
  [
    ("Neo.Runtime.GetTrigger", Neo_Runtime_GetTrigger);
    ("Neo.Runtime.CheckWitness",
     external "Neo.Runtime.CheckWitness" [("in", 1); ("out", 1)]);
    ("Neo.Runtime.Notify",
     external "Neo.Runtime.Notify" [("in", 1)]);
    ("Neo.Runtime.Log",
     external "Neo.Runtime.Log" [("in", 1)]);
    ("Neo.Blockchain.GetHeight",
     external "Neo.Blockchain.GetHeight" [("out", 1)]);
    ("Neo.Blockchain.GetHeader",
     external "Neo.Blockchain.GetHeader" [("in", 1); ("out", 1)]);
    ("Neo.Blockchain.GetBlock",
     external "Neo.Blockchain.GetBlock" [("in", 1); ("out", 1)]);
    ("Neo.Blockchain.GetTransaction",
     external "Neo.Blockchain.GetTransaction" [("in", 1); ("out", 1)]);
    ("Neo.Blockchain.GetAccount",
     external "Neo.Blockchain.GetAccount" [("in", 1); ("out", 1)]);
    ("Neo.Blockchain.GetValidators",
     external "Neo.Blockchain.GetValidators" [("out", 1)]);
    ("Neo.Blockchain.GetAsset",
     external "Neo.Blockchain.GetAsset" [("in", 1); ("out", 1)]);
    ("Neo.Blockchain.GetContract",
     external "Neo.Blockchain.GetContract" [("in", 1); ("out", 1)]);
    ("Neo.Header.GetHash",
     external "Neo.Header.GetHash" [("in", 1); ("out", 1)]);
    ("Neo.Header.GetVersion",
     external "Neo.Header.GetVersion" [("in", 1); ("out", 1)]);
    ("Neo.Header.GetPrevHash",
     external "Neo.Header.GetPrevHash" [("in", 1); ("out", 1)]);
    ("Neo.Header.GetMerkleRoot",
     external "Neo.Header.GetMerkleRoot" [("in", 1); ("out", 1)]);
    ("Neo.Header.GetTimestamp",
     external "Neo.Header.GetTimestamp" [("in", 1); ("out", 1)]);
    ("Neo.Header.GetConsensusData",
     external "Neo.Header.GetConsensusData" [("in", 1); ("out", 1)]);
    ("Neo.Header.GetNextConsensus",
     external "Neo.Header.GetNextConsensus" [("in", 1); ("out", 1)]);
    ("Neo.Block.GetTransactionCount",
     external "Neo.Block.GetTransactionCount" [("in", 1); ("out", 1)]);
    ("Neo.Block.GetTransactions",
     external "Neo.Block.GetTransactions" [("in", 1); ("out", 1)]);
    ("Neo.Block.GetTransaction",
     external "Neo.Block.GetTransaction" [("in", 2); ("out", 1)]);
    ("Neo.Transaction.GetHash",
     external "Neo.Transaction.GetHash" [("in", 1); ("out", 1)]);
    ("Neo.Transaction.GetType",
     external "Neo.Transaction.GetType" [("in", 1); ("out", 1)]);
    ("Neo.Transaction.GetAttributes",
     external "Neo.Transaction.GetAttributes" [("in", 1); ("out", 1)]);
    ("Neo.Transaction.GetInputs",
     external "Neo.Transaction.GetInputs" [("in", 1); ("out", 1)]);
    ("Neo.Transaction.GetOutputs",
     external "Neo.Transaction.GetOutputs" [("in", 1); ("out", 1)]);
    ("Neo.Transaction.GetReferences",
     external "Neo.Transaction.GetReferences" [("in", 1); ("out", 1)]);
    ("Neo.Attribute.GetUsage",
     external "Neo.Attribute.GetUsage" [("in", 1); ("out", 1)]);
    ("Neo.Attribute.GetData",
     external "Neo.Attribute.GetData" [("in", 1); ("out", 1)]);
    ("Neo.Input.GetHash",
     external "Neo.Input.GetHash" [("in", 1); ("out", 1)]);
    ("Neo.Input.GetIndex",
     external "Neo.Input.GetIndex" [("in", 1); ("out", 1)]);
    ("Neo.Output.GetAssetId",
     external "Neo.Output.GetAssetId" [("in", 1); ("out", 1)]);
    ("Neo.Output.GetValue",
     external "Neo.Output.GetValue" [("in", 1); ("out", 1)]);
    ("Neo.Output.GetScriptHash",
     external "Neo.Output.GetScriptHash" [("in", 1); ("out", 1)]);
    ("Neo.Account.GetScriptHash", Neo_Account_GetScriptHash);
    ("Neo.Account.GetVotes",
     external "Neo.Account.GetVotes" [("in", 1); ("out", 1)]);
    ("Neo.Account.GetBalance", Neo_Account_GetBalance);
    ("Neo.Asset.GetAssetId",
     external "Neo.Asset.GetAssetId" [("in", 1); ("out", 1)]);
    ("Neo.Asset.GetAssetType",
     external "Neo.Asset.GetAssetType" [("in", 1); ("out", 1)]);
    ("Neo.Asset.GetAmount",
     external "Neo.Asset.GetAmount" [("in", 1); ("out", 1)]);
    ("Neo.Asset.GetAvailable",
     external "Neo.Asset.GetAvailable" [("in", 1); ("out", 1)]);
    ("Neo.Asset.GetPrecision",
     external "Neo.Asset.GetPrecision" [("in", 1); ("out", 1)]);
    ("Neo.Asset.GetOwner",
     external "Neo.Asset.GetOwner" [("in", 1); ("out", 1)]);
    ("Neo.Asset.GetAdmin",
     external "Neo.Asset.GetAdmin" [("in", 1); ("out", 1)]);
    ("Neo.Asset.GetIssuer",
     external "Neo.Asset.GetIssuer" [("in", 1); ("out", 1)]);
    ("Neo.Contract.GetScript", Neo_Contract_GetScript);
    ("Neo.Storage.GetContext", Neo_Storage_GetContext);
    ("Neo.Storage.Get", Neo_Storage_Get);
    ("Neo.Account.SetVotes", Neo_Account_SetVotes);
    ("Neo.Validator.Register",
     external "Neo.Validator.Register" [("in", 1); ("out", 1)]);
    ("Neo.Asset.Create",
     external "Neo.Asset.Create" [("in", 7); ("out", 1)]);
    ("Neo.Asset.Renew",
     external "Neo.Asset.Renew" [("in", 2); ("out", 1)]);
    ("Neo.Contract.Create", Neo_Contract_Create);
    ("Neo.Contract.Migrate",
     external "Neo.Contract.Migrate" [("in", 9); ("out", 1)]);
    ("Neo.Contract.GetStorageContext", Neo_Contract_GetStorageContext);
    ("Neo.Contract.Destroy",
     external "Neo.Contract.Destroy" [("in", 1)]);
    ("Neo.Storage.Put",
     external "Neo.Storage.Put" [("in", 3)]);
    ("Neo.Storage.Delete",
     external "Neo.Storage.Delete" [("in", 2)]);
    ("System.ExecutionEngine.GetScriptContainer",
     external "System.ExecutionEngine.GetScriptContainer" [("out", 1)]);
    ("System.ExecutionEngine.GetExecutingScriptHash", System_ExecutionEngine_GetExecutingScriptHash);
    ("System.ExecutionEngine.GetCallingScriptHash", System_ExecutionEngine_GetCallingScriptHash);
    ("System.ExecutionEngine.GetEntryScriptHash", System_ExecutionEngine_GetEntryScriptHash)
  ]%string.

Definition SYSCALL_ALIASES : list (string * string) :=
  [
    ("AntShares.Runtime.CheckWitness",
     "Neo.Runtime.CheckWitness");
    ("AntShares.Runtime.Notify",
     "Neo.Runtime.Notify");
    ("AntShares.Runtime.Log",
     "Neo.Runtime.Log");
    ("AntShares.Blockchain.GetHeight",
     "Neo.Blockchain.GetHeight");
    ("AntShares.Blockchain.GetHeader",
     "Neo.Blockchain.GetHeader");
    ("AntShares.Blockchain.GetBlock",
     "Neo.Blockchain.GetBlock");
    ("AntShares.Blockchain.GetTransaction",
     "Neo.Blockchain.GetTransaction");
    ("AntShares.Blockchain.GetAccount",
     "Neo.Blockchain.GetAccount");
    ("AntShares.Blockchain.GetValidators",
     "Neo.Blockchain.GetValidators");
    ("AntShares.Blockchain.GetAsset",
     "Neo.Blockchain.GetAsset");
    ("AntShares.Blockchain.GetContract",
     "Neo.Blockchain.GetContract");
    ("AntShares.Header.GetHash",
     "Neo.Header.GetHash");
    ("AntShares.Header.GetVersion",
     "Neo.Header.GetVersion");
    ("AntShares.Header.GetPrevHash",
     "Neo.Header.GetPrevHash");
    ("AntShares.Header.GetMerkleRoot",
     "Neo.Header.GetMerkleRoot");
    ("AntShares.Header.GetTimestamp",
     "Neo.Header.GetTimestamp");
    ("AntShares.Header.GetConsensusData",
     "Neo.Header.GetConsensusData");
    ("AntShares.Header.GetNextConsensus",
     "Neo.Header.GetNextConsensus");
    ("AntShares.Block.GetTransactionCount",
     "Neo.Block.GetTransactionCount");
    ("AntShares.Block.GetTransactions",
     "Neo.Block.GetTransactions");
    ("AntShares.Block.GetTransaction",
     "Neo.Block.GetTransaction");
    ("AntShares.Transaction.GetHash",
     "Neo.Transaction.GetHash");
    ("AntShares.Transaction.GetType",
     "Neo.Transaction.GetType");
    ("AntShares.Transaction.GetAttributes",
     "Neo.Transaction.GetAttributes");
    ("AntShares.Transaction.GetInputs",
     "Neo.Transaction.GetInputs");
    ("AntShares.Transaction.GetOutputs",
     "Neo.Transaction.GetOutputs");
    ("AntShares.Transaction.GetReferences",
     "Neo.Transaction.GetReferences");
    ("AntShares.Attribute.GetUsage",
     "Neo.Attribute.GetUsage");
    ("AntShares.Attribute.GetData",
     "Neo.Attribute.GetData");
    ("AntShares.Input.GetHash",
     "Neo.Input.GetHash");
    ("AntShares.Input.GetIndex",
     "Neo.Input.GetIndex");
    ("AntShares.Output.GetAssetId",
     "Neo.Output.GetAssetId");
    ("AntShares.Output.GetValue",
     "Neo.Output.GetValue");
    ("AntShares.Output.GetScriptHash",
     "Neo.Output.GetScriptHash");
    ("AntShares.Account.GetScriptHash",
     "Neo.Account.GetScriptHash");
    ("AntShares.Account.GetVotes",
     "Neo.Account.GetVotes");
    ("AntShares.Account.GetBalance",
     "Neo.Account.GetBalance");
    ("AntShares.Asset.GetAssetId",
     "Neo.Asset.GetAssetId");
    ("AntShares.Asset.GetAssetType",
     "Neo.Asset.GetAssetType");
    ("AntShares.Asset.GetAmount",
     "Neo.Asset.GetAmount");
    ("AntShares.Asset.GetAvailable",
     "Neo.Asset.GetAvailable");
    ("AntShares.Asset.GetPrecision",
     "Neo.Asset.GetPrecision");
    ("AntShares.Asset.GetOwner",
     "Neo.Asset.GetOwner");
    ("AntShares.Asset.GetAdmin",
     "Neo.Asset.GetAdmin");
    ("AntShares.Asset.GetIssuer",
     "Neo.Asset.GetIssuer");
    ("AntShares.Contract.GetScript",
     "Neo.Contract.GetScript");
    ("AntShares.Storage.GetContext",
     "Neo.Storage.GetContext");
    ("AntShares.Storage.Get",
     "Neo.Storage.Get");
    ("AntShares.Account.SetVotes",
     "Neo.Account.SetVotes");
    ("AntShares.Validator.Register",
     "Neo.Validator.Register");
    ("AntShares.Asset.Create",
     "Neo.Asset.Create");
    ("AntShares.Asset.Renew",
     "Neo.Asset.Renew");
    ("AntShares.Contract.Create",
     "Neo.Contract.Create");
    ("AntShares.Contract.Migrate",
     "Neo.Contract.Migrate");
    ("AntShares.Contract.GetStorageContext",
     "Neo.Contract.GetStorageContext");
    ("AntShares.Contract.Destroy",
     "Neo.Contract.Destroy");
    ("AntShares.Storage.Put",
     "Neo.Storage.Put");
    ("AntShares.Storage.Delete",
     "Neo.Storage.Delete")
  ]%string.

(** [object[key]] on an object literal used as a table. *)
Fixpoint property {A} (object : list (string * A)) (key : string)
  : option A :=
  match object with
  | [] => None
  | (k, v) :: rest => if String.eqb k key then Some v else property rest key
  end.

Definition SYS_CALL_STRING_LENGTH : Z := 252.

Definition lookupSysCall : CreateOp :=
  λ world context,
    let code := ExecutionContext.code context in
    let pc := ExecutionContext.pc context in
    '(sysCallName, index) ← readSysCallName code pc SYS_CALL_STRING_LENGTH;
    let canonicalName :=
      default sysCallName (property SYSCALL_ALIASES sysCallName) in
    match property SYSCALLS canonicalName with
    | None => Throw UnknownSysCallError
    | Some createCall =>
        let nextContext := ExecutionContext.with_pc context index in
        createCall world nextContext
    end.

Definition SYSCALL : CreateOp :=
  λ world context,
    sysCall ← lookupSysCall world context;
    Ok {| Op.name := "SYSCALL";
          Op.in_ := Op.in_ sysCall;
          Op.inAlt := Op.inAlt sysCall;
          Op.out := Op.out sysCall;
          Op.outAlt := Op.outAlt sysCall;
          Op.modify := Op.modify sysCall;
          Op.modifyAlt := Op.modifyAlt sysCall;
          Op.invocation := Op.invocation sysCall;
          Op.array := Op.array sysCall;
          Op.item := Op.item sysCall;
          Op.fee := Op.fee sysCall;
          Op.invoke := Op.invoke sysCall;
          Op.context := Op.context sysCall |}.

(** *** The dispatch table *)

Definition OPCODE_PAIRS : list (Z * CreateOp) :=
  [(0x00, PUSH0)]
  ++ ((λ idx, (idx, PUSHBYTES idx)) <$> seqZ 0x01 (0x4C - 0x01))
  ++ [(0x4C, pushData "PUSHDATA1" 1);
      (0x4D, pushData "PUSHDATA2" 2);
      (0x4E, pushData "PUSHDATA4" 4);
      (0x4F, pushNumber "PUSHM1" (-1))]
  ++ ((λ idx, let value := idx - 0x50 in
              (idx, pushNumber ("PUSH" +:+ pretty value) value))
        <$> seqZ 0x51 (0x61 - 0x51))
  ++ [(0x61, NOP);
      (0x62, JMP);
      (0x63, jump "JMPIF" (Some true));
      (0x64, jump "JMPIFNOT" (Some false));
      (0x65, CALL);
      (0x66, RET);
      (0x67, call "APPCALL" None);
      (0x68, SYSCALL);
      (0x69, call "TAILCALL" (Some true));
      (0x6A, DUPFROMALTSTACK);
      (0x6B, TOALTSTACK);
      (0x6C, FROMALTSTACK);
      (0x6D, XDROP);
      (0x72, external "XSWAP" [("in", 1)]%string);
      (0x73, external "XTUCK" [("in", 1); ("modify", 1)]%string);
      (0x74, DEPTH);
      (0x75, DROP);
      (0x76, DUP);
      (0x77, NIP);
      (0x78, OVER);
      (0x79, external "PICK" [("in", 1); ("out", 1)]%string);
      (0x7A, external "ROLL" [("in", 1); ("out", 1); ("modify", -1)]%string);
      (0x7B, ROT);
      (0x7C, SWAP);
      (0x7D, TUCK);
      (0x7E, external "CAT" [("in", 2); ("out", 1)]%string);
      (0x7F, external "SUBSTR" [("in", 3); ("out", 1)]%string);
      (0x80, external "LEFT" [("in", 2); ("out", 1)]%string);
      (0x81, external "RIGHT" [("in", 2); ("out", 1)]%string);
      (0x82, SIZE);
      (0x83, external "INVERT" [("in", 1); ("out", 1)]%string);
      (0x84, external "AND" [("in", 2); ("out", 1)]%string);
      (0x85, external "OR" [("in", 2); ("out", 1)]%string);
      (0x86, external "XOR" [("in", 2); ("out", 1)]%string);
      (0x87, external "EQUAL" [("in", 2); ("out", 1)]%string);
      (0x8B, INC);
      (0x8C, DEC);
      (0x8D, SIGN);
      (0x8F, NEGATE);
      (0x90, ABS);
      (0x91, NOT);
      (0x92, NZ);
      (0x93, ADD);
      (0x94, SUB);
      (0x95, MUL);
      (0x96, external "DIV" [("in", 2); ("out", 1)]%string);
      (0x97, external "MOD" [("in", 2); ("out", 1)]%string);
      (0x98, external "SHL" [("in", 2); ("out", 1)]%string);
      (0x99, external "SHR" [("in", 2); ("out", 1)]%string);
      (0x9A, BOOLAND);
      (0x9B, BOOLOR);
      (0x9C, NUMEQUAL);
      (0x9E, NUMNOTEQUAL);
      (0x9F, LT);
      (0xA0, GT);
      (0xA1, LTE);
      (0xA2, GTE);
      (0xA3, MIN);
      (0xA4, MAX);
      (0xA5, WITHIN);
      (0xA7, external "SHA1" [("in", 1); ("out", 1)]%string);
      (0xA8, external "SHA256" [("in", 1); ("out", 1)]%string);
      (0xA9, external "HASH160" [("in", 1); ("out", 1)]%string);
      (0xAA, external "HASH256" [("in", 1); ("out", 1)]%string);
      (0xAC, CHECKSIG);
      (0xAE, CHECKMULTISIG);
      (0xC0, ARRAYSIZE);
      (0xC1, PACK);
      (0xC2, UNPACK);
      (0xC3, PICKITEM);
      (0xC4, SETITEM);
      (0xC5, NEWARRAY);
      (0xC6, NEWSTRUCT);
      (0xF0, THROW);
      (0xF1, THROWIFNOT)].

(** [_.fromPairs(OPCODE_PAIRS)]: of two pairs with one key the later
    stands. *)
Definition OPCODES : gmap Z CreateOp := list_to_map (reverse OPCODE_PAIRS).

Definition lookupOp (world : World.t) (context : ExecutionContext.t)
  : Result Op.t :=
  let pc := ExecutionContext.pc context in
  let opCode :=
    if pc <? 0 then None
    else byteToZ <$> ExecutionContext.code context !! Z.to_nat pc in
  match opCode ≫= (λ opCode, OPCODES !! opCode) with
  | None => Throw (UnknownOpError opCode)
  | Some create =>
      let opCode := default 0 opCode in
      if (OPCODE_TO_BYTECODE_PUSH16 <? opCode)
         && negb (opCode =? OPCODE_TO_BYTECODE_RET)
         && ExecutionContext.truthy
              (ExecutionContext.getProperty context "PushOnly")
      then Throw (PushOnlyError opCode)
      else create world (ExecutionContext.with_pc context (pc + 1))
  end.

(** ** One step of the engine

    Modelled from the spec: the engine is not among the sources.  Section
    4.3 lists what a step checks, in order, after the decoding: enough
    items on both stacks, enough gas for the fee, the invocation depth,
    the stack size; then it pops the arguments, calls [invoke] and pushes
    the results.  The top of a stack is its index 0 (the operations of
    dynamic arity read [stack[0]] as the top) and the results are pushed
    one after the other, the last one ending on top: only so do [SWAP],
    [ROT] and [TUCK] of the source do what their names say. *)
Definition applyOp (world : World.t) (op : Op.t)
  : Result (World.t * ExecutionContext.t) :=
  let context := Op.context op in
  let stack := ExecutionContext.stack context in
  let stackAlt := ExecutionContext.stackAlt context in
  if (Z.of_nat (length stack) <? Op.in_ op)
     || (Z.of_nat (length stackAlt) <? Op.inAlt op) then
    Throw StackUnderflowError
  else if ExecutionContext.gasLeft context <? Op.fee op then
    Throw OutOfGasError
  else if MAX_INVOCATION_STACK_SIZE
          <? ExecutionContext.depth context + Op.invocation op then
    Throw InvocationStackOverflowError
  else if MAX_STACK_SIZE
          <? Z.of_nat (length stack) + Z.of_nat (length stackAlt)
             + Op.out op + Op.outAlt op + Op.modify op + Op.modifyAlt op
  then Throw StackOverflowError
  else
    let args := take (Z.to_nat (Op.in_ op)) stack in
    let argsAlt := take (Z.to_nat (Op.inAlt op)) stackAlt in
    let context :=
      ExecutionContext.with_gasLeft
        (ExecutionContext.with_stackAlt
           (ExecutionContext.with_stack context
              (drop (Z.to_nat (Op.in_ op)) stack))
           (drop (Z.to_nat (Op.inAlt op)) stackAlt))
        (ExecutionContext.gasLeft context - Op.fee op) in
    '(world, result) ← Op.invoke op world context args argsAlt;
    let context := OpResult.context result in
    Ok (world,
        ExecutionContext.with_stackAlt
          (ExecutionContext.with_stack context
             (reverse (default [] (OpResult.results result))
              ++ ExecutionContext.stack context))
          (reverse (default [] (OpResult.resultsAlt result))
           ++ ExecutionContext.stackAlt context)).

(** Decode at [pc], then apply. *)
Definition step (world : World.t) (context : ExecutionContext.t)
  : Result (World.t * ExecutionContext.t) :=
  op ← lookupOp world context; applyOp world op.
End VM.
(** ** Notions used to state the properties *)

(** Where a jump lands: [pc] is the position of the offset bytes. *)
Definition jumpTarget (pc offset : Z) : Z := pc + 2 + offset - 3.

(** What a script can see of an item by walking into structs: the item
    itself, or for a struct the views of its elements.  Arrays are seen as
    the reference they are. *)
#[warnings="-register-all"] Inductive View : Type :=
| ViewCut
| ViewItem (item : StackItem)
| ViewStruct (elements : list View).

Fixpoint view (depth : nat) (h : Heap) (item : StackItem) : View :=
  match item with
  | StructStackItem r =>
      match depth with
      | O => ViewCut
      | S depth' => ViewStruct (view depth' h <$> readCell h r)
      end
  | _ => ViewItem item
  end.

(** An item of the store [h]: a struct it refers to is a cell of [h]. *)
Definition structIn (h : Heap) (item : StackItem) : Prop :=
  ∀ r, item = StructStackItem r → (r < length h)%nat.

(** Every struct an element of the store refers to is in the store. *)
Definition closed (h : Heap) : Prop :=
  ∀ r cell, h !! r = Some cell → Forall (structIn h) cell.


(** Every struct the cells from [bound] on refer to lies from [bound] on. *)
Definition freshFrom (bound : nat) (h : Heap) : Prop :=
  ∀ r cell, h !! r = Some cell → (bound ≤ r)%nat →
    Forall (λ item, ∀ x, item = StructStackItem x → (bound ≤ x)%nat) cell.

(** The structs of [items] are cells numbered from [lo] up to [hi]. *)
Definition structsWithin (lo hi : nat) (items : list StackItem) : Prop :=
  Forall (λ item, ∀ x, item = StructStackItem x → (lo ≤ x < hi)%nat) items.

(** What a successful copy guarantees of the store: it grows at its end,
    stays closed, and its new cells refer to new structs only. *)
Record copied (h h' : Heap) : Prop := {
  copied_ext : ∃ ext, h' = h ++ ext;
  copied_closed : closed h';
  copied_fresh : freshFrom (length h) h';
}.

(** Structs nest at most [depth] deep from the cell [r] on. *)
Inductive nestedWithin (h : Heap) : nat → Ref → Prop :=
| nestedWithin_intro depth r :
    (∀ x, StructStackItem x ∈ readCell h r → nestedWithin h depth x) →
    nestedWithin h (S depth) r.

(** An operation hands back no more items than its descriptor allows. *)
Definition respectsOut (create : CreateOp) : Prop :=
  ∀ world context op w c args argsAlt w' result,
    create world context = Ok op →
    Op.invoke op w c args argsAlt = Ok (w', result) →
    count (OpResult.results result) ≤ Op.out op ∧
    count (OpResult.resultsAlt result) ≤ Op.outAlt op.




Section Reading.
Context {platform : Platform}.

End Reading.

(** ** A platform and ledgers to run the definitions on *)

Module Sample.
(** A toy signature scheme: the signature of a message under a key is the
    key followed by the message; an empty signature is malformed. *)
Definition platform : Platform := {|
  MAX_SIZE := 2 ^ 31 - 1;
  verify msg signature publicKey :=
    match signature with
    | [] => Throw CryptoError
    | _ => Ok (bool_decide (signature = publicKey ++ msg))
    end;
  hash160 script := script;
  toScriptHash script := script;
  toStorageContext _ item :=
    match item with
    | StorageContextStackItem value => Ok value
    | _ => Throw InvalidTypeError
    end;
  assertContractParameterType value :=
    if (0 <=? value) && (value <=? 0x10) then Ok value
    else Throw InvalidContractParameterTypeError;
  asString item := _ ← asBuffer item; Ok ""%string;
  readSysCallName _ _ _ := Throw JSRangeError;
  externalInvoke _ := λ _ _ _ _, Throw UnknownSysCallError;
|}.

(** A transaction that signed [witnesses]. *)
Definition container (witnesses : gset UInt160Hex) : ScriptContainer.t :=
  ScriptContainer.mk 0x00 [x2a]%byte (λ _, Ok witnesses).

Definition context (code : Buffer) (pushOnly : bool)
    (stack : list StackItem) : ExecutionContext.t :=
  ExecutionContext.mk (ExecutionInit.mk (container ∅) 0x10) code pushOnly
    [xaa]%byte None [xaa]%byte 0 0 stack [] false 100 0 ∅.

Definition contractWith (script : Buffer) (hasStorage : bool) : Contract.t :=
  Contract.mk script [] 0 hasStorage "" "" "" "" "".

(** One account holding 7 of the governing token, a contract with storage
    holding one item and a contract without storage. *)
Definition account : Account.t :=
  Account.mk [x0a]%byte false [] {[ "0xc5"%string := 7 ]}.

Definition ledger : Blockchain.t :=
  Blockchain.mk
    {[ [x0a]%byte := account ]}
    {[ [x01]%byte := contractWith [x01]%byte true;
       [x02]%byte := contractWith [x02]%byte false ]}
    {[ ([x01]%byte, [x6b]%byte)
       := StorageItem.mk [x01]%byte [x6b]%byte [x76; x77]%byte ]}
    "0xc5".

Definition world (arrays : Heap) : World.t := World.mk arrays ledger.
End Sample.

(** * More of [opcodes.js]

    The dispatch table above leaves the operations of this part to
    [externalInvoke]; their bodies are modelled here from the source. *)

(** ** Reading numbers out of a buffer *)

(** The bytes an access of [byteLength] bytes at [offset] reads; Node raises
    a [RangeError] when they are not all inside the buffer. *)
Definition readBytes (buffer : Buffer) (offset : Z) (byteLength : nat)
  : Result Buffer :=
  if (offset <? 0) || (Z.of_nat (length buffer) <? offset + Z.of_nat byteLength)
  then Throw JSRangeError
  else Ok (take byteLength (drop (Z.to_nat offset) buffer)).

(** [buffer.readUInt8(offset)] and [buffer.readUInt16LE(offset)] *)
Definition readUInt8 (buffer : Buffer) (offset : Z) : Result Z :=
  fromUnsignedBuffer <$> readBytes buffer offset 1.

Definition readUInt16LE (buffer : Buffer) (offset : Z) : Result Z :=
  fromUnsignedBuffer <$> readBytes buffer offset 2.

(** [buffer.readInt32LE(offset)]: the four bytes as a signed number. *)
Definition readInt32LE (buffer : Buffer) (offset : Z) : Result Z :=
  value ← fromUnsignedBuffer <$> readBytes buffer offset 4;
  Ok (if 2 ^ 31 <=? value then value - 2 ^ 32 else value).

(** The [invoke] of [pushData({ name, numBytes })], which is [PUSHDATA1],
    [PUSHDATA2] and [PUSHDATA4]. *)
Definition pushData_invoke (numBytes : Z) : OpInvoke :=
  pureInvoke (λ context _ _,
    let code := ExecutionContext.code context in
    let pc := ExecutionContext.pc context in
    size ←
      (if numBytes =? 1 then readUInt8 code (ExecutionContext.pc context)
       else if numBytes =? 2 then readUInt16LE code pc
       else readInt32LE code pc);
    if Z.of_nat (length code) <? pc + numBytes + size - 1 then
      Throw CodeOverflowError
    else
      ret1 (ExecutionContext.with_pc context (pc + numBytes + size))
        [BufferStackItem
           (slice code (pc + numBytes) (Some (pc + numBytes + size)))]).

(** The read [pushData] makes for a size of [numBytes] bytes. *)
Definition readSize (numBytes : Z) : Buffer → Z → Result Z :=
  if numBytes =? 1 then readUInt8
  else if numBytes =? 2 then readUInt16LE
  else readInt32LE.

(** ** Faults of their own

    The operations below throw error classes of [errors.js] that the
    operations modelled so far do not. *)
Inductive OpcodeError : Type :=
| LeftNegativeError
| PickNegativeError
| RightLengthError
| RightNegativeError
| RollNegativeError
| SubstrNegativeEndError
| SubstrNegativeStartError
| XSwapNegativeError
| XTuckNegativeError.

(** What such an operation comes to: a value, one of the errors above, or
    a fault out of a coercion of an argument. *)
Inductive Outcome (A : Type) : Type :=
| Return (value : A)
| Raise (error : OpcodeError)
| Fault (error : VMError).
Arguments Return {A} value.
Arguments Raise {A} error.
Arguments Fault {A} error.

#[global] Instance Outcome_ret : MRet Outcome := fun _ x => Return x.
#[global] Instance Outcome_bind : MBind Outcome := fun _ _ f m =>
  match m with
  | Return x => f x
  | Raise e => Raise e
  | Fault e => Fault e
  end.

Definition liftResult {A} (r : Result A) : Outcome A :=
  match r with
  | Ok x => Return x
  | Throw e => Fault e
  end.

(** ** JavaScript arrays with [undefined] in them

    [PICK], [ROLL], [XSWAP] and [XTUCK] index the stack without a look at
    its length, and what they read past its end is [undefined]: a slot of
    the arrays they hand back is [None] then. *)

(** [xs[i] = v] for [0 <= i]: an assignment past the end grows the array,
    and the slots it skips read as [undefined]. *)
Definition assign {A} (xs : list (option A)) (i : Z) (v : option A)
  : list (option A) :=
  if i <? Z.of_nat (length xs) then <[Z.to_nat i := v]> xs
  else xs ++ replicate (Z.to_nat i - length xs) None ++ [v].

Section Opcodes.
Context {platform : Platform}.

(** *** Stack *)

(** [XSWAP]: the stack of the context it returns; the other fields of the
    context are handed back as they are. *)
Definition XSWAP_invoke (context : ExecutionContext.t) (args : list StackItem)
  : Outcome (list (option StackItem)) :=
  n ← liftResult ((arg args 0 ≫= asBigInteger) ≫= toNumber context);
  if n <? 0 then Raise XSwapNegativeError
  else
    let stack := Some <$> ExecutionContext.stack context in
    let stack := assign stack n (itemAt (ExecutionContext.stack context) 0) in
    let stack := assign stack 0 (itemAt (ExecutionContext.stack context) n) in
    Return stack.

(** [XTUCK]: the stack of the context it returns. *)
Definition XTUCK_invoke (context : ExecutionContext.t) (args : list StackItem)
  : Outcome (list (option StackItem)) :=
  n ← liftResult ((arg args 0 ≫= asBigInteger) ≫= toNumber context);
  if n <=? 0 then Raise XTuckNegativeError
  else
    let stack := ExecutionContext.stack context in
    Return ((Some <$> slice stack 0 (Some n))
            ++ [itemAt stack 0]
            ++ (Some <$> slice stack n None)).

(** [PICK]: its one result; the context is handed back as it is. *)
Definition PICK_invoke (context : ExecutionContext.t) (args : list StackItem)
  : Outcome (option StackItem) :=
  n ← liftResult ((arg args 0 ≫= asBigInteger) ≫= toNumber context);
  if n <? 0 then Raise PickNegativeError
  else Return (itemAt (ExecutionContext.stack context) n).

(** [ROLL]: the stack of the context it returns, and its one result. *)
Definition ROLL_invoke (context : ExecutionContext.t) (args : list StackItem)
  : Outcome (list StackItem * option StackItem) :=
  n ← liftResult ((arg args 0 ≫= asBigInteger) ≫= toNumber context);
  if n <? 0 then Raise RollNegativeError
  else
    let stack := ExecutionContext.stack context in
    Return (slice stack 0 (Some n) ++ slice stack (n + 1) None,
            itemAt (ExecutionContext.stack context) n).

(** *** Buffers *)

Definition CAT_invoke : OpInvoke :=
  pureInvoke (λ context args _,
    a1 ← arg args 1 ≫= asBuffer;
    a0 ← arg args 0 ≫= asBuffer;
    ret1 context [BufferStackItem (a1 ++ a0)]).

Definition SUBSTR_invoke (context : ExecutionContext.t)
    (args : list StackItem) : Outcome OpResult.t :=
  end_ ← liftResult ((arg args 0 ≫= asBigInteger) ≫= toNumber context);
  if end_ <? 0 then Raise SubstrNegativeEndError
  else
    start ← liftResult ((arg args 1 ≫= asBigInteger) ≫= toNumber context);
    if start <? 0 then Raise SubstrNegativeStartError
    else
      value ← liftResult (arg args 2 ≫= asBuffer);
      Return (OpResult.mk context
                (Some [BufferStackItem
                         (slice value start (Some (start + end_)))])
                None).

Definition LEFT_invoke (context : ExecutionContext.t) (args : list StackItem)
  : Outcome OpResult.t :=
  count ← liftResult ((arg args 0 ≫= asBigInteger) ≫= toNumber context);
  if count <? 0 then Raise LeftNegativeError
  else
    value ← liftResult (arg args 1 ≫= asBuffer);
    Return (OpResult.mk context
              (Some [BufferStackItem (slice value 0 (Some count))]) None).

Definition RIGHT_invoke (context : ExecutionContext.t) (args : list StackItem)
  : Outcome OpResult.t :=
  count ← liftResult ((arg args 0 ≫= asBigInteger) ≫= toNumber context);
  if count <? 0 then Raise RightNegativeError
  else
    value ← liftResult (arg args 1 ≫= asBuffer);
    if Z.of_nat (length value) <? count then Raise RightLengthError
    else
      Return (OpResult.mk context
                (Some [BufferStackItem (slice value (- count) None)]) None).
End Opcodes.

(** * More of [syscalls.js]: writing to the storage

    The write side of the ledger facade, [storageItem.add], [update] and
    [delete], is known by its interface only: the two system calls are
    modelled over any three functions of these types, and what a property
    needs of them is a hypothesis of it. *)
Section StorageWrites.
Context {platform : Platform}.
Variable storageItem_add : Blockchain.t → StorageItem.t → Blockchain.t.
Variable storageItem_update :
  Blockchain.t → StorageItem.t → Buffer → Blockchain.t.
Variable storageItem_delete : Blockchain.t → UInt160 → Buffer → Blockchain.t.

Definition Neo_Storage_Put_invoke : OpInvoke :=
  λ world context args _,
    hash ← arg args 0 ≫= toStorageContext context;
    _ ← checkStorage world context hash;
    key ← arg args 1 ≫= asBuffer;
    value ← arg args 2 ≫= asBuffer;
    let item :=
      Blockchain.tryGet (Blockchain.storageItem (World.blockchain world))
        (hash, key) in
    let blockchain :=
      match item with
      | None =>
          storageItem_add (World.blockchain world)
            (StorageItem.mk hash key value)
      | Some item => storageItem_update (World.blockchain world) item value
      end in
    Ok (World.with_blockchain world blockchain,
        OpResult.mk context None None).

Definition Neo_Storage_Delete_invoke : OpInvoke :=
  λ world context args _,
    hash ← arg args 0 ≫= toStorageContext context;
    _ ← checkStorage world context hash;
    key ← arg args 1 ≫= asBuffer;
    Ok (World.with_blockchain world
          (storageItem_delete (World.blockchain world) hash key),
        OpResult.mk context None None).
End StorageWrites.

(** * Hashes and keys as hexadecimal strings ([common.js]) *)

(** [strip0x]: [value.startsWith('0x') ? value.substring(2) : value] *)
Definition strip0x (value : string) : string :=
  match value with
  | String "0" (String "x" rest) => rest
  | _ => value
  end.

(** The value of a hexadecimal digit, in either case. *)
Definition hexValue (c : ascii) : option N :=
  let n := N_of_ascii c in
  if (48 <=? n)%N && (n <=? 57)%N then Some (n - 48)%N
  else if (97 <=? n)%N && (n <=? 102)%N then Some (n - 87)%N
  else if (65 <=? n)%N && (n <=? 70)%N then Some (n - 55)%N
  else None.

(** [Buffer.from(value, 'hex')]: one byte for each pair of digits, up to
    the first pair that is not one. *)
Fixpoint fromHexString (value : string) : Buffer :=
  match value with
  | String high (String low rest) =>
      match hexValue high, hexValue low with
      | Some h, Some l =>
          default x00%byte (Byte.of_N (16 * h + l)) :: fromHexString rest
      | _, _ => []
      end
  | _ => []
  end.

Definition UINT160_BUFFER_BYTES : nat := 20.
Definition UINT256_BUFFER_BYTES : nat := 32.
Definition ECPOINT_BUFFER_BYTES : nat := 33.
Definition ECPOINT_INFINITY : Buffer := [x00%byte].

Definition bufferToUInt160 (value : Buffer) : Result UInt160 :=
  if bool_decide (length value ≠ UINT160_BUFFER_BYTES)
  then Throw InvalidFormatError
  else Ok value.

(** The functions that take a value either as a string or as a buffer take
    a [string + Buffer] here. *)
Definition hexToUInt160 (value : UInt160Hex + UInt160) : Result UInt160 :=
  match value with
  | inl value => bufferToUInt160 (reverse (fromHexString (strip0x value)))
  | inr value => Ok value
  end.

Definition bufferToUInt256 (value : Buffer) : Result UInt256 :=
  if bool_decide (length value ≠ UINT256_BUFFER_BYTES)
  then Throw InvalidFormatError
  else Ok value.

Definition hexToUInt256 (value : UInt256Hex + UInt256) : Result UInt256 :=
  match value with
  | inl value => bufferToUInt256 (reverse (fromHexString (strip0x value)))
  | inr value => Ok value
  end.

Definition bufferToECPoint (value : Buffer) : Result ECPoint :=
  if bool_decide (length value ≠ ECPOINT_BUFFER_BYTES) then
    if bool_decide (length value = 1%nat)
       && bool_decide (value = ECPOINT_INFINITY)
    then Ok value
    else Throw InvalidFormatError
  else Ok value.

Definition ecPointToHex (value : string + ECPoint) : string :=
  match value with
  | inl value => value
  | inr value => toHexString value
  end.

Definition hexToECPoint (value : string + ECPoint) : Result ECPoint :=
  bufferToECPoint
    (match value with
     | inl value => fromHexString value
     | inr value => value
     end).

(** [ecPointCompare]: [<] and [>] on two strings compare them code unit by
    code unit. *)
Definition ecPointCompare (a b : string + ECPoint) : Z :=
  let aHex := ecPointToHex a in
  let bHex := ecPointToHex b in
  if String.ltb aHex bHex then -1
  else if String.ltb bHex aHex then 1
  else 0.

(** * More of [Account.js] *)

(** The balances [serializeWireBase] writes:
    [_.pickBy(this.balances, value => value.gt(utils.ZERO))]. *)
Definition Account_wireBalances (this : Account.t) : gmap UInt256Hex Z :=
  filter (λ entry, 0 < entry.2) (Account.balances this).

(** * Further notions used to state the properties *)

(** The stack with the items at [0] and [n] exchanged. *)
Definition swapped (stack : list StackItem) (n : nat) : list StackItem :=
  match stack !! 0%nat, stack !! n with
  | Some top, Some nth => <[0%nat := nth]> (<[n := top]> stack)
  | _, _ => stack
  end.

(** An operation hands back the context it was given, but for the stacks,
    the position and the [done] flag: the script, its hashes, the
    invocation depth, the gas, the action index and the contracts created
    are as they were. *)
Definition keepsContext (create : CreateOp) : Prop :=
  ∀ world context op w c args argsAlt w' result,
    create world context = Ok op →
    Op.invoke op w c args argsAlt = Ok (w', result) →
    let c' := OpResult.context result in
    ExecutionContext.init c' = ExecutionContext.init c ∧
    ExecutionContext.code c' = ExecutionContext.code c ∧
    ExecutionContext.pushOnly c' = ExecutionContext.pushOnly c ∧
    ExecutionContext.scriptHash c' = ExecutionContext.scriptHash c ∧
    ExecutionContext.callingScriptHash c'
    = ExecutionContext.callingScriptHash c ∧
    ExecutionContext.entryScriptHash c' = ExecutionContext.entryScriptHash c ∧
    ExecutionContext.depth c' = ExecutionContext.depth c ∧
    ExecutionContext.gasLeft c' = ExecutionContext.gasLeft c ∧
    ExecutionContext.actionIndex c' = ExecutionContext.actionIndex c ∧
    ExecutionContext.createdContracts c'
    = ExecutionContext.createdContracts c.

(** An operation leaves the [done] flag as it is. *)
Definition keepsDone (create : CreateOp) : Prop :=
  ∀ world context op w c args argsAlt w' result,
    create world context = Ok op →
    Op.invoke op w c args argsAlt = Ok (w', result) →
    ExecutionContext.done (OpResult.context result) = ExecutionContext.done c.

(** An operation asks for no gas. *)
Definition free (create : CreateOp) : Prop :=
  ∀ world context op, create world context = Ok op → Op.fee op = 0.

Section Signatures.
Context {platform : Platform}.

(** The two groups [CHECKMULTISIG] reads off its arguments, each as an
    array or as a count followed by the items, the one whatever the other
    is: the public keys with the index of the item after them, and the
    signatures found from that index on. *)
Definition multisigPublicKeys (world : World.t) (context : ExecutionContext.t)
    (args : list StackItem) : Result (Z * list Buffer) :=
  a0 ← arg args 0;
  if isArray a0 then
    value ← asArray a0;
    publicKeys ← mapM asBuffer (readCell (World.arrays world) value);
    Ok (1, publicKeys)
  else
    count ← asBigInteger a0 ≫= toNumber context;
    let index := 1 + count in
    publicKeys ← mapM asBuffer (slice args 1 (Some index));
    Ok (index, publicKeys).

Definition multisigSignatures (world : World.t) (args : list StackItem)
    (index : Z) : Result (list Buffer) :=
  ai ← argAt args index;
  if isArray ai then
    value ← asArray ai;
    mapM asBuffer (readCell (World.arrays world) value)
  else mapM asBuffer (slice args (index + 1) None).

(** The signatures are verified, each by a key of its own, by keys that
    come in the order of the signatures. *)
Definition verifiedInOrder (msg : Buffer) (signatures publicKeys : list Buffer)
  : Prop :=
  ∃ keys, sublist keys publicKeys ∧
    Forall2 (λ signature publicKey, verify msg signature publicKey = Ok true)
      signatures keys.
End Signatures.

(** * More of [opcodes.js]: calls

    [context.engine] is known by its type ([constants.js]): [run] takes a
    context and [executeScript] a script, a ledger, an [ExecutionInit], the
    gas left and [Options], and both hand back a context.  [CALL] and
    [call], which is [APPCALL] and [TAILCALL], are modelled over any two
    functions of these types; the ledger and the arrays, which the nested
    execution may change, are threaded through the [World]. *)
Module Options.
Record t := mk {
  depth : Z;
  stack : list StackItem;
  stackAlt : list StackItem;
  actionIndex : Z;
  createdContracts : gmap UInt160Hex UInt160;
  scriptHash : option UInt160;
  entryScriptHash : UInt160;
}.
End Options.

Section Calls.
Context {platform : Platform}.
Variable run :
  World.t → ExecutionContext.t → Result (World.t * ExecutionContext.t).
Variable executeScript :
  World.t → Buffer → ExecutionInit.t → Z → Options.t →
  Result (World.t * ExecutionContext.t).

(** [call({ name, tailCall })] *)
Definition call_invoke (tailCall : option bool) : OpInvoke :=
  λ world context _ _,
    let pc := ExecutionContext.pc context in
    hash ←
      bufferToUInt160 (slice (ExecutionContext.code context) pc (Some (pc + 20)));
    contract ←
      Blockchain.get (Blockchain.contract (World.blockchain world)) hash;
    '(world, resultContext) ←
      executeScript world (Contract.script contract)
        (ExecutionContext.init context) (ExecutionContext.gasLeft context)
        {| Options.stack := ExecutionContext.stack context;
           Options.stackAlt := ExecutionContext.stackAlt context;
           Options.depth :=
             if default false tailCall then ExecutionContext.depth context
             else ExecutionContext.depth context + 1;
           Options.actionIndex := ExecutionContext.actionIndex context;
           Options.createdContracts :=
             ExecutionContext.createdContracts context;
           Options.scriptHash := Some (ExecutionContext.scriptHash context);
           Options.entryScriptHash :=
             ExecutionContext.entryScriptHash context |};
    Ok (world,
        OpResult.mk
          {| ExecutionContext.init := ExecutionContext.init resultContext;
             ExecutionContext.code := ExecutionContext.code context;
             ExecutionContext.pushOnly :=
               ExecutionContext.pushOnly resultContext;
             ExecutionContext.scriptHash :=
               ExecutionContext.scriptHash resultContext;
             ExecutionContext.callingScriptHash :=
               ExecutionContext.callingScriptHash resultContext;
             ExecutionContext.entryScriptHash :=
               ExecutionContext.entryScriptHash resultContext;
             ExecutionContext.pc := pc + 20;
             ExecutionContext.depth := ExecutionContext.depth context;
             ExecutionContext.stack := ExecutionContext.stack resultContext;
             ExecutionContext.stackAlt :=
               ExecutionContext.stackAlt resultContext;
             ExecutionContext.done := default false tailCall;
             ExecutionContext.gasLeft :=
               ExecutionContext.gasLeft resultContext;
             ExecutionContext.actionIndex :=
               ExecutionContext.actionIndex resultContext;
             ExecutionContext.createdContracts :=
               ExecutionContext.createdContracts resultContext |}
          None None).

(** [CALL]: a [JMP] in place, then the engine runs on from there. *)
Definition CALL_invoke : OpInvoke :=
  λ world context _ _,
    let pc := ExecutionContext.pc context in
    op ← JMP world context;
    '(world, started) ← Op.invoke op world (Op.context op) [] [];
    let startContext := OpResult.context started in
    '(world, resultContext) ←
      run world
        {| ExecutionContext.init := ExecutionContext.init startContext;
           ExecutionContext.code := ExecutionContext.code startContext;
           ExecutionContext.pushOnly := ExecutionContext.pushOnly startContext;
           ExecutionContext.scriptHash :=
             ExecutionContext.scriptHash startContext;
           ExecutionContext.callingScriptHash :=
             ExecutionContext.callingScriptHash startContext;
           ExecutionContext.entryScriptHash :=
             ExecutionContext.entryScriptHash startContext;
           ExecutionContext.pc := ExecutionContext.pc startContext;
           ExecutionContext.depth := ExecutionContext.depth context + 1;
           ExecutionContext.stack := ExecutionContext.stack startContext;
           ExecutionContext.stackAlt := ExecutionContext.stackAlt startContext;
           ExecutionContext.done := ExecutionContext.done startContext;
           ExecutionContext.gasLeft := ExecutionContext.gasLeft startContext;
           ExecutionContext.actionIndex :=
             ExecutionContext.actionIndex startContext;
           ExecutionContext.createdContracts :=
             ExecutionContext.createdContracts startContext |};
    Ok (world,
        OpResult.mk
          {| ExecutionContext.init := ExecutionContext.init resultContext;
             ExecutionContext.code := ExecutionContext.code resultContext;
             ExecutionContext.pushOnly :=
               ExecutionContext.pushOnly resultContext;
             ExecutionContext.scriptHash :=
               ExecutionContext.scriptHash resultContext;
             ExecutionContext.callingScriptHash :=
               ExecutionContext.callingScriptHash resultContext;
             ExecutionContext.entryScriptHash :=
               ExecutionContext.entryScriptHash resultContext;
             ExecutionContext.pc := pc + 2;
             ExecutionContext.depth := ExecutionContext.depth context;
             ExecutionContext.stack := ExecutionContext.stack resultContext;
             ExecutionContext.stackAlt :=
               ExecutionContext.stackAlt resultContext;
             ExecutionContext.done := false;
             ExecutionContext.gasLeft :=
               ExecutionContext.gasLeft resultContext;
             ExecutionContext.actionIndex :=
               ExecutionContext.actionIndex resultContext;
             ExecutionContext.createdContracts :=
               ExecutionContext.createdContracts resultContext |}
          None None).
End Calls.

(** The body of an operation is left to [externalInvoke]. *)
Definition isExternal `{Platform} (create : CreateOp) : Prop :=
  ∃ name fields, create = external name fields.

(** As [keepsContext], but for the contracts created. *)
Definition keepsScript (create : CreateOp) : Prop :=
  ∀ world context op w c args argsAlt w' result,
    create world context = Ok op →
    Op.invoke op w c args argsAlt = Ok (w', result) →
    let c' := OpResult.context result in
    ExecutionContext.init c' = ExecutionContext.init c ∧
    ExecutionContext.code c' = ExecutionContext.code c ∧
    ExecutionContext.pushOnly c' = ExecutionContext.pushOnly c ∧
    ExecutionContext.scriptHash c' = ExecutionContext.scriptHash c ∧
    ExecutionContext.callingScriptHash c'
    = ExecutionContext.callingScriptHash c ∧
    ExecutionContext.entryScriptHash c' = ExecutionContext.entryScriptHash c ∧
    ExecutionContext.depth c' = ExecutionContext.depth c ∧
    ExecutionContext.gasLeft c' = ExecutionContext.gasLeft c ∧
    ExecutionContext.actionIndex c' = ExecutionContext.actionIndex c.

(** Two contexts that differ in the stacks, the position and the [done]
    flag at most. *)
Definition sameScript (c c' : ExecutionContext.t) : Prop :=
  ExecutionContext.init c' = ExecutionContext.init c ∧
  ExecutionContext.code c' = ExecutionContext.code c ∧
  ExecutionContext.pushOnly c' = ExecutionContext.pushOnly c ∧
  ExecutionContext.scriptHash c' = ExecutionContext.scriptHash c ∧
  ExecutionContext.callingScriptHash c'
  = ExecutionContext.callingScriptHash c ∧
  ExecutionContext.entryScriptHash c' = ExecutionContext.entryScriptHash c ∧
  ExecutionContext.depth c' = ExecutionContext.depth c ∧
  ExecutionContext.gasLeft c' = ExecutionContext.gasLeft c ∧
  ExecutionContext.actionIndex c' = ExecutionContext.actionIndex c ∧
  ExecutionContext.createdContracts c' = ExecutionContext.createdContracts c.

Section Returned.
Context {platform : Platform}.

(** An operation modelled beside the table returns [result] when invoked
    with the context [c]: [pushData], [CAT], [SUBSTR], [LEFT], [RIGHT],
    [Neo.Storage.Put] over any [add] and [update], or [Neo.Storage.Delete]
    over any [delete]. *)
Definition returnedBeside (c : ExecutionContext.t) (result : OpResult.t)
  : Prop :=
  ∃ args,
    (∃ numBytes w argsAlt w',
       pushData_invoke numBytes w c args argsAlt = Ok (w', result)) ∨
    (∃ w argsAlt w', CAT_invoke w c args argsAlt = Ok (w', result)) ∨
    SUBSTR_invoke c args = Return result ∨
    LEFT_invoke c args = Return result ∨
    RIGHT_invoke c args = Return result ∨
    (∃ add update w argsAlt w',
       Neo_Storage_Put_invoke add update w c args argsAlt
       = Ok (w', result)) ∨
    (∃ delete w argsAlt w',
       Neo_Storage_Delete_invoke delete w c args argsAlt = Ok (w', result)).
End Returned.

(** ** A platform that reads names, and a ledger that stores *)

Module Sample2.
(** [Sample.platform] with a reader of system call names: one byte of
    length, then that many characters. *)
Definition platform : Platform := {|
  MAX_SIZE := MAX_SIZE (Platform := Sample.platform);
  verify := verify (Platform := Sample.platform);
  hash160 := hash160 (Platform := Sample.platform);
  toScriptHash := toScriptHash (Platform := Sample.platform);
  toStorageContext := toStorageContext (Platform := Sample.platform);
  assertContractParameterType :=
    assertContractParameterType (Platform := Sample.platform);
  asString := asString (Platform := Sample.platform);
  readSysCallName code pc max :=
    size ← readUInt8 code pc;
    if max <? size then Throw InvalidFormatError
    else
      name ← readBytes code (pc + 1) (Z.to_nat size);
      Ok (string_of_list_byte name, pc + 1 + size);
  externalInvoke := externalInvoke (Platform := Sample.platform);
|}.

(** A ledger that files a storage item under its hash and key. *)
Definition with_storageItem (b : Blockchain.t)
    (v : gmap (UInt160 * Buffer) StorageItem.t) : Blockchain.t :=
  {| Blockchain.account := Blockchain.account b;
     Blockchain.contract := Blockchain.contract b;
     Blockchain.storageItem := v;
     Blockchain.governingToken_hashHex := Blockchain.governingToken_hashHex b |}.

Definition storageItem_add (b : Blockchain.t) (item : StorageItem.t)
  : Blockchain.t :=
  with_storageItem b
    (<[(StorageItem.hash item, StorageItem.key item) := item]>
       (Blockchain.storageItem b)).

Definition storageItem_update (b : Blockchain.t) (item : StorageItem.t)
    (value : Buffer) : Blockchain.t :=
  storageItem_add b
    (StorageItem.mk (StorageItem.hash item) (StorageItem.key item) value).

Definition storageItem_delete (b : Blockchain.t) (hash : UInt160)
    (key : Buffer) : Blockchain.t :=
  with_storageItem b (delete (hash, key) (Blockchain.storageItem b)).
End Sample2.

(** * Properties *)

Section Properties.
Context {platform : Platform}.

(** ** The helpers behave like their JavaScript originals *)

Example toSignedBuffer_255 : toSignedBuffer 255 = [xff; x00]%byte.
Proof. reflexivity. Qed.
Example toSignedBuffer_m1 : toSignedBuffer (-1) = [xff]%byte.
Proof. reflexivity. Qed.
Example toSignedBuffer_m129 : toSignedBuffer (-129) = [x7f; xff]%byte.
Proof. reflexivity. Qed.
Example fromSignedBuffer_m129 : fromSignedBuffer [x7f; xff]%byte = -129.
Proof. reflexivity. Qed.
Example toSignedBuffer_128 : toSignedBuffer 128 = [x80; x00]%byte.
Proof. reflexivity. Qed.
Example toSignedBuffer_m128 : toSignedBuffer (-128) = [x80]%byte.
Proof. reflexivity. Qed.
Example slice_1 : slice [1; 2; 3; 4] 1 None = [2; 3; 4].
Proof. reflexivity. Qed.
Example slice_1_3 : slice [1; 2; 3; 4] 1 (Some 3) = [2; 3].
Proof. reflexivity. Qed.
Example slice_neg : slice [1; 2; 3; 4] 1 (Some (-1)) = [2; 3].
Proof. reflexivity. Qed.
Example readInt16LE_m3 : readInt16LE [x62; xfd; xff]%byte 1 = Ok (-3).
Proof. reflexivity. Qed.
Example readInt16LE_oob : readInt16LE [x62; xfd]%byte 1 = Throw JSRangeError.
Proof. reflexivity. Qed.

(** ** Decoding *)

Lemma lookupOp_known world context b create :
  0 ≤ ExecutionContext.pc context →
  ExecutionContext.code context !! Z.to_nat (ExecutionContext.pc context)
    = Some b →
  OPCODES !! byteToZ b = Some create →
  lookupOp world context
  = create world
      (ExecutionContext.with_pc context (ExecutionContext.pc context + 1)).
Proof.
  intros Hpc Hb Hcreate. unfold lookupOp.
  destruct (Z.ltb_spec (ExecutionContext.pc context) 0) as [|_]; [lia|].
  rewrite Hb. cbn [fmap option_fmap option_map mbind option_bind default].
  rewrite Hcreate.
  replace (ExecutionContext.truthy
             (ExecutionContext.getProperty context "PushOnly")) with false
    by reflexivity.
  by rewrite andb_false_r.
Qed.

(** A fault of the decoding is an unknown opcode or comes out of the
    creation of the operation: the push-only guard throws nothing. *)
Lemma lookupOp_Throw world context e :
  lookupOp world context = Throw e →
  (∃ opCode, e = UnknownOpError opCode) ∨
  ∃ opCode create,
    OPCODES !! opCode = Some create ∧
    create world
      (ExecutionContext.with_pc context (ExecutionContext.pc context + 1))
    = Throw e.
Proof.
  unfold lookupOp.
  replace (ExecutionContext.truthy
             (ExecutionContext.getProperty context "PushOnly")) with false
    by reflexivity.
  destruct (if ExecutionContext.pc context <? 0 then None else _)
    as [opCode|]; cbn [mbind option_bind default];
    [|intros [= <-]; left; by eexists].
  destruct (OPCODES !! opCode) as [create|] eqn:Hcreate;
    [|intros [= <-]; left; by eexists].
  rewrite andb_false_r. intros Hthrow. right. by eexists _, _.
Qed.

Lemma OPCODES_JMP : OPCODES !! 0x62 = Some JMP.
Proof. reflexivity. Qed.

Lemma OPCODES_JMPIF : OPCODES !! 0x63 = Some (jump "JMPIF" (Some true)).
Proof. reflexivity. Qed.

Lemma OPCODES_JMPIFNOT : OPCODES !! 0x64 = Some (jump "JMPIFNOT" (Some false)).
Proof. reflexivity. Qed.

(** C2.  The guard of [lookupOp] reads [context.PushOnly], a key the
    context does not have, so it is never taken: in a context whose
    [pushOnly] flag is set, an opcode above [PUSH16] other than [RET] is
    decoded like any other, and no [PushOnlyError] is thrown for it. *)
Theorem lookupOp_pushOnly_not_enforced world context b create :
  ExecutionContext.pushOnly context = true →
  0 ≤ ExecutionContext.pc context →
  ExecutionContext.code context !! Z.to_nat (ExecutionContext.pc context)
    = Some b →
  OPCODE_TO_BYTECODE_PUSH16 < byteToZ b →
  byteToZ b ≠ OPCODE_TO_BYTECODE_RET →
  OPCODES !! byteToZ b = Some create →
  lookupOp world context
  = create world
      (ExecutionContext.with_pc context (ExecutionContext.pc context + 1)).
Proof.
  intros HpushOnly Hpc Hb Habove Hret Hcreate. unfold lookupOp.
  destruct (Z.ltb_spec (ExecutionContext.pc context) 0) as [|_]; [lia|].
  rewrite Hb. cbn [fmap option_fmap option_map mbind option_bind default].
  rewrite Hcreate.
  (* the flag is set, and would be truthy under its own key ... *)
  assert (ExecutionContext.truthy
            (ExecutionContext.getProperty context "pushOnly") = true)
    as _ by (cbn; by rewrite HpushOnly).
  (* ... but the guard reads another key, which no context has *)
  replace (ExecutionContext.truthy
             (ExecutionContext.getProperty context "PushOnly")) with false
    by reflexivity.
  by rewrite andb_false_r.
Qed.

(** C4.  [OVER] is declared with [in: 2] and no [out], and its [invoke]
    hands back three items: more than the descriptor allows. *)
Theorem OVER_pushes_more_than_out world context a b :
  OPCODES !! 0x78 = Some OVER ∧
  ∃ op,
    OVER world context = Ok op ∧
    Op.in_ op = 2 ∧ Op.out op = 0 ∧
    Op.invoke op world context [a; b] []
    = Ok (world, OpResult.mk context (Some [b; a; b]) None) ∧
    Op.out op < count (Some [b; a; b]).
Proof.
  split; [reflexivity|]. eexists. split; [reflexivity|]. 
  repeat split; reflexivity.
Qed.

(** Apart from [OVER], the operations of the table that are modelled here
    keep to their descriptors. *)
Ltac invoke_cases :=
  repeat match goal with
         | H : Throw _ = Ok _ |- _ => discriminate H
         | H : Ok _ = Ok _ |- _ => injection H as H; simplify_eq
         | H : (?m ≫= _) = Ok _ |- _ =>
             let E := fresh "E" in
             destruct m eqn:E; cbn [mbind Result_bind] in H;
             [|discriminate H]
         | H : (_ <$> ?m) = Ok _ |- _ =>
             let E := fresh "E" in
             destruct m eqn:E; cbn [fmap Result_fmap] in H;
             [|discriminate H]
         | H : (if ?b then _ else _) = Ok _ |- _ => destruct b
         | H : (let '(_, _) := ?p in _) = Ok _ |- _ => destruct p
         | H : match ?x with _ => _ end = Ok _ |- _ => destruct x
         end.

Ltac respects :=
  let Hcreate := fresh "Hcreate" in
  let Hinvoke := fresh "Hinvoke" in
  intros world context op w c args argsAlt w' result Hcreate Hinvoke;
  cbv [PUSH0 NOP JMP jump RET DUPFROMALTSTACK TOALTSTACK FROMALTSTACK XDROP
       DEPTH DROP DUP NIP ROT SWAP TUCK SIZE INC DEC SIGN NEGATE ABS NOT NZ
       ADD SUB MUL BOOLAND BOOLOR NUMEQUAL NUMNOTEQUAL LT GT LTE GTE MIN MAX
       WITHIN CHECKSIG CHECKMULTISIG ARRAYSIZE PACK PICKITEM SETITEM NEWARRAY
       NEWSTRUCT THROW THROWIFNOT pushNumber PUSHBYTES unaryInteger
       binaryInteger10 binaryInteger01 createOp createSysCall] in Hcreate;
  cbn [mbind Result_bind] in Hcreate;
  invoke_cases;
  cbn [Op.invoke Op.out Op.outAlt] in *;
  cbv [pureInvoke ret0 ret1 jump_invoke CHECKSIG_invoke CHECKMULTISIG_invoke
       PACK_invoke SETITEM_invoke] in Hinvoke;
  invoke_cases;
  vm_compute; split; discriminate.

Lemma static_ops_respect_out :
  Forall respectsOut
    [PUSH0; NOP; JMP; jump "JMPIF" (Some true); jump "JMPIFNOT" (Some false);
     RET; DUPFROMALTSTACK; TOALTSTACK; FROMALTSTACK; XDROP; DEPTH; DROP; DUP;
     NIP; ROT; SWAP; TUCK; SIZE; INC; DEC; SIGN; NEGATE; ABS; NOT; NZ; ADD;
     SUB; MUL; BOOLAND; BOOLOR; NUMEQUAL; NUMNOTEQUAL; LT; GT; LTE; GTE; MIN;
     MAX; WITHIN; CHECKSIG; CHECKMULTISIG; ARRAYSIZE; PACK; PICKITEM; SETITEM;
     NEWARRAY; NEWSTRUCT; THROW; THROWIFNOT].
Proof.
  repeat (apply Forall_cons_2; [by respects|]). apply Forall_nil_2.
Qed.

Lemma push_ops_respect_out name value idx :
  respectsOut (pushNumber name value) ∧ respectsOut (PUSHBYTES idx).
Proof. split; respects. Qed.

Lemma OVER_does_not_respect_out : ¬ respectsOut OVER.
Proof.
  intros Hover.
  set (world := World.mk [] (Blockchain.mk ∅ ∅ ∅ "")).
  set (context :=
    ExecutionContext.mk
      (ExecutionInit.mk (ScriptContainer.mk 0 [] (λ _, Ok ∅)) 0)
      [] false [] None [] 0 0 [] [] false 0 0 ∅).
  destruct (Hover world context _ world context
              [IntegerStackItem 1; IntegerStackItem 2] [] _ _
              eq_refl eq_refl) as [Hout _].
  vm_compute in Hout. by apply Hout.
Qed.

(** [UNPACK] declares its [out] from the array on top of the stack; a step
    of it pushes that many items. *)
Lemma UNPACK_pushes_out world context op world' context' :
  UNPACK world context = Ok op →
  applyOp world op = Ok (world', context') →
  Z.of_nat (length (ExecutionContext.stack context'))
  = Z.of_nat (length (ExecutionContext.stack context)) - Op.in_ op + Op.out op.
Proof.
  unfold UNPACK. intros Hcreate Hstep.
  destruct (ExecutionContext.stack context) as [|top rest] eqn:Hstack;
    cbn in Hcreate.
  { injection Hcreate as <-. unfold applyOp in Hstep. cbn in Hstep.
    by rewrite Hstack in Hstep. }
  destruct (asArray top) as [value|e] eqn:Htop; cbn in Hcreate; [|done].
  injection Hcreate as <-. unfold applyOp in Hstep.
  cbn [Op.context Op.in_ Op.inAlt Op.out Op.outAlt Op.modify Op.modifyAlt
       Op.invocation Op.fee Op.invoke field default String.eqb Ascii.eqb
       Bool.eqb] in Hstep |- *.
  rewrite Hstack in Hstep.
  repeat match type of Hstep with
         | (if ?b then _ else _) = Ok _ => destruct b; [done|]
         end.
  change (Z.to_nat 1) with 1%nat in Hstep.
  cbn [take drop] in Hstep. unfold UNPACK_invoke in Hstep.
  cbn [arg lookup list_lookup mbind Result_bind fmap Result_fmap] in Hstep.
  rewrite Htop in Hstep.
  cbn [arg lookup list_lookup mbind Result_bind fmap Result_fmap] in Hstep.
  injection Hstep as <- <-.
  cbn [OpResult.results OpResult.context default ExecutionContext.stack
       ExecutionContext.with_stack ExecutionContext.with_stackAlt
       ExecutionContext.with_gasLeft].
  rewrite length_app, length_reverse, length_app, length_reverse, drop_0.
  cbn [length]. lia.
Qed.

(** ** Jumps *)

Lemma jump_invoke_overflow checkTrue world context args argsAlt offset :
  readInt16LE (ExecutionContext.code context) (ExecutionContext.pc context)
    = Ok offset →
  jumpTarget (ExecutionContext.pc context) offset < 0
  ∨ Z.of_nat (length (ExecutionContext.code context))
    < jumpTarget (ExecutionContext.pc context) offset →
  jump_invoke checkTrue world context args argsAlt = Throw CodeOverflowError.
Proof.
  intros Hread Hout. unfold jump_invoke, pureInvoke, jumpTarget in *.
  rewrite Hread. cbn.
  destruct (_ || _) eqn:Hguard; [done|].
  apply orb_false_elim in Hguard as [?%Z.ltb_ge ?%Z.ltb_ge]. lia.
Qed.

Lemma jump_invoke_inside checkTrue world context args argsAlt offset :
  readInt16LE (ExecutionContext.code context) (ExecutionContext.pc context)
    = Ok offset →
  0 ≤ jumpTarget (ExecutionContext.pc context) offset
    ≤ Z.of_nat (length (ExecutionContext.code context)) →
  jump_invoke checkTrue world context args argsAlt
  = (shouldJump ←
       match checkTrue with
       | None => Ok true
       | Some checkTrue =>
           shouldJump ← arg args 0 ≫= asBoolean;
           Ok (if negb checkTrue then negb shouldJump else shouldJump)
       end;
     Ok (world,
         OpResult.mk
           (ExecutionContext.with_pc context
              (if shouldJump : bool
               then jumpTarget (ExecutionContext.pc context) offset
               else ExecutionContext.pc context + 2))
           None None)).
Proof.
  intros Hread Hin. unfold jump_invoke, pureInvoke, jumpTarget in *.
  rewrite Hread. cbn.
  destruct (_ || _) eqn:Hguard.
  { apply orb_true_elim in Hguard as [?%Z.ltb_lt| ?%Z.ltb_lt]; lia. }
  destruct checkTrue as [checkTrue|]; cbn; [|done].
  destruct (arg args 0 ≫= asBoolean) as [shouldJump|e]; cbn; done.
Qed.

(** C5.  [JMP], [JMPIF] and [JMPIFNOT] read a signed 16-bit little-endian
    offset at the byte after the opcode; with [p] the position of the offset
    bytes the target is [p + 2 + offset - 3]; a target below 0 or above the
    length of the code faults with [CodeOverflowError]; [JMP] takes no item
    and always jumps; [JMPIF] and [JMPIFNOT] take one item and jump exactly
    when it coerces to true, respectively to false, and go on at [p + 2]
    otherwise. *)
Theorem jump_semantics world context b checkTrue name offset :
  0 ≤ ExecutionContext.pc context →
  ExecutionContext.code context !! Z.to_nat (ExecutionContext.pc context)
    = Some b →
  (byteToZ b, name, checkTrue)
    ∈ [(0x62, "JMP", None); (0x63, "JMPIF", Some true);
       (0x64, "JMPIFNOT", Some false)]%string →
  let decoded :=
    ExecutionContext.with_pc context (ExecutionContext.pc context + 1) in
  readInt16LE (ExecutionContext.code context) (ExecutionContext.pc context + 1)
    = Ok offset →
  let target := (ExecutionContext.pc context + 1) + 2 + offset - 3 in
  let fallThrough := (ExecutionContext.pc context + 1) + 2 in
  ∃ op,
    lookupOp world context = Ok op ∧
    Op.name op = name ∧
    Op.context op = decoded ∧
    Op.in_ op = match checkTrue with None => 0 | Some _ => 1 end ∧
    Op.out op = 0 ∧ Op.inAlt op = 0 ∧ Op.outAlt op = 0 ∧
    (* a target outside the code *)
    (target < 0 ∨ Z.of_nat (length (ExecutionContext.code context)) < target →
     ∀ w args argsAlt,
       Op.invoke op w decoded args argsAlt = Throw CodeOverflowError) ∧
    (* a target inside the code *)
    (0 ≤ target ≤ Z.of_nat (length (ExecutionContext.code context)) →
     match checkTrue with
     | None =>
         ∀ w args argsAlt,
           Op.invoke op w decoded args argsAlt
           = Ok (w, OpResult.mk (ExecutionContext.with_pc decoded target)
                      None None)
     | Some checkTrue =>
         ∀ w item rest argsAlt value,
           asBoolean item = Ok value →
           Op.invoke op w decoded (item :: rest) argsAlt
           = Ok (w, OpResult.mk
                      (ExecutionContext.with_pc decoded
                         (if bool_decide (value = checkTrue)
                          then target else fallThrough))
                      None None)
     end).
Proof.
  intros Hpc Hb Hop decoded Hread target fallThrough.
  assert (∃ create, OPCODES !! byteToZ b = Some create
                    ∧ create = jump name checkTrue) as (create & Hc & ->).
  { rewrite !elem_of_cons, elem_of_nil in Hop.
    destruct Hop as [[= -> -> ->]|[[= -> -> ->]|[[= -> -> ->]|[]]]];
      eexists; (split; [reflexivity|done]). }
  rewrite (lookupOp_known world context b _ Hpc Hb Hc).
  eexists. split; [reflexivity|].
  cbn [Op.name Op.context Op.in_ Op.out Op.inAlt Op.outAlt Op.invoke].
  split; [reflexivity|]. split; [reflexivity|].
  split; [destruct checkTrue; reflexivity|].
  do 3 (split; [reflexivity|]). split.
  - intros Hout w args argsAlt.
    apply jump_invoke_overflow with offset; [done|].
    unfold jumpTarget; subst decoded; cbn. lia.
  - intros Hin.
    destruct checkTrue as [checkTrue|].
    + intros w item rest argsAlt value Hvalue.
      rewrite jump_invoke_inside with (offset := offset); [|done|].
      2: { unfold jumpTarget; subst decoded; cbn. lia. }
      cbn. rewrite Hvalue. cbn. unfold jumpTarget. subst decoded. cbn.
      by destruct checkTrue, value.
    + intros w args argsAlt.
      by rewrite jump_invoke_inside with (offset := offset).
Qed.

(** ** Signatures *)

Lemma checkMultisigLoop_single msg signature publicKey :
  tryCatch (checkMultisigLoop msg [signature] 1 1 [publicKey] 0 0) false
  = tryCatch (verify msg signature publicKey) false.
Proof.
  unfold checkMultisigLoop. change (Z.to_nat 0) with 0%nat.
  cbn [lookup list_lookup Z.ltb Z.compare].
  destruct (verify msg signature publicKey) as [[]|e]; reflexivity.
Qed.

(** C1.  With a single-element array [[pk]] as the key group and a
    single-element array [[sig]] as the signature group, [CHECKMULTISIG]
    has the outcome [CHECKSIG] has on [pk] and [sig]; both answer false when
    the signature does not verify. *)
Theorem CHECKSIG_agrees_with_single_CHECKMULTISIG world context pk sig
    pkRef sigRef :
  readCell (World.arrays world) pkRef = [pk] →
  readCell (World.arrays world) sigRef = [sig] →
  (* the two operations give the same outcome, faults included *)
  CHECKMULTISIG_invoke world context
    [ArrayStackItem pkRef; ArrayStackItem sigRef] []
  = CHECKSIG_invoke world context [pk; sig] [] ∧
  (* CHECKMULTISIG takes the two arrays, as CHECKSIG takes its two items *)
  (∀ rest,
     ExecutionContext.stack context
     = ArrayStackItem pkRef :: ArrayStackItem sigRef :: rest →
     ∃ multi single,
       CHECKMULTISIG world context = Ok multi ∧
       CHECKSIG world context = Ok single ∧
       Op.invoke multi = CHECKMULTISIG_invoke ∧
       Op.invoke single = CHECKSIG_invoke ∧
       Op.in_ multi = 2 ∧ Op.in_ single = 2 ∧
       Op.out multi = 1 ∧ Op.out single = 1) ∧
  (* a signature that does not verify gives false on both sides *)
  (∀ publicKey signature,
     asBuffer pk = Ok publicKey →
     asBuffer sig = Ok signature →
     verify (message context) signature publicKey ≠ Ok true →
     CHECKSIG_invoke world context [pk; sig] []
     = Ok (world, OpResult.mk context (Some [BooleanStackItem false]) None)).
Proof.
  intros Hpk Hsig. split; [|split].
  - unfold CHECKMULTISIG_invoke, CHECKSIG_invoke, pureInvoke.
    cbn [arg lookup list_lookup mbind Result_bind isArray asArray argAt
         Z.ltb Z.compare Z.to_nat Pos.to_nat Pos.iter_op Nat.add].
    rewrite Hpk. cbn [mapM mbind Result_bind].
    destruct (asBuffer pk) as [publicKey|e]; cbn [mbind Result_bind]; [|done].
    unfold argAt.
    cbn [arg lookup list_lookup mbind Result_bind isArray asArray
         Z.ltb Z.compare Z.to_nat Pos.to_nat Pos.iter_op Nat.add].
    change (Z.to_nat 1) with 1%nat.
    cbn [arg lookup list_lookup mbind Result_bind isArray asArray].
    rewrite Hsig. cbn [mapM mbind Result_bind].
    destruct (asBuffer sig) as [signature|e]; cbn [mbind Result_bind];
      [|done].
    cbn [length Z.of_nat Z.eqb Z.ltb Z.compare Pos.compare Pos.compare_cont
         orb Pos.of_succ_nat].
    by rewrite checkMultisigLoop_single.
  - intros rest Hstack. unfold CHECKMULTISIG, CHECKSIG. rewrite Hstack.
    eexists _, _. cbn. repeat split; reflexivity.
  - intros publicKey signature Hpkb Hsigb Hverify.
    unfold CHECKSIG_invoke, pureInvoke. cbn. rewrite Hpkb, Hsigb. cbn.
    destruct (verify _ _ _) as [[]|e]; done.
Qed.

(** ** One step of the engine *)

Lemma slice_from_1 {A} (x : A) (xs : list A) : slice (x :: xs) 1 None = xs.
Proof.
  unfold slice, clampIndex. cbn [default length].
  rewrite Nat2Z.inj_succ.
  destruct (Z.ltb_spec 1 0); [lia|].
  destruct (Z.ltb_spec (Z.succ (Z.of_nat (length xs))) 0); [lia|].
  rewrite Z.min_id, Z.min_l by lia.
  replace (Z.to_nat 1) with 1%nat by lia. cbn [drop].
  apply take_ge. lia.
Qed.

Lemma readCell_alloc (h : Heap) cell : readCell (h ++ [cell]) (length h) = cell.
Proof.
  unfold readCell. rewrite lookup_app_r by lia.
  by rewrite Nat.sub_diag.
Qed.

Lemma toNumber_inside context value :
  - MAX_SIZE ≤ value ≤ MAX_SIZE → toNumber context value = Ok value.
Proof.
  intros ?. unfold toNumber.
  destruct (Z.ltb_spec value (- MAX_SIZE)); [lia|].
  destruct (Z.ltb_spec MAX_SIZE value); [lia|done].
Qed.

(** A step of a free operation that takes from the main stack only. *)
Lemma applyOp_main world op args rest world' result :
  ExecutionContext.stack (Op.context op) = args ++ rest →
  Op.in_ op = Z.of_nat (length args) →
  Op.inAlt op = 0 →
  Op.fee op = 0 →
  0 ≤ ExecutionContext.gasLeft (Op.context op) →
  ExecutionContext.depth (Op.context op) + Op.invocation op
    ≤ MAX_INVOCATION_STACK_SIZE →
  Z.of_nat (length (ExecutionContext.stack (Op.context op)))
  + Z.of_nat (length (ExecutionContext.stackAlt (Op.context op)))
  + Op.out op + Op.outAlt op + Op.modify op + Op.modifyAlt op
    ≤ MAX_STACK_SIZE →
  Op.invoke op world (ExecutionContext.with_stack (Op.context op) rest)
    args []
  = Ok (world', result) →
  applyOp world op
  = Ok (world',
        ExecutionContext.with_stackAlt
          (ExecutionContext.with_stack (OpResult.context result)
             (reverse (default [] (OpResult.results result))
              ++ ExecutionContext.stack (OpResult.context result)))
          (reverse (default [] (OpResult.resultsAlt result))
           ++ ExecutionContext.stackAlt (OpResult.context result))).
Proof.
  intros Hstack Hin HinAlt Hfee Hgas Hdepth Hsize Hinvoke. unfold applyOp.
  rewrite Hstack, Hin, HinAlt, Hfee in *.
  rewrite length_app in *.
  destruct (Z.ltb_spec (Z.of_nat (length args + length rest))
              (Z.of_nat (length args))); [lia|].
  destruct (Z.ltb_spec
              (Z.of_nat (length (ExecutionContext.stackAlt (Op.context op))))
              0); [lia|].
  cbn [orb].
  destruct (Z.ltb_spec (ExecutionContext.gasLeft (Op.context op)) 0); [lia|].
  destruct (Z.ltb_spec MAX_INVOCATION_STACK_SIZE
              (ExecutionContext.depth (Op.context op) + Op.invocation op));
    [lia|].
  destruct (Z.ltb_spec MAX_STACK_SIZE
    (Z.of_nat (length args + length rest) +
     Z.of_nat (length (ExecutionContext.stackAlt (Op.context op))) +
     Op.out op + Op.outAlt op + Op.modify op + Op.modifyAlt op)); [lia|].
  rewrite Nat2Z.id, take_app_length, drop_app_length.
  change (Z.to_nat 0) with 0%nat. rewrite take_0, drop_0, Z.sub_0_r.
  replace (ExecutionContext.with_gasLeft _ _)
    with (ExecutionContext.with_stack (Op.context op) rest)
    by (by destruct (Op.context op)).
  by rewrite Hinvoke.
Qed.

(** C7.  On a stack holding [v1 .. vn] with the count [n] on top, [PACK]
    followed by [UNPACK] leaves [v1 .. vn] in their order with the integer
    [n] on top.  (A stack is written top first, so [v1 .. vn] with [vn] on
    top is [reverse vs].) *)
Theorem PACK_UNPACK_roundtrip world context countItem vs rest :
  let n := Z.of_nat (length vs) in
  let pc := ExecutionContext.pc context in
  0 ≤ pc →
  ExecutionContext.code context !! Z.to_nat pc = Some xc1%byte →
  ExecutionContext.code context !! Z.to_nat (pc + 1) = Some xc2%byte →
  asBigInteger countItem = Ok n →
  n ≤ MAX_SIZE →
  ExecutionContext.stack context = countItem :: reverse vs ++ rest →
  0 ≤ ExecutionContext.gasLeft context →
  ExecutionContext.depth context ≤ MAX_INVOCATION_STACK_SIZE →
  Z.of_nat (length (ExecutionContext.stack context))
  + Z.of_nat (length (ExecutionContext.stackAlt context)) + 1
  ≤ MAX_STACK_SIZE →
  ∃ world1 context1 world2 context2,
    step world context = Ok (world1, context1) ∧
    ExecutionContext.stack context1
    = ArrayStackItem (length (World.arrays world)) :: rest ∧
    readCell (World.arrays world1) (length (World.arrays world)) = reverse vs ∧
    step world1 context1 = Ok (world2, context2) ∧
    ExecutionContext.stack context2 = IntegerStackItem n :: reverse vs ++ rest ∧
    ExecutionContext.stackAlt context2 = ExecutionContext.stackAlt context ∧
    ExecutionContext.pc context2 = pc + 2.
Proof.
  intros n pc Hpc Hpack Hunpack Hcount Hmax Hstack Hgas Hdepth Hsize.
  assert (0 ≤ n) as Hn by (subst n; lia).
  rewrite Hstack in Hsize. cbn [length] in Hsize.
  rewrite length_app, length_reverse in Hsize.
  set (world1 :=
    World.with_arrays world (World.arrays world ++ [reverse vs])).
  set (context1 :=
    ExecutionContext.with_stackAlt
      (ExecutionContext.with_stack
         (ExecutionContext.with_stack
            (ExecutionContext.with_pc context (pc + 1)) rest)
         (ArrayStackItem (length (World.arrays world)) :: rest))
      (ExecutionContext.stackAlt context)).
  assert (step world context = Ok (world1, context1)) as Hstep1.
  { unfold step.
    rewrite (lookupOp_known _ _ _ PACK Hpc Hpack eq_refl).
    unfold PACK. cbn [ExecutionContext.stack ExecutionContext.with_pc].
    rewrite Hstack.
    cbn [lookup list_lookup mbind Result_bind]. rewrite Hcount.
    cbn [mbind Result_bind].
    rewrite toNumber_inside by lia. cbn [mbind Result_bind].
    destruct (Z.ltb_spec (1 + n) 0) as [|_]; [lia|].
    unfold createOp. cbn [mbind Result_bind].
    erewrite (applyOp_main _ _ (countItem :: reverse vs) rest); cycle 1.
    - cbn. by rewrite Hstack.
    - cbn. rewrite length_reverse. lia.
    - reflexivity.
    - reflexivity.
    - done.
    - cbn. lia.
    - cbn. rewrite Hstack. cbn. rewrite length_app, length_reverse. lia.
    - cbn [Op.invoke]. unfold PACK_invoke, alloc.
      rewrite slice_from_1. reflexivity.
    - reflexivity. }
  set (context2 :=
    ExecutionContext.with_stackAlt
      (ExecutionContext.with_stack
         (ExecutionContext.with_stack
            (ExecutionContext.with_pc context1 (pc + 1 + 1)) rest)
         (IntegerStackItem n :: reverse vs ++ rest))
      (ExecutionContext.stackAlt context)).
  assert (step world1 context1 = Ok (world1, context2)) as Hstep2.
  { unfold step.
    rewrite (lookupOp_known _ _ xc2%byte UNPACK); [| |done|done]; cycle 1.
    { cbn. subst pc. lia. }
    unfold UNPACK.
    cbn [ExecutionContext.stack ExecutionContext.with_pc context1
         ExecutionContext.with_stackAlt
         ExecutionContext.with_stack lookup list_lookup mbind Result_bind
         asArray World.arrays World.with_arrays world1].
    rewrite readCell_alloc, length_reverse. fold n.
    unfold createOp. cbn [mbind Result_bind].
    erewrite (applyOp_main _ _ [ArrayStackItem _] rest); cycle 1.
    - reflexivity.
    - reflexivity.
    - reflexivity.
    - reflexivity.
    - done.
    - cbn. lia.
    - cbn. lia.
    - cbn [Op.invoke]. unfold UNPACK_invoke, world1.
      cbn [arg lookup list_lookup mbind Result_bind asArray fmap Result_fmap
           World.arrays World.with_arrays].
      rewrite readCell_alloc, reverse_involutive, length_reverse.
      reflexivity.
    - cbn -[reverse]. rewrite reverse_app, reverse_singleton. reflexivity. }
  exists world1, context1, world1, context2.
  split; [done|]. split; [done|]. split; [apply readCell_alloc|].
  split; [done|]. split; [done|]. split; [done|]. cbn. subst pc. lia.
Qed.

(** ** Arrays and structs *)

Lemma readCell_app_l (h ext : Heap) r :
  (r < length h)%nat → readCell (h ++ ext) r = readCell h r.
Proof. intros ?. unfold readCell. by rewrite lookup_app_l. Qed.

Lemma readCell_closed h r : closed h → Forall (structIn h) (readCell h r).
Proof.
  intros Hclosed. unfold readCell.
  destruct (h !! r) as [cell|] eqn:Hr; cbn; [by eapply Hclosed|constructor].
Qed.

Lemma structIn_app h ext item : structIn h item → structIn (h ++ ext) item.
Proof. intros Hin r ->. rewrite length_app. specialize (Hin r eq_refl). lia. Qed.

Lemma view_app depth h ext item :
  closed h → structIn h item → view depth (h ++ ext) item = view depth h item.
Proof.
  intros Hclosed. revert item.
  induction depth as [|depth IH]; intros item Hin; destruct item; try done.
  cbn. rewrite readCell_app_l by (by apply Hin). f_equal.
  apply Forall_fmap_ext_1.
  eapply Forall_impl; [apply readCell_closed, Hclosed|]. cbn. auto.
Qed.

Lemma copied_refl h : closed h → copied h h.
Proof.
  intros Hclosed. split; [exists []; by rewrite app_nil_r|done|].
  intros r cell Hr Hle. apply lookup_lt_Some in Hr. lia.
Qed.

Lemma copied_length h h' : copied h h' → (length h ≤ length h')%nat.
Proof. intros [[ext ->] _ _]. rewrite length_app. lia. Qed.

Lemma copied_trans h1 h2 h3 : copied h1 h2 → copied h2 h3 → copied h1 h3.
Proof.
  intros [[ext1 ->] Hc1 Hf1] [[ext2 ->] Hc2 Hf2].
  split; [exists (ext1 ++ ext2); by rewrite app_assoc|done|].
  intros r cell Hr Hle.
  destruct (decide (r < length (h1 ++ ext1))%nat) as [Hlt|Hge].
  - rewrite lookup_app_l in Hr by done. by eapply Hf1.
  - eapply Forall_impl; [eapply Hf2; [done|lia]|].
    cbn. intros item Hitem x ->. specialize (Hitem x eq_refl).
    rewrite length_app in Hitem. lia.
Qed.

Lemma copied_view depth h h' item :
  closed h → copied h h' → structIn h item →
  view depth h' item = view depth h item.
Proof. intros Hclosed [[ext ->] _ _] Hin. by apply view_app. Qed.

Lemma copied_alloc h h1 cell :
  copied h h1 →
  structsWithin (length h) (length h1) cell →
  copied h (h1 ++ [cell]).
Proof.
  intros [[ext ->] Hclosed Hfresh] Hcell. split.
  - exists (ext ++ [cell]). by rewrite app_assoc.
  - intros r c Hr.
    destruct (decide (r < length (h ++ ext))%nat) as [Hlt|Hge].
    + rewrite lookup_app_l in Hr by done.
      eapply Forall_impl; [by eapply Hclosed|]. intros; by apply structIn_app.
    + rewrite lookup_app_r in Hr by lia.
      destruct (r - length (h ++ ext))%nat; [|done]. injection Hr as <-.
      eapply Forall_impl; [exact Hcell|]. cbn. intros item Hitem x ->.
      specialize (Hitem x eq_refl). rewrite length_app. cbn. lia.
  - intros r c Hr Hle.
    destruct (decide (r < length (h ++ ext))%nat) as [Hlt|Hge].
    + rewrite lookup_app_l in Hr by done. by eapply Hfresh.
    + rewrite lookup_app_r in Hr by lia.
      destruct (r - length (h ++ ext))%nat; [|done]. injection Hr as <-.
      eapply Forall_impl; [exact Hcell|]. cbn. intros item Hitem x ->.
      specialize (Hitem x eq_refl). lia.
Qed.

Lemma structsWithin_structIn lo h items :
  structsWithin lo (length h) items → Forall (structIn h) items.
Proof.
  intros Hitems. eapply Forall_impl; [exact Hitems|].
  intros item Hitem x ->. specialize (Hitem x eq_refl). cbn in Hitem. lia.
Qed.

Section clone.
Variable cloneRec : Heap → Ref → Result (Heap * Ref).
Hypothesis cloneRec_spec : ∀ h r h' r',
  cloneRec h r = Ok (h', r') → closed h → (r < length h)%nat →
  copied h h' ∧ (length h ≤ r' < length h')%nat ∧
  ∀ depth,
    view depth h' (StructStackItem r') = view depth h (StructStackItem r).

Lemma cloneItems_spec items : ∀ h h' items',
  cloneItems cloneRec h items = Ok (h', items') →
  closed h → Forall (structIn h) items →
  copied h h' ∧ structsWithin (length h) (length h') items' ∧
  ∀ depth, view depth h' <$> items' = view depth h <$> items.
Proof.
  induction items as [|value rest IH]; intros h h' items' Hclone Hclosed Hin.
  { injection Hclone as <- <-.
    split; [by apply copied_refl|]. split; [constructor|done]. }
  apply Forall_cons in Hin as [Hvalue Hrest]. cbn in Hclone.
  assert (∃ h1 value',
    (match value with
     | StructStackItem r =>
         cloneRec h r ≫= λ '(h, r'), Ok (h, StructStackItem r')
     | _ => Ok (h, value)
     end) = Ok (h1, value') ∧
    copied h h1 ∧ structsWithin (length h) (length h1) [value'] ∧
    ∀ depth, view depth h1 value' = view depth h value)
    as (h1 & value' & Hfirst & Hcopied1 & Hwithin1 & Hview1).
  { destruct value;
      try (eexists _, _; split; [reflexivity|];
           split; [by apply copied_refl|];
           split; [by unfold structsWithin; rewrite Forall_singleton|done]).
    destruct (cloneRec h value) as [[h1 r']|e] eqn:Hrec;
      [|by cbn in Hclone].
    destruct (cloneRec_spec _ _ _ _ Hrec Hclosed (Hvalue _ eq_refl))
      as (Hcopied1 & Hr' & Hview1).
    eexists _, _. split; [reflexivity|]. split; [done|]. split; [|done].
    unfold structsWithin. rewrite Forall_singleton. by intros x [= <-]. }
  rewrite Hfirst in Hclone. cbn in Hclone.
  destruct (cloneItems cloneRec h1 rest) as [[h2 rest']|e] eqn:Hrest';
    cbn in Hclone; [|done].
  injection Hclone as <- <-.
  pose proof Hcopied1 as [[ext1 ->] Hclosed1 Hfresh1].
  destruct (IH _ _ _ Hrest' Hclosed1) as (Hcopied2 & Hwithin2 & Hview2).
  { eapply Forall_impl; [exact Hrest|]. intros; by apply structIn_app. }
  pose proof (copied_length _ _ Hcopied1).
  pose proof (copied_length _ _ Hcopied2).
  split; [by eapply copied_trans|]. split.
  - apply Forall_cons. split.
    + unfold structsWithin in Hwithin1. rewrite Forall_singleton in Hwithin1. intros x ->.
      specialize (Hwithin1 x eq_refl). lia.
    + eapply Forall_impl; [exact Hwithin2|]. cbn. intros item Hitem x ->.
      specialize (Hitem x eq_refl). lia.
  - intros depth. cbn. f_equal.
    + rewrite <- Hview1. apply copied_view; [done..|].
      unfold structsWithin in Hwithin1. rewrite Forall_singleton in Hwithin1. intros x ->.
      specialize (Hwithin1 x eq_refl). lia.
    + rewrite Hview2. apply Forall_fmap_ext_1.
      eapply Forall_impl; [exact Hrest|]. intros item Hitem.
      by apply view_app.
Qed.
End clone.

Lemma cloneFrom_spec nesting : ∀ h r h' r',
  cloneFrom nesting h r = Ok (h', r') → closed h → (r < length h)%nat →
  copied h h' ∧ (length h ≤ r' < length h')%nat ∧
  ∀ depth,
    view depth h' (StructStackItem r') = view depth h (StructStackItem r).
Proof.
  induction nesting as [|nesting IH]; intros h r h' r' Hclone Hclosed Hr;
    [done|].
  cbn in Hclone.
  destruct (cloneItems (cloneFrom nesting) h (readCell h r))
    as [[h1 newItems]|e] eqn:Hitems; cbn in Hclone; [|done].
  injection Hclone as <- <-.
  destruct (cloneItems_spec _ IH _ _ _ _ Hitems Hclosed
              (readCell_closed _ _ Hclosed))
    as (Hcopied & Hwithin & Hview).
  pose proof (copied_length _ _ Hcopied).
  split; [by apply copied_alloc|]. split; [rewrite length_app; cbn; lia|].
  intros [|depth]; [done|]. cbn. rewrite readCell_alloc. f_equal.
  rewrite <- Hview. apply Forall_fmap_ext_1.
  eapply Forall_impl; [exact (structsWithin_structIn _ _ _ Hwithin)|].
  intros item Hitem. apply view_app; [apply Hcopied|done].
Qed.

Lemma writeCell_lookup_ne (h : Heap) y index item r :
  r ≠ y → writeCell h y index item !! r = h !! r.
Proof. intros ?. unfold writeCell. by rewrite list_lookup_insert_ne. Qed.

Lemma writeCell_length (h : Heap) y index item :
  length (writeCell h y index item) = length h.
Proof. unfold writeCell. by rewrite length_insert. Qed.







(** The copy ends when structs do not nest without end. *)
Lemma nestedWithin_app h ext depth : ∀ r,
  closed h → (r < length h)%nat →
  nestedWithin h depth r → nestedWithin (h ++ ext) depth r.
Proof.
  induction depth as [|depth IH]; intros r Hclosed Hr Hnested;
    inversion Hnested as [? ? Hchildren]; subst.
  constructor. intros x Hx. rewrite readCell_app_l in Hx by done.
  apply IH; [done| |by apply Hchildren].
  pose proof (readCell_closed h r Hclosed) as Hcell.
  rewrite Forall_forall in Hcell. by apply (Hcell _ Hx).
Qed.

Section cloneTotal.
Variable depth : nat.
Variable cloneRec : Heap → Ref → Result (Heap * Ref).
Hypothesis cloneRec_spec : ∀ h r h' r',
  cloneRec h r = Ok (h', r') → closed h → (r < length h)%nat →
  copied h h' ∧ (length h ≤ r' < length h')%nat ∧
  ∀ depth,
    view depth h' (StructStackItem r') = view depth h (StructStackItem r).
Hypothesis cloneRec_total : ∀ h r,
  closed h → (r < length h)%nat → nestedWithin h depth r →
  ∃ h' r', cloneRec h r = Ok (h', r').

Lemma cloneItems_total items : ∀ h,
  closed h →
  Forall (λ item, ∀ x, item = StructStackItem x →
                       (x < length h)%nat ∧ nestedWithin h depth x) items →
  ∃ h' items', cloneItems cloneRec h items = Ok (h', items').
Proof.
  induction items as [|value rest IH]; intros h Hclosed Hitems;
    [by eexists _, _|].
  apply Forall_cons in Hitems as [Hvalue Hrest]. cbn.
  assert (∃ h1 value',
    (match value with
     | StructStackItem r =>
         cloneRec h r ≫= λ '(h, r'), Ok (h, StructStackItem r')
     | _ => Ok (h, value)
     end) = Ok (h1, value') ∧ copied h h1)
    as (h1 & value' & -> & Hcopied).
  { destruct value;
      try (eexists _, _; split; [reflexivity|by apply copied_refl]).
    destruct (Hvalue _ eq_refl) as [Hlt Hnested].
    destruct (cloneRec_total h value Hclosed Hlt Hnested)
      as (h1 & r' & Hrec).
    rewrite Hrec. eexists _, _. split; [reflexivity|].
    by apply (cloneRec_spec _ _ _ _ Hrec). }
  cbn. pose proof Hcopied as [[ext ->] Hclosed1 _].
  destruct (IH (h ++ ext) Hclosed1) as (h2 & rest' & ->).
  { eapply Forall_impl; [exact Hrest|]. cbn. intros item Hitem x ->.
    destruct (Hitem x eq_refl) as [Hlt Hnested].
    split; [rewrite length_app; lia|by apply nestedWithin_app]. }
  by eexists _, _.
Qed.
End cloneTotal.

Lemma cloneFrom_total depth : ∀ h r,
  closed h → (r < length h)%nat → nestedWithin h depth r →
  ∃ h' r', cloneFrom depth h r = Ok (h', r').
Proof.
  induction depth as [|depth IH]; intros h r Hclosed Hr Hnested;
    inversion Hnested as [? ? Hchildren]; subst.
  cbn.
  destruct (cloneItems_total depth (cloneFrom depth) (cloneFrom_spec depth)
              IH (readCell h r) h Hclosed)
    as (h1 & newItems & ->).
  { pose proof (readCell_closed h r Hclosed) as Hcell.
    rewrite Forall_forall in Hcell |- *. intros item Hitem x ->.
    split; [by apply (Hcell _ Hitem)|by apply Hchildren]. }
  by eexists _, _.
Qed.

(** [SETITEM] of a struct succeeds on a closed store when the index is in
    the array and the structs nested in the struct given do not outnumber
    the cells of the store. *)
Lemma SETITEM_struct_succeeds world context s indexItem destItem index dest :
  let h := World.arrays world in
  asBigInteger indexItem = Ok index →
  - MAX_SIZE ≤ index ≤ MAX_SIZE →
  asArray destItem = Ok dest →
  closed h → (s < length h)%nat → (dest < length h)%nat →
  nestedWithin h (S (length h)) s →
  0 ≤ index < Z.of_nat (length (readCell h dest)) →
  ∃ world' result,
    SETITEM_invoke world context [StructStackItem s; indexItem; destItem] []
    = Ok (world', result).
Proof.
  cbv zeta. intros Hindex Hmax Hdest Hclosed Hs Hdest_lt Hnested Hrange.
  unfold SETITEM_invoke, clone.
  cbn [arg lookup list_lookup mbind Result_bind].
  destruct (cloneFrom_total _ _ _ Hclosed Hs Hnested) as (h1 & c & Hclone).
  rewrite Hclone. cbn. rewrite Hindex. cbn.
  rewrite toNumber_inside by done. cbn. rewrite Hdest. cbn.
  destruct (cloneFrom_spec _ _ _ _ _ Hclone Hclosed Hs)
    as ([[ext ->] _ _] & _ & _).
  rewrite readCell_app_l by done.
  destruct (Z.ltb_spec index 0); [lia|].
  destruct (Z.leb_spec (Z.of_nat (length (readCell (World.arrays world) dest)))
              index); [lia|].
  by eexists _, _.
Qed.

(** ** System calls *)

(** C8.  [Neo.Storage.Get] faults with [ContractNoStorageError] when the
    contract of the storage context has no storage; when it has, the call
    results in the value stored under the key, and in the empty buffer when
    nothing is stored under it. *)
Theorem Storage_Get_semantics world context contextItem keyItem hash contract :
  toStorageContext context contextItem = Ok hash →
  Blockchain.contract (World.blockchain world) !! hash = Some contract →
  (Contract.hasStorage contract = false →
   Neo_Storage_Get_invoke world context [contextItem; keyItem] []
   = Throw (ContractNoStorageError hash)) ∧
  (Contract.hasStorage contract = true →
   ∀ key, asBuffer keyItem = Ok key →
     (∀ item,
        Blockchain.storageItem (World.blockchain world) !! (hash, key)
          = Some item →
        Neo_Storage_Get_invoke world context [contextItem; keyItem] []
        = Ok (world,
              OpResult.mk context
                (Some [BufferStackItem (StorageItem.value item)]) None)) ∧
     (Blockchain.storageItem (World.blockchain world) !! (hash, key) = None →
      Neo_Storage_Get_invoke world context [contextItem; keyItem] []
      = Ok (world, OpResult.mk context (Some [BufferStackItem []]) None))).
Proof.
  intros Hctx Hcontract.
  unfold Neo_Storage_Get_invoke, checkStorage, Blockchain.get,
    Blockchain.tryGet.
  cbn. rewrite Hctx. cbn. rewrite Hcontract. cbn. split.
  - by intros ->.
  - intros -> key Hkey. cbn. rewrite Hkey. cbn.
    split; [intros item ->|intros ->]; done.
Qed.

Lemma createContract_context world context args world' contract created :
  createContract world context args = Ok (world', (contract, created)) →
  ∀ script, arg args 0 ≫= asBuffer = Ok script →
  ∀ existing,
    Blockchain.contract (World.blockchain world) !! hash160 script
      = Some existing →
    contract = existing ∧ world' = world ∧ created = false.
Proof.
  unfold createContract. intros Hcreate script Hscript existing Hexisting.
  rewrite Hscript in Hcreate. cbn in Hcreate.
  repeat match type of Hcreate with
         | (?m ≫= _) = Ok _ =>
             destruct m; cbn in Hcreate; [|discriminate]
         end.
  unfold Blockchain.tryGet in Hcreate. rewrite Hexisting in Hcreate.
  by injection Hcreate as -> -> ->.
Qed.

(** C9.  After [Neo.Contract.Create] has completed, the context has
    [createdContracts[contract.hashHex] = scriptHash], also when the
    contract was in the ledger before and nothing was created; then
    [Neo.Contract.GetStorageContext] on that contract succeeds. *)
Theorem Contract_Create_records_creator world context args world' result :
  Neo_Contract_Create_invoke world context args [] = Ok (world', result) →
  ∃ contract,
    OpResult.results result = Some [ContractStackItem contract] ∧
    ExecutionContext.createdContracts (OpResult.context result)
      !! Contract_hashHex contract
    = Some (ExecutionContext.scriptHash context) ∧
    ExecutionContext.scriptHash (OpResult.context result)
    = ExecutionContext.scriptHash context ∧
    (* also when the contract was there before and nothing was created *)
    (∀ script existing,
       arg args 0 ≫= asBuffer = Ok script →
       Blockchain.contract (World.blockchain world) !! hash160 script
         = Some existing →
       contract = existing ∧ world' = world) ∧
    Neo_Contract_GetStorageContext_invoke world' (OpResult.context result)
      [ContractStackItem contract] []
    = Ok (world',
          OpResult.mk (OpResult.context result)
            (Some [StorageContextStackItem (Contract_hash contract)]) None).
Proof.
  unfold Neo_Contract_Create_invoke. intros Hcreate.
  destruct (createContract world context args)
    as [[world1 [contract created]]|e] eqn:Hcc; cbn in Hcreate; [|done].
  injection Hcreate as <- <-. exists contract. cbn.
  split; [done|]. split; [by rewrite lookup_insert_eq|]. split; [done|]. split.
  - intros script existing Hscript Hexisting.
    by destruct (createContract_context _ _ _ _ _ _ Hcc script Hscript
                   existing Hexisting) as (-> & -> & _).
  - unfold Neo_Contract_GetStorageContext_invoke, pureInvoke. cbn.
    rewrite lookup_insert_eq. cbn. unfold uInt160Equal.
    by rewrite bool_decide_eq_true_2.
Qed.

Lemma mapM_asECPoint_error items e :
  mapM asECPoint items = Throw e → e = InvalidTypeError.
Proof.
  induction items as [|item items IH]; [done|]. cbn.
  destruct item; cbn; try by intros [= <-].
  destruct (mapM asECPoint items); cbn; [done|].
  intros [= <-]. by apply IH.
Qed.

(** Whatever it is given, [SetVotes] does not fault on the witnesses. *)
Lemma SetVotes_never_BadWitnessCheckError world context args argsAlt :
  Neo_Account_SetVotes_invoke world context args argsAlt
  ≠ Throw BadWitnessCheckError.
Proof.
  unfold Neo_Account_SetVotes_invoke, arg, Blockchain.get.
  destruct (args !! 0%nat) as [[]|]; cbn; try done.
  destruct (args !! 1%nat) as [[]|]; cbn; try done.
  all: destruct (mapM asECPoint _) as [votes|e] eqn:Hvotes; cbn;
    [|apply mapM_asECPoint_error in Hvotes as ->; done].
  all: destruct (_ <? _); [done|].
  all: destruct (_ !! _) as [account|]; cbn; [|done].
  all: destruct (Account.isFrozen account); [done|].
  all: destruct (_ && _); [done|]. all: done.
Qed.

(** C3.  [Neo.Account.SetVotes] tests the promise [checkWitness] returns,
    not what it resolves to: with at most 1024 votes, an account that is not
    frozen and a balance that allows the votes, the votes are stored
    whatever the witnesses of the script container are, and no
    [BadWitnessCheckError] is thrown. *)
Theorem SetVotes_never_checks_witness world context accountItem votesRef
    votes account :
  readCell (World.arrays world) votesRef = ECPointStackItem <$> votes →
  Z.of_nat (length votes) ≤ MAX_VOTES →
  Blockchain.account (World.blockchain world) !! Account.hash accountItem
    = Some account →
  Account.isFrozen account = false →
  (default 0
     (Account.balances account
        !! Blockchain.governingToken_hashHex (World.blockchain world)) = 0 →
   votes = []) →
  let newAccount :=
    Account.update account (Account.mkUpdate None (Some votes) None) in
  let stored :=
    <[Account.hash account := newAccount]>
      (Blockchain.account (World.blockchain world)) in
  Neo_Account_SetVotes_invoke world context
    [AccountStackItem accountItem; ArrayStackItem votesRef] []
  = Ok (World.with_blockchain world
          (Blockchain.with_account (World.blockchain world)
             (if Account.isDeletable newAccount
              then delete (Account.hash accountItem) stored
              else stored)),
        OpResult.mk context None None).
Proof.
  intros Hcell Hmax Haccount Hfrozen Hbalance newAccount stored.
  unfold Neo_Account_SetVotes_invoke. cbn. rewrite Hcell.
  assert (mapM asECPoint (ECPointStackItem <$> votes) = Ok votes) as ->.
  { clear. induction votes as [|v votes IH]; [done|].
    cbn. by rewrite IH. }
  cbn. unfold Blockchain.get. rewrite Haccount. cbn.
  destruct (Z.ltb_spec MAX_VOTES (Z.of_nat (length votes))); [lia|].
  rewrite Hfrozen.
  destruct (_ && _) eqn:Hguard.
  { apply andb_prop in Hguard as [Hzero%Z.eqb_eq Hsome%Z.ltb_lt].
    rewrite (Hbalance Hzero) in Hsome. cbn in Hsome. lia. }
  cbn. subst newAccount stored.
  by destruct (Account.isDeletable _).
Qed.

Lemma GetBalance_short_args world context args argsAlt :
  (length args ≤ 1)%nat →
  ∃ e, Neo_Account_GetBalance_invoke world context args argsAlt = Throw e.
Proof.
  intros Hlen. unfold Neo_Account_GetBalance_invoke.
  destruct args as [|a [|? ?]]; cbn in *; [by eexists| |lia].
  destruct (asAccount a) as [account|e]; cbn; [|by eexists].
  destruct (Blockchain.get _ _) as [accountState|e]; cbn; by eexists.
Qed.

(** C10.  [Neo.Account.GetBalance] is declared with [in: 1] and reads
    [args[1]]: handed one argument, as a step of the engine hands it, it
    always faults and never results in a balance. *)
Theorem GetBalance_always_faults world context :
  ∃ op, Neo_Account_GetBalance world context = Ok op ∧
     Op.in_ op = 1 ∧
     Op.invoke op = Neo_Account_GetBalance_invoke ∧
     (∀ world' context' a argsAlt,
        ∃ e, Op.invoke op world' context' [a] argsAlt = Throw e) ∧
     ∃ e, applyOp world op = Throw e.
Proof.
  eexists. split; [reflexivity|]. split; [reflexivity|].
  split; [reflexivity|]. split.
  - intros world' context' a argsAlt.
    by apply (GetBalance_short_args world' context').
  - unfold applyOp.
    repeat match goal with
           | |- ∃ e, (if ?c then _ else _) = _ =>
               destruct c; [by eexists|]
           end.
    cbn [Op.invoke Op.in_ Op.inAlt Op.context].
    edestruct (GetBalance_short_args world) as [e ->]; [|by eexists].
    rewrite length_take. cbn. lia.
Qed.

End Properties.

(** * The properties at work on the sample platform *)

(** Scenario S1 of the specification: [PUSH2 PUSH3 ADD RET]. *)
Example scenario_S1 :
  ('(w, c) ← step (platform := Sample.platform) (Sample.world [])
               (Sample.context [x52; x53; x93; x66]%byte false []);
   '(w, c) ← step (platform := Sample.platform) w c;
   '(w, c) ← step (platform := Sample.platform) w c;
   '(w, c) ← step (platform := Sample.platform) w c;
   Ok (ExecutionContext.stack c, ExecutionContext.done c))
  = Ok ([IntegerStackItem 5], true).
Proof. vm_compute. reflexivity. Qed.

(** A push-only context decodes [NOP]. *)
Lemma lookupOp_pushOnly_not_enforced_witness :
  ExecutionContext.pushOnly (Sample.context [x61]%byte true []) = true ∧
  Op.name <$> lookupOp (platform := Sample.platform) (Sample.world [])
                (Sample.context [x61]%byte true [])
  = Ok "NOP"%string.
Proof.
  split; [reflexivity|].
  rewrite (lookupOp_pushOnly_not_enforced (platform := Sample.platform)
             (Sample.world []) (Sample.context [x61]%byte true [])
             x61%byte NOP);
    [reflexivity|reflexivity|cbn; lia|reflexivity|reflexivity
    |vm_compute; discriminate|reflexivity].
Defined.

(** [PUSH1 JMPIF +5 PUSH7 RET PUSH9 RET], about to decode the [JMPIF]. *)
Lemma jump_semantics_witness :
  let world := Sample.world [] in
  let context :=
    ExecutionContext.with_pc
      (Sample.context [x51; x63; x05; x00; x57; x66; x59; x66]%byte false
         [IntegerStackItem 1]) 1 in
  ∃ op,
    lookupOp (platform := Sample.platform) world context = Ok op ∧
    Op.name op = "JMPIF"%string ∧ Op.in_ op = 1 ∧
    ExecutionContext.pc ∘ OpResult.context ∘ snd
      <$> Op.invoke op world (Op.context op) [IntegerStackItem 1] []
    = Ok 6 ∧
    ExecutionContext.pc ∘ OpResult.context ∘ snd
      <$> Op.invoke op world (Op.context op) [IntegerStackItem 0] []
    = Ok 4.
Proof.
  intros world context.
  destruct (jump_semantics (platform := Sample.platform) world context
              x63%byte (Some true) "JMPIF" 5)
    as (op & Hop & Hname & Hcontext & Hin & _ & _ & _ & _ & Hinside).
  - cbn; lia.
  - reflexivity.
  - right; left.
  - reflexivity.
  - exists op. split; [exact Hop|]. split; [exact Hname|].
    split; [exact Hin|]. rewrite Hcontext.
    assert (0 ≤ 1 + 1 + 2 + 5 - 3 ≤ 8) as Hrange by lia.
    split.
    + rewrite (Hinside Hrange world (IntegerStackItem 1) [] [] true eq_refl).
      reflexivity.
    + rewrite (Hinside Hrange world (IntegerStackItem 0) [] [] false eq_refl).
      reflexivity.
Defined.

(** A valid and an invalid signature under the toy scheme. *)
Lemma CHECKSIG_agrees_with_single_CHECKMULTISIG_witness :
  let pk := BufferStackItem [x03]%byte in
  let good := BufferStackItem [x03; x2a]%byte in
  let bad := BufferStackItem [x03; x2b]%byte in
  let world := Sample.world [[pk]; [good]; [bad]] in
  let context := Sample.context [] false [] in
  CHECKMULTISIG_invoke (platform := Sample.platform) world context
    [ArrayStackItem 0%nat; ArrayStackItem 1%nat] []
  = Ok (world, OpResult.mk context (Some [BooleanStackItem true]) None) ∧
  CHECKMULTISIG_invoke (platform := Sample.platform) world context
    [ArrayStackItem 0%nat; ArrayStackItem 2%nat] []
  = Ok (world, OpResult.mk context (Some [BooleanStackItem false]) None).
Proof.
  intros pk good bad world context. split.
  - destruct (CHECKSIG_agrees_with_single_CHECKMULTISIG
                (platform := Sample.platform) world context pk good 0%nat 1%nat
                eq_refl eq_refl) as (-> & _ & _).
    reflexivity.
  - destruct (CHECKSIG_agrees_with_single_CHECKMULTISIG
                (platform := Sample.platform) world context pk bad 0%nat 2%nat
                eq_refl eq_refl) as (-> & _ & Hfalse).
    apply (Hfalse [x03]%byte [x03; x2b]%byte eq_refl eq_refl).
    vm_compute. discriminate.
Defined.

(** [7 8 2 PACK UNPACK] *)
Lemma PACK_UNPACK_roundtrip_witness :
  let context :=
    Sample.context [xc1; xc2]%byte false
      [IntegerStackItem 2; IntegerStackItem 8; IntegerStackItem 7] in
  ExecutionContext.stack ∘ snd
    <$> ('(w, c) ← step (platform := Sample.platform) (Sample.world [])
                     context;
         step (platform := Sample.platform) w c)
  = Ok [IntegerStackItem 2; IntegerStackItem 8; IntegerStackItem 7].
Proof.
  intros context.
  destruct (PACK_UNPACK_roundtrip (platform := Sample.platform)
              (Sample.world []) context (IntegerStackItem 2)
              [IntegerStackItem 7; IntegerStackItem 8] [])
    as (world1 & context1 & world2 & context2 & Hstep1 & _ & _ & Hstep2
        & Hstack & _ & _).
  - cbn; lia.
  - reflexivity.
  - reflexivity.
  - reflexivity.
  - vm_compute; discriminate.
  - reflexivity.
  - vm_compute; discriminate.
  - vm_compute; discriminate.
  - vm_compute; discriminate.
  - rewrite Hstep1. cbn. rewrite Hstep2. cbn. rewrite Hstack. reflexivity.
Defined.



(** A contract with storage, asked for a key it holds and for one it does
    not, and a contract without storage. *)
Lemma Storage_Get_semantics_witness :
  let world := Sample.world [] in
  let context := Sample.context [] false [] in
  Neo_Storage_Get_invoke (platform := Sample.platform) world context
    [StorageContextStackItem [x01]%byte; BufferStackItem [x6b]%byte] []
  = Ok (world,
        OpResult.mk context (Some [BufferStackItem [x76; x77]%byte]) None) ∧
  Neo_Storage_Get_invoke (platform := Sample.platform) world context
    [StorageContextStackItem [x01]%byte; BufferStackItem [x6c]%byte] []
  = Ok (world, OpResult.mk context (Some [BufferStackItem []]) None) ∧
  Neo_Storage_Get_invoke (platform := Sample.platform) world context
    [StorageContextStackItem [x02]%byte; BufferStackItem [x6b]%byte] []
  = Throw (ContractNoStorageError [x02]%byte).
Proof.
  intros world context. split; [|split].
  - destruct (Storage_Get_semantics (platform := Sample.platform) world
                context (StorageContextStackItem [x01]%byte)
                (BufferStackItem [x6b]%byte) [x01]%byte
                (Sample.contractWith [x01]%byte true) eq_refl eq_refl)
      as [_ Hstorage].
    destruct (Hstorage eq_refl [x6b]%byte eq_refl) as [Hfound _].
    apply (Hfound (StorageItem.mk [x01]%byte [x6b]%byte [x76; x77]%byte)).
    reflexivity.
  - destruct (Storage_Get_semantics (platform := Sample.platform) world
                context (StorageContextStackItem [x01]%byte)
                (BufferStackItem [x6c]%byte) [x01]%byte
                (Sample.contractWith [x01]%byte true) eq_refl eq_refl)
      as [_ Hstorage].
    destruct (Hstorage eq_refl [x6c]%byte eq_refl) as [_ Hmissing].
    apply Hmissing. reflexivity.
  - destruct (Storage_Get_semantics (platform := Sample.platform) world
                context (StorageContextStackItem [x02]%byte)
                (BufferStackItem [x6b]%byte) [x02]%byte
                (Sample.contractWith [x02]%byte false) eq_refl eq_refl)
      as [HnoStorage _].
    apply HnoStorage. reflexivity.
Defined.

(** [Create] for a script whose contract is in the ledger already. *)
Lemma Contract_Create_records_creator_witness :
  let world := Sample.world [] in
  let context := Sample.context [] false [] in
  let args :=
    [BufferStackItem [x01]%byte; BufferStackItem []; IntegerStackItem 0;
     BooleanStackItem true; BufferStackItem []; BufferStackItem [];
     BufferStackItem []; BufferStackItem []; BufferStackItem []] in
  let existing := Sample.contractWith [x01]%byte true in
  Blockchain.contract (World.blockchain world) !! [x01]%byte = Some existing ∧
  ∃ result,
    Neo_Contract_Create_invoke (platform := Sample.platform) world context
      args [] = Ok (world, result) ∧
    OpResult.results result = Some [ContractStackItem existing] ∧
    ExecutionContext.createdContracts (OpResult.context result)
      !! "0x01"%string = Some [xaa]%byte ∧
    isOk (Neo_Contract_GetStorageContext_invoke (platform := Sample.platform)
            world (OpResult.context result) [ContractStackItem existing] [])
    = true.
Proof.
  intros world context args existing. split; [reflexivity|].
  assert (∃ world' result,
            Neo_Contract_Create_invoke (platform := Sample.platform) world
              context args [] = Ok (world', result))
    as (world' & result & Hcreate) by (eexists _, _; reflexivity).
  destruct (Contract_Create_records_creator (platform := Sample.platform)
              world context args world' result Hcreate)
    as (contract & Hresults & Hcreated & _ & Hexisting & Hget).
  destruct (Hexisting [x01]%byte existing eq_refl eq_refl) as [-> ->].
  exists result. split; [exact Hcreate|]. split; [exact Hresults|].
  split; [exact Hcreated|]. by rewrite Hget.
Defined.

(** Votes set for an account whose hash no witness of the container
    carries. *)
Lemma SetVotes_never_checks_witness_witness :
  let world := Sample.world [[ECPointStackItem [x09]%byte]] in
  let context := Sample.context [] false [] in
  await (checkWitness world context [x0a]%byte) = Ok false ∧
  ∃ world',
    fst <$> Neo_Account_SetVotes_invoke world context
              [AccountStackItem Sample.account; ArrayStackItem 0%nat] []
    = Ok world' ∧
    Account.votes
      <$> Blockchain.account (World.blockchain world') !! [x0a]%byte
    = Some [[x09]%byte].
Proof.
  intros world context. split; [reflexivity|].
  eexists. split.
  - rewrite (SetVotes_never_checks_witness world context Sample.account 0%nat [[x09]%byte]
               Sample.account);
      [reflexivity|reflexivity|vm_compute; discriminate|reflexivity
      |reflexivity|vm_compute; discriminate].
  - vm_compute. reflexivity.
Defined.

(** A full stack takes [OVER] and ends above [MAX_STACK_SIZE]. *)
Example OVER_overflows_the_stack :
  (length ∘ ExecutionContext.stack ∘ snd)
    <$> step (platform := Sample.platform) (Sample.world [])
          (Sample.context [x78]%byte false
             (replicate 2048 (IntegerStackItem 0)))
  = Ok 2049%nat.
Proof. vm_compute. reflexivity. Qed.

(** * Further properties

    Properties of the operations and system calls beyond the claims above,
    each read off the source. *)

Section MoreProperties.
Context {platform : Platform}.

(** ** [slice] on positions inside the array *)

Lemma slice_take {A} (xs : list A) n :
  0 ≤ n → slice xs 0 (Some n) = take (Z.to_nat n) xs.
Proof.
  intros Hn. unfold slice, clampIndex. cbn [default from_option id].
  change (0 <? 0) with false. cbn match.
  destruct (Z.ltb_spec n 0); [lia|].
  rewrite (Z.min_l 0) by lia. rewrite Z.sub_0_r. change (Z.to_nat 0) with 0%nat.
  rewrite drop_0.
  destruct (Z.le_ge_cases n (Z.of_nat (length xs))).
  - by rewrite Z.min_l by lia.
  - rewrite Z.min_r by lia. rewrite Nat2Z.id.
    rewrite !take_ge by lia. done.
Qed.

Lemma slice_drop {A} (xs : list A) n :
  0 ≤ n → slice xs n None = drop (Z.to_nat n) xs.
Proof.
  intros Hn. unfold slice, clampIndex. cbn [default from_option id].
  destruct (Z.ltb_spec n 0); [lia|].
  destruct (Z.ltb_spec (Z.of_nat (length xs)) 0); [lia|].
  rewrite Z.min_id.
  destruct (Z.le_ge_cases n (Z.of_nat (length xs))).
  - rewrite Z.min_l by lia. apply take_ge. rewrite length_drop. lia.
  - rewrite Z.min_r by lia. rewrite !drop_ge by lia. by rewrite take_nil.
Qed.

Lemma slice_take_drop {A} (xs : list A) a b :
  0 ≤ a → 0 ≤ b →
  slice xs a (Some b) = take (Z.to_nat (b - a)) (drop (Z.to_nat a) xs).
Proof.
  intros Ha Hb. unfold slice, clampIndex. cbn [default from_option id].
  destruct (Z.ltb_spec a 0); [lia|]. destruct (Z.ltb_spec b 0); [lia|].
  set (len := Z.of_nat (length xs)).
  destruct (Z.le_ge_cases a len).
  - rewrite (Z.min_l a) by lia.
    destruct (Z.le_ge_cases b len).
    + by rewrite Z.min_l by lia.
    + rewrite Z.min_r by lia.
      rewrite !take_ge; [done|rewrite length_drop; lia..].
  - rewrite (Z.min_r a) by lia.
    rewrite !drop_ge by lia. by rewrite !take_nil.
Qed.

Lemma slice_last {A} (xs : list A) count :
  0 ≤ count ≤ Z.of_nat (length xs) →
  slice xs (- count) None
  = if count =? 0 then xs else drop (length xs - Z.to_nat count) xs.
Proof.
  intros Hcount. destruct (Z.eqb_spec count 0) as [->|Hpos].
  - change (- 0) with 0. by rewrite slice_drop.
  - unfold slice, clampIndex. cbn [default from_option id].
    destruct (Z.ltb_spec (- count) 0); [|lia].
    destruct (Z.ltb_spec (Z.of_nat (length xs)) 0); [lia|].
    rewrite Z.min_id, Z.max_l by lia.
    replace (Z.to_nat (Z.of_nat (length xs) + - count))
      with (length xs - Z.to_nat count)%nat by lia.
    apply take_ge. rewrite length_drop. lia.
Qed.

(** ** The stack: [XDROP], [PICK], [ROLL], [XSWAP], [XTUCK] *)

Lemma count_inside context countItem n :
  asBigInteger countItem = Ok n →
  - MAX_SIZE ≤ n ≤ MAX_SIZE →
  liftResult ((arg [countItem] 0 ≫= asBigInteger) ≫= toNumber context) = Return n.
Proof.
  intros Hcount Hn. cbn [arg lookup list_lookup mbind Result_bind].
  rewrite Hcount. cbn [mbind Result_bind]. by rewrite toNumber_inside.
Qed.

Lemma itemAt_lookup (xs : list StackItem) n :
  0 ≤ n → itemAt xs n = xs !! Z.to_nat n.
Proof. intros Hn. unfold itemAt. by destruct (Z.ltb_spec n 0); [lia|]. Qed.

(** X1.  [XDROP] takes the count [n] and removes the item at index [n] of
    the stack below it, the top being index 0.  With [n] at or past the
    depth of the stack it removes nothing and does not fault, although its
    descriptor announces one item less ([modify: -1]). *)
Theorem XDROP_deletes_item_n world context :
  ∃ op,
    XDROP world context = Ok op ∧ Op.in_ op = 1 ∧ Op.modify op = -1 ∧
    ∀ w c item n,
      asBigInteger item = Ok n → 0 ≤ n ≤ MAX_SIZE →
      let stack := ExecutionContext.stack c in
      Op.invoke op w c [item] []
      = Ok (w, OpResult.mk
                 (ExecutionContext.with_stack c (delete (Z.to_nat n) stack))
                 None None) ∧
      (n < Z.of_nat (length stack) →
       S (length (delete (Z.to_nat n) stack)) = length stack) ∧
      (Z.of_nat (length stack) ≤ n → delete (Z.to_nat n) stack = stack).
Proof.
  eexists. split; [reflexivity|]. split; [reflexivity|]. split; [reflexivity|].
  intros w c item n Hitem Hn stack. split; [|split].
  - cbn [Op.invoke]. unfold pureInvoke.
    cbn [arg lookup list_lookup mbind Result_bind]. rewrite Hitem.
    cbn [mbind Result_bind]. rewrite toNumber_inside by lia.
    cbn [mbind Result_bind].
    destruct (Z.ltb_spec n 0); [lia|].
    rewrite slice_take, slice_drop by lia.
    replace (Z.to_nat (n + 1)) with (S (Z.to_nat n)) by lia.
    by rewrite <- delete_take_drop.
  - intros Hlen.
    destruct (lookup_lt_is_Some_2 stack (Z.to_nat n)) as [x Hx]; [lia|].
    rewrite length_delete by eauto.
    apply lookup_lt_Some in Hx. lia.
  - intros Hlen. rewrite delete_take_drop.
    rewrite take_ge, drop_ge by lia. by rewrite app_nil_r.
Qed.

(** X2.  [ROLL] hands back what [PICK] hands back and leaves the stack
    [XDROP] leaves: for a count [n] inside the stack, the item at index [n]
    as the result and the stack without it, so that nothing is lost and
    nothing is added. *)
Theorem ROLL_is_PICK_with_XDROP world context countItem n :
  asBigInteger countItem = Ok n →
  0 ≤ n ≤ MAX_SIZE →
  let stack := ExecutionContext.stack context in
  ∃ xdrop,
    XDROP world context = Ok xdrop ∧
    Op.invoke xdrop world context [countItem] []
    = Ok (world,
          OpResult.mk
            (ExecutionContext.with_stack context (delete (Z.to_nat n) stack))
            None None) ∧
    PICK_invoke context [countItem] = Return (stack !! Z.to_nat n) ∧
    ROLL_invoke context [countItem]
    = Return (delete (Z.to_nat n) stack, stack !! Z.to_nat n) ∧
    (* inside the stack, nothing is lost and nothing is added *)
    (∀ item, stack !! Z.to_nat n = Some item →
       item :: delete (Z.to_nat n) stack ≡ₚ stack).
Proof.
  intros Hcount Hn stack.
  eexists. split; [reflexivity|].
  assert (slice stack 0 (Some n) ++ slice stack (n + 1) None
          = delete (Z.to_nat n) stack) as Hdelete.
  { rewrite slice_take, slice_drop by lia.
    replace (Z.to_nat (n + 1)) with (S (Z.to_nat n)) by lia.
    by rewrite <- delete_take_drop. }
  split; [|split; [|split]].
  - cbn [Op.invoke]. unfold pureInvoke.
    cbn [arg lookup list_lookup mbind Result_bind]. rewrite Hcount.
    cbn [mbind Result_bind]. rewrite toNumber_inside by lia.
    cbn [mbind Result_bind].
    destruct (Z.ltb_spec n 0); [lia|]. fold stack. by rewrite Hdelete.
  - unfold PICK_invoke. rewrite (count_inside _ _ n) by (done || lia).
    cbn [mbind Outcome_bind]. destruct (Z.ltb_spec n 0); [lia|].
    by rewrite itemAt_lookup by lia.
  - unfold ROLL_invoke. rewrite (count_inside _ _ n) by (done || lia).
    cbn [mbind Outcome_bind]. destruct (Z.ltb_spec n 0); [lia|].
    fold stack. by rewrite Hdelete, itemAt_lookup by lia.
  - intros item Hitem. symmetry. by apply delete_Permutation.
Qed.

(** X3.  [PICK] and [ROLL] read [context.stack[n]] without a look at the
    depth: with [n] at or past it neither faults, both hand [undefined] on
    as their result, and [ROLL] leaves the stack as it is. *)
Theorem PICK_beyond_the_stack_is_undefined context countItem n :
  asBigInteger countItem = Ok n →
  - MAX_SIZE ≤ n ≤ MAX_SIZE →
  let stack := ExecutionContext.stack context in
  Z.of_nat (length stack) ≤ n →
  PICK_invoke context [countItem] = Return None ∧
  ROLL_invoke context [countItem] = Return (stack, None).
Proof.
  intros Hcount Hn stack Hbeyond. unfold PICK_invoke, ROLL_invoke.
  rewrite (count_inside _ _ n) by done. cbn [mbind Outcome_bind].
  destruct (Z.ltb_spec n 0); [lia|]. fold stack.
  rewrite itemAt_lookup by lia. rewrite lookup_ge_None_2 by lia.
  split; [done|]. rewrite slice_take, slice_drop by lia.
  by rewrite take_ge, drop_ge, app_nil_r by lia.
Qed.

Lemma assign_inside {A} (xs : list (option A)) i v :
  0 ≤ i < Z.of_nat (length xs) → assign xs i v = <[Z.to_nat i := v]> xs.
Proof.
  intros Hi. unfold assign.
  by destruct (Z.ltb_spec i (Z.of_nat (length xs))); [|lia].
Qed.

Lemma assign_length {A} (xs : list (option A)) i v :
  0 ≤ i →
  Z.of_nat (length (assign xs i v)) = Z.max (Z.of_nat (length xs)) (i + 1).
Proof.
  intros Hi. unfold assign.
  destruct (Z.ltb_spec i (Z.of_nat (length xs))).
  - rewrite length_insert. lia.
  - rewrite !length_app, length_replicate. cbn. lia.
Qed.

Lemma XSWAP_invoke_inside context countItem n :
  asBigInteger countItem = Ok n →
  - MAX_SIZE ≤ n ≤ MAX_SIZE →
  let stack := ExecutionContext.stack context in
  0 ≤ n < Z.of_nat (length stack) →
  XSWAP_invoke context [countItem] = Return (Some <$> swapped stack (Z.to_nat n)).
Proof.
  intros Hcount Hmax stack Hn. unfold XSWAP_invoke.
  rewrite (count_inside _ _ n) by done. cbn [mbind Outcome_bind].
  destruct (Z.ltb_spec n 0); [lia|]. fold stack.
  rewrite !itemAt_lookup by lia. change (Z.to_nat 0) with 0%nat.
  destruct (lookup_lt_is_Some_2 stack 0%nat) as [top Htop]; [lia|].
  destruct (lookup_lt_is_Some_2 stack (Z.to_nat n)) as [nth Hnth]; [lia|].
  unfold swapped. rewrite Htop, Hnth.
  rewrite (assign_inside (Some <$> stack)) by (rewrite length_fmap; lia).
  rewrite assign_inside by (rewrite length_insert, length_fmap; lia).
  change (Z.to_nat 0) with 0%nat.
  by rewrite !list_fmap_insert.
Qed.

(** X4.  For a count [n] inside the stack, [XSWAP] exchanges the items at
    index 0 and index [n] and leaves every other item where it is; a second
    [XSWAP] with the same count gives the first stack back. *)
Theorem XSWAP_exchanges_two_items context countItem n :
  asBigInteger countItem = Ok n →
  - MAX_SIZE ≤ n ≤ MAX_SIZE →
  let stack := ExecutionContext.stack context in
  0 ≤ n < Z.of_nat (length stack) →
  ∃ stack',
    XSWAP_invoke context [countItem] = Return (Some <$> stack') ∧
    stack' !! 0%nat = stack !! Z.to_nat n ∧
    stack' !! Z.to_nat n = stack !! 0%nat ∧
    (∀ i, i ≠ 0%nat → i ≠ Z.to_nat n → stack' !! i = stack !! i) ∧
    length stack' = length stack ∧
    (* a second exchange undoes the first *)
    XSWAP_invoke (ExecutionContext.with_stack context stack') [countItem]
    = Return (Some <$> stack).
Proof.
  intros Hcount Hmax stack Hn.
  destruct (lookup_lt_is_Some_2 stack 0%nat) as [top Htop]; [lia|].
  destruct (lookup_lt_is_Some_2 stack (Z.to_nat n)) as [nth Hnth]; [lia|].
  assert (swapped stack (Z.to_nat n)
          = <[0%nat := nth]> (<[Z.to_nat n := top]> stack)) as Hswapped
    by (unfold swapped; by rewrite Htop, Hnth).
  assert (length (swapped stack (Z.to_nat n)) = length stack) as Hlength
    by (by rewrite Hswapped, !length_insert).
  assert (swapped stack (Z.to_nat n) !! 0%nat = Some nth) as Hzero.
  { rewrite Hswapped. apply list_lookup_insert_eq.
    rewrite length_insert. lia. }
  assert (swapped stack (Z.to_nat n) !! Z.to_nat n = Some top) as Hn'.
  { rewrite Hswapped. destruct (decide (Z.to_nat n = 0%nat)) as [Heq|Hne].
    - rewrite Heq in *. rewrite list_lookup_insert_eq
        by (rewrite length_insert; lia). congruence.
    - rewrite list_lookup_insert_ne by done.
      apply list_lookup_insert_eq. lia. }
  exists (swapped stack (Z.to_nat n)).
  split; [by apply XSWAP_invoke_inside|].
  split; [congruence|]. split; [congruence|]. split.
  { intros i Hi0 Hin. rewrite Hswapped.
    by rewrite !list_lookup_insert_ne. }
  split; [done|].
  rewrite (XSWAP_invoke_inside _ _ n); [|done|done|cbn; lia].
  cbn [ExecutionContext.stack ExecutionContext.with_stack]. do 2 f_equal.
  unfold swapped at 1. rewrite Hzero, Hn'.
  apply list_eq. intros i.
  destruct (decide (i = 0%nat)) as [->|Hi0].
  { rewrite list_lookup_insert_eq by (rewrite length_insert; lia). done. }
  rewrite list_lookup_insert_ne by done.
  destruct (decide (i = Z.to_nat n)) as [->|Hin].
  { rewrite list_lookup_insert_eq by lia. done. }
  rewrite list_lookup_insert_ne by done. rewrite Hswapped.
  by rewrite !list_lookup_insert_ne.
Qed.

(** X5.  [XSWAP] assigns [stack[n]] without a look at the depth: with [n]
    at or past it the operation does not fault, the stack grows to [n + 1]
    slots, the former top sits at index [n] and the top is [undefined]. *)
Theorem XSWAP_beyond_the_stack_grows_it context countItem n :
  asBigInteger countItem = Ok n →
  - MAX_SIZE ≤ n ≤ MAX_SIZE →
  let stack := ExecutionContext.stack context in
  Z.of_nat (length stack) ≤ n →
  ∃ stack',
    XSWAP_invoke context [countItem] = Return stack' ∧
    Z.of_nat (length stack') = n + 1 ∧
    stack' !! 0%nat = Some None ∧
    (0 < n → stack' !! Z.to_nat n = Some (stack !! 0%nat)).
Proof.
  intros Hcount Hmax stack Hbeyond. unfold XSWAP_invoke.
  rewrite (count_inside _ _ n) by done. cbn [mbind Outcome_bind].
  destruct (Z.ltb_spec n 0); [lia|]. fold stack.
  rewrite !itemAt_lookup by lia. change (Z.to_nat 0) with 0%nat.
  rewrite (lookup_ge_None_2 stack (Z.to_nat n)) by lia.
  eexists. split; [reflexivity|].
  set (grown := assign (Some <$> stack) n (stack !! 0%nat)).
  assert (Z.of_nat (length grown) = n + 1) as Hgrown.
  { subst grown. rewrite assign_length, length_fmap by lia. lia. }
  rewrite assign_inside by lia. change (Z.to_nat 0) with 0%nat.
  split; [rewrite length_insert; lia|].
  split; [apply list_lookup_insert_eq; lia|].
  intros Hpos. rewrite list_lookup_insert_ne by lia.
  subst grown. unfold assign.
  destruct (Z.ltb_spec n (Z.of_nat (length (Some <$> stack))));
    [rewrite length_fmap in *; lia|].
  rewrite length_fmap in *.
  rewrite lookup_app_r by (rewrite length_fmap; lia).
  rewrite lookup_app_r by (rewrite length_fmap, length_replicate; lia).
  rewrite length_fmap, length_replicate.
  by replace (Z.to_nat n - length stack - (Z.to_nat n - length stack))%nat
    with 0%nat by lia.
Qed.

(** X6.  [XTUCK] refuses a count of 0 as it refuses a negative one, with
    [XTuckNegativeError]; for a count [n] above 0 it puts a copy of the top
    at index [n], or at the bottom when [n] is past the depth, and the stack
    is one item longer. *)
Theorem XTUCK_inserts_a_copy_of_the_top context countItem n top rest :
  asBigInteger countItem = Ok n →
  - MAX_SIZE ≤ n ≤ MAX_SIZE →
  ExecutionContext.stack context = top :: rest →
  (n ≤ 0 → XTUCK_invoke context [countItem] = Raise XTuckNegativeError) ∧
  (0 < n →
   let stack' := take (Z.to_nat n) (top :: rest) ++ top :: drop (Z.to_nat n) (top :: rest) in
   XTUCK_invoke context [countItem] = Return (Some <$> stack') ∧
   length stack' = S (length (top :: rest)) ∧
   (n ≤ Z.of_nat (length (top :: rest)) → stack' !! Z.to_nat n = Some top)).
Proof.
  intros Hcount Hmax Hstack. unfold XTUCK_invoke.
  rewrite (count_inside _ _ n) by done. cbn [mbind Outcome_bind].
  rewrite Hstack. split; intros Hn.
  - by destruct (Z.leb_spec n 0); [|lia].
  - destruct (Z.leb_spec n 0); [lia|]. cbv zeta.
    rewrite slice_take, slice_drop by lia.
    change (itemAt (top :: rest) 0) with (Some top).
    split; [by rewrite !fmap_app|]. split.
    + rewrite length_app. cbn [length]. rewrite length_take, length_drop.
      cbn [length]. lia.
    + intros Hin. cbn [length] in Hin.
      rewrite lookup_app_r by (rewrite length_take; cbn; lia).
      rewrite length_take. cbn [length].
      by replace (Z.to_nat n - Z.to_nat n `min` S (length rest))%nat
        with 0%nat by lia.
Qed.

(** ** Pushing bytes and numbers *)

Lemma OPCODES_PUSHBYTES idx :
  1 ≤ idx ≤ 75 → OPCODES !! idx = Some (PUSHBYTES idx).
Proof.
  intros Hidx.
  assert (idx ∈ seqZ 1 75) as Hin by (apply elem_of_seqZ; lia).
  vm_compute (seqZ 1 75) in Hin.
  repeat (apply elem_of_cons in Hin as [->|Hin]; [reflexivity|]).
  by apply elem_of_nil in Hin.
Qed.

Lemma OPCODES_pushNumber idx :
  0x51 ≤ idx ≤ 0x60 →
  OPCODES !! idx
  = Some (pushNumber ("PUSH" +:+ pretty (idx - 0x50)) (idx - 0x50)).
Proof.
  intros Hidx.
  assert (idx ∈ seqZ 0x51 16) as Hin by (apply elem_of_seqZ; lia).
  vm_compute (seqZ 0x51 16) in Hin.
  repeat (apply elem_of_cons in Hin as [->|Hin]; [reflexivity|]).
  by apply elem_of_nil in Hin.
Qed.

(** X7.  An opcode [idx] from [0x01] to [0x4B] is [PUSHBYTESidx]: it takes
    nothing, pushes the [idx] bytes that follow it and moves on past them.
    It never faults: when fewer than [idx] bytes are left it pushes the
    ones there are, and the position ends past the end of the script. *)
Theorem PUSHBYTES_pushes_the_bytes_that_follow world context b :
  let pc := ExecutionContext.pc context in
  let code := ExecutionContext.code context in
  let idx := byteToZ b in
  0 ≤ pc →
  code !! Z.to_nat pc = Some b →
  1 ≤ idx ≤ 75 →
  let bytes := take (Z.to_nat idx) (drop (Z.to_nat (pc + 1)) code) in
  ∃ op,
    lookupOp world context = Ok op ∧
    Op.in_ op = 0 ∧ Op.out op = 1 ∧
    Op.invoke op world (Op.context op) [] []
    = Ok (world,
          OpResult.mk (ExecutionContext.with_pc context (pc + 1 + idx))
            (Some [BufferStackItem bytes]) None) ∧
    Z.of_nat (length bytes) = Z.min idx (Z.of_nat (length code) - (pc + 1)).
Proof.
  intros pc code idx Hpc Hb Hidx bytes.
  rewrite (lookupOp_known world context b _ Hpc Hb (OPCODES_PUSHBYTES _ Hidx)).
  eexists. split; [reflexivity|]. split; [reflexivity|]. split; [reflexivity|].
  split.
  - cbn [Op.invoke Op.context PUSHBYTES createOp pureInvoke mbind Result_bind
         ret1 ExecutionContext.pc ExecutionContext.code
         ExecutionContext.with_pc].
    fold pc code idx.
    rewrite slice_take_drop by lia.
    replace (pc + 1 + idx - (pc + 1)) with idx by lia. done.
  - subst bytes. rewrite length_take, length_drop.
    apply lookup_lt_Some in Hb. fold code in Hb. lia.
Qed.

(** X8.  The opcodes [0x51] to [0x60] push the numbers 1 to 16, and
    [0x4F] pushes -1: each pushes its byte less [0x50], whatever the
    stacks hold. *)
Theorem PUSH_numbers_push_their_value world context b :
  let pc := ExecutionContext.pc context in
  0 ≤ pc →
  ExecutionContext.code context !! Z.to_nat pc = Some b →
  byteToZ b = 0x4F ∨ 0x51 ≤ byteToZ b ≤ 0x60 →
  ∃ op,
    lookupOp world context = Ok op ∧
    Op.in_ op = 0 ∧ Op.out op = 1 ∧
    ∀ w c args argsAlt,
      Op.invoke op w c args argsAlt
      = Ok (w, OpResult.mk c (Some [IntegerStackItem (byteToZ b - 0x50)])
                 None).
Proof.
  intros pc Hpc Hb [Hm1|Hnumber].
  - rewrite (lookupOp_known world context b (pushNumber "PUSHM1" (-1)) Hpc Hb)
      by (by rewrite Hm1).
    eexists. split; [reflexivity|]. split; [reflexivity|].
    split; [reflexivity|]. intros w c args argsAlt. by rewrite Hm1.
  - rewrite (lookupOp_known world context b _ Hpc Hb
               (OPCODES_pushNumber _ Hnumber)).
    eexists. split; [reflexivity|]. split; [reflexivity|].
    split; [reflexivity|]. done.
Qed.

Lemma pushData_invoke_readSize numBytes world context args argsAlt :
  pushData_invoke numBytes world context args argsAlt
  = (let code := ExecutionContext.code context in
     let pc := ExecutionContext.pc context in
     size ← readSize numBytes code pc;
     if Z.of_nat (length code) <? pc + numBytes + size - 1 then
       Throw CodeOverflowError
     else
       Ok (world,
           OpResult.mk
             (ExecutionContext.with_pc context (pc + numBytes + size))
             (Some [BufferStackItem
                      (slice code (pc + numBytes)
                         (Some (pc + numBytes + size)))]) None)).
Proof.
  unfold pushData_invoke, pureInvoke, readSize, ret1. cbv zeta.
  destruct (numBytes =? 1); [|destruct (numBytes =? 2)].
  all: match goal with
       | |- (?read ≫= _) ≫= _ = _ => destruct read as [size|e]
       end; cbn [mbind Result_bind]; [|done]; by destruct (_ <? _).
Qed.

Lemma readSize_inside numBytes code pc size :
  numBytes ∈ [1; 2; 4] →
  readSize numBytes code pc = Ok size →
  0 ≤ pc ∧ 1 ≤ numBytes ∧ pc + numBytes ≤ Z.of_nat (length code).
Proof.
  intros Hn. unfold readSize, readUInt8, readUInt16LE, readInt32LE, readBytes.
  rewrite !elem_of_cons, elem_of_nil in Hn.
  destruct Hn as [->|[->|[->|[]]]]; cbn [Z.eqb Pos.eqb];
    (destruct (_ || _) eqn:Hguard; [done|]; intros _;
     apply orb_false_elim in Hguard as [?%Z.ltb_ge ?%Z.ltb_ge]; cbn in *; lia).
Qed.

(** X9.  [PUSHDATA1], [PUSHDATA2] and [PUSHDATA4] read a size of one, two
    or four bytes and, when that many bytes follow, push exactly these and
    move on past them. *)
Theorem pushData_pushes_the_declared_bytes world context numBytes size args
    argsAlt :
  let code := ExecutionContext.code context in
  let pc := ExecutionContext.pc context in
  numBytes ∈ [1; 2; 4] →
  readSize numBytes code pc = Ok size →
  0 ≤ size →
  pc + numBytes + size ≤ Z.of_nat (length code) →
  let bytes := take (Z.to_nat size) (drop (Z.to_nat (pc + numBytes)) code) in
  pushData_invoke numBytes world context args argsAlt
  = Ok (world,
        OpResult.mk (ExecutionContext.with_pc context (pc + numBytes + size))
          (Some [BufferStackItem bytes]) None) ∧
  Z.of_nat (length bytes) = size.
Proof.
  intros code pc Hn Hread Hsize Hfits bytes.
  destruct (readSize_inside _ _ _ _ Hn Hread) as (Hpc & Hnum & Hin).
  rewrite pushData_invoke_readSize. cbv zeta. fold code pc. rewrite Hread.
  cbn [mbind Result_bind].
  destruct (Z.ltb_spec (Z.of_nat (length code)) (pc + numBytes + size - 1));
    [lia|].
  rewrite slice_take_drop by lia.
  replace (pc + numBytes + size - (pc + numBytes)) with size by lia.
  split; [done|]. subst bytes. rewrite length_take, length_drop. lia.
Qed.

(** X10.  The bound [pushData] checks is off by one: it faults with
    [CodeOverflowError] only when two or more of the bytes announced are
    missing.  With exactly one missing it pushes the bytes there are, one
    fewer than announced, and leaves the position past the end of the
    script. *)
Theorem pushData_tolerates_one_missing_byte world context numBytes size args
    argsAlt :
  let code := ExecutionContext.code context in
  let pc := ExecutionContext.pc context in
  numBytes ∈ [1; 2; 4] →
  readSize numBytes code pc = Ok size →
  (* a fault only when two or more bytes are missing *)
  (pushData_invoke numBytes world context args argsAlt
   = Throw CodeOverflowError
   ↔ Z.of_nat (length code) + 1 < pc + numBytes + size) ∧
  (* with one byte missing, the bytes that are there are pushed *)
  (pc + numBytes + size = Z.of_nat (length code) + 1 →
   let bytes := drop (Z.to_nat (pc + numBytes)) code in
   pushData_invoke numBytes world context args argsAlt
   = Ok (world,
         OpResult.mk
           (ExecutionContext.with_pc context (Z.of_nat (length code) + 1))
           (Some [BufferStackItem bytes]) None) ∧
   Z.of_nat (length bytes) = size - 1).
Proof.
  intros code pc Hn Hread.
  destruct (readSize_inside _ _ _ _ Hn Hread) as (Hpc & Hnum & Hin).
  rewrite pushData_invoke_readSize. cbv zeta. fold code pc. rewrite Hread.
  cbn [mbind Result_bind].
  destruct (Z.ltb_spec (Z.of_nat (length code)) (pc + numBytes + size - 1)).
  - split; [split; [lia|done]|lia].
  - split; [split; [done|lia]|]. intros Hone.
    rewrite slice_take_drop by lia. rewrite Hone.
    rewrite take_ge by (rewrite length_drop; lia).
    split; [done|]. rewrite length_drop. lia.
Qed.

(** X11.  [PUSHDATA4] reads its size as a signed number: a negative size
    is no [CodeOverflowError], and the position moves back by it instead
    of forward. *)
Theorem PUSHDATA4_negative_size_goes_back world context size args argsAlt :
  let code := ExecutionContext.code context in
  let pc := ExecutionContext.pc context in
  readInt32LE code pc = Ok size →
  size < 0 →
  ∃ bytes,
    pushData_invoke 4 world context args argsAlt
    = Ok (world,
          OpResult.mk (ExecutionContext.with_pc context (pc + 4 + size))
            (Some [BufferStackItem bytes]) None) ∧
    pc + 4 + size < pc + 4.
Proof.
  intros code pc Hread Hsize.
  destruct (readSize_inside 4 code pc size) as (Hpc & Hnum & Hin);
    [set_solver|done|].
  rewrite pushData_invoke_readSize. cbv zeta. fold code pc.
  change (readSize 4) with readInt32LE. rewrite Hread.
  cbn [mbind Result_bind].
  destruct (Z.ltb_spec (Z.of_nat (length code)) (pc + 4 + size - 1)); [lia|].
  eexists. split; [reflexivity|lia].
Qed.

(** ** Buffers: [CAT], [LEFT], [RIGHT], [SUBSTR] *)

Lemma RIGHT_invoke_count context countItem valueItem count value :
  asBigInteger countItem = Ok count →
  - MAX_SIZE ≤ count ≤ MAX_SIZE →
  asBuffer valueItem = Ok value →
  RIGHT_invoke context [countItem; valueItem]
  = if count <? 0 then Raise RightNegativeError
    else if Z.of_nat (length value) <? count then Raise RightLengthError
    else
      Return (OpResult.mk context
                (Some [BufferStackItem
                         (if count =? 0 then value
                          else drop (length value - Z.to_nat count) value)])
                None).
Proof.
  intros Hcount Hmax Hvalue. unfold RIGHT_invoke.
  cbn [arg lookup list_lookup mbind Result_bind]. rewrite Hcount.
  cbn [mbind Result_bind]. rewrite toNumber_inside by done.
  cbn [liftResult mbind Outcome_bind].
  destruct (Z.ltb_spec count 0); [done|].
  rewrite Hvalue. cbn [liftResult mbind Outcome_bind].
  destruct (Z.ltb_spec (Z.of_nat (length value)) count); [done|].
  by rewrite slice_last by lia.
Qed.

(** X12.  [LEFT] and [RIGHT] undo [CAT]: of the concatenation of [a] and
    [b], [LEFT] with the length of [a] gives [a], and [RIGHT] with the length
    of [b] gives [b], unless [b] is empty: then it gives [a]. *)
Theorem LEFT_RIGHT_undo_CAT world context (a b : Buffer) :
  Z.of_nat (length a) ≤ MAX_SIZE →
  Z.of_nat (length b) ≤ MAX_SIZE →
  let joined := BufferStackItem (a ++ b) in
  CAT_invoke world context [BufferStackItem b; BufferStackItem a] []
  = Ok (world, OpResult.mk context (Some [joined]) None) ∧
  LEFT_invoke context [IntegerStackItem (Z.of_nat (length a)); joined]
  = Return (OpResult.mk context (Some [BufferStackItem a]) None) ∧
  RIGHT_invoke context [IntegerStackItem (Z.of_nat (length b)); joined]
  = Return (OpResult.mk context
              (Some [BufferStackItem (if decide (b = []) then a else b)])
              None).
Proof.
  intros Ha Hb joined. split; [done|]. split.
  - unfold LEFT_invoke.
    cbn [arg lookup list_lookup mbind Result_bind asBigInteger asBuffer joined].
    rewrite toNumber_inside by lia. cbn [liftResult mbind Outcome_bind].
    destruct (Z.ltb_spec (Z.of_nat (length a)) 0); [lia|].
    rewrite slice_take by lia. by rewrite Nat2Z.id, take_app_length.
  - rewrite (RIGHT_invoke_count _ _ _ (Z.of_nat (length b)) (a ++ b));
      [|done|lia|done].
    destruct (Z.ltb_spec (Z.of_nat (length b)) 0); [lia|].
    rewrite length_app.
    destruct (Z.ltb_spec (Z.of_nat (length a + length b))
                (Z.of_nat (length b))); [lia|].
    destruct (decide (b = [])) as [->|Hb'].
    + cbn. by rewrite app_nil_r.
    + destruct (Z.eqb_spec (Z.of_nat (length b)) 0) as [Hzero|_].
      { destruct b; [done|cbn in Hzero; lia]. }
      rewrite Nat2Z.id.
      replace (length a + length b - length b)%nat with (length a) by lia.
      by rewrite drop_app_length.
Qed.

(** X13.  [RIGHT] slices with [-count]: for a count from 1 to the length
    of the buffer it gives the last [count] bytes, for a count above the
    length it faults with [RightLengthError], and for the count 0 it gives
    the whole buffer, not the empty one. *)
Theorem RIGHT_of_zero_is_everything context countItem valueItem count value :
  asBigInteger countItem = Ok count →
  0 ≤ count ≤ MAX_SIZE →
  asBuffer valueItem = Ok value →
  let outcome := RIGHT_invoke context [countItem; valueItem] in
  let pushes bytes :=
    outcome
    = Return (OpResult.mk context (Some [BufferStackItem bytes]) None) in
  (count = 0 → pushes value) ∧
  (0 < count ≤ Z.of_nat (length value) →
   pushes (drop (length value - Z.to_nat count) value) ∧
   Z.of_nat (length (drop (length value - Z.to_nat count) value)) = count) ∧
  (Z.of_nat (length value) < count → outcome = Raise RightLengthError).
Proof.
  intros Hcount Hmax Hvalue outcome pushes. subst pushes outcome. cbv beta.
  rewrite (RIGHT_invoke_count _ _ _ count value) by (done || lia).
  destruct (Z.ltb_spec count 0); [lia|].
  split; [|split].
  - intros ->. by destruct (Z.ltb_spec (Z.of_nat (length value)) 0); [lia|].
  - intros Hin.
    destruct (Z.ltb_spec (Z.of_nat (length value)) count); [lia|].
    destruct (Z.eqb_spec count 0); [lia|].
    split; [done|]. rewrite length_drop. lia.
  - intros Hlong.
    by destruct (Z.ltb_spec (Z.of_nat (length value)) count); [|lia].
Qed.

(** X14.  [LEFT] and [SUBSTR] never read outside the buffer and never
    fault on its length: [LEFT] gives the first [count] bytes or as many as
    there are, [SUBSTR] the [count] bytes from [start] on or as many as
    there are, which is nothing when [start] is past the end. *)
Theorem LEFT_and_SUBSTR_clamp context countItem startItem valueItem count start
    value :
  asBigInteger countItem = Ok count →
  asBigInteger startItem = Ok start →
  asBuffer valueItem = Ok value →
  0 ≤ count ≤ MAX_SIZE →
  0 ≤ start ≤ MAX_SIZE →
  LEFT_invoke context [countItem; valueItem]
  = Return (OpResult.mk context
              (Some [BufferStackItem (take (Z.to_nat count) value)]) None) ∧
  SUBSTR_invoke context [countItem; startItem; valueItem]
  = Return (OpResult.mk context
              (Some [BufferStackItem
                       (take (Z.to_nat count) (drop (Z.to_nat start) value))])
              None).
Proof.
  intros Hcount Hstart Hvalue Hc Hs. unfold LEFT_invoke, SUBSTR_invoke.
  cbn [arg lookup list_lookup mbind Result_bind].
  rewrite Hcount, Hstart, Hvalue. cbn [mbind Result_bind].
  rewrite !toNumber_inside by lia. cbn [liftResult mbind Outcome_bind].
  destruct (Z.ltb_spec count 0); [lia|].
  destruct (Z.ltb_spec start 0); [lia|].
  cbn [liftResult mbind Outcome_bind].
  rewrite slice_take, slice_take_drop by lia.
  by replace (start + count - start) with count by lia.
Qed.

(** ** Arrays *)

(** X15.  [PACK] takes the count on top of the stack and as many items as
    it says.  A count below -1 faults with [InvalidPackCountError]; the
    count -1 is accepted, and then the operation takes nothing, not even
    the count.  The array made holds the items after the first one. *)
Theorem PACK_count world context top rest n :
  ExecutionContext.stack context = top :: rest →
  asBigInteger top = Ok n →
  - MAX_SIZE ≤ n ≤ MAX_SIZE →
  (n < -1 → PACK world context = Throw InvalidPackCountError) ∧
  (-1 ≤ n →
   ∃ op,
     PACK world context = Ok op ∧
     Op.in_ op = 1 + n ∧ Op.out op = 1 ∧ Op.context op = context ∧
     ∀ w c args,
       Op.invoke op w c args []
       = Ok (World.with_arrays w (World.arrays w ++ [drop 1 args]),
             OpResult.mk c
               (Some [ArrayStackItem (length (World.arrays w))]) None)).
Proof.
  intros Hstack Htop Hn. unfold PACK. rewrite Hstack.
  cbn [lookup list_lookup mbind Result_bind]. rewrite Htop.
  cbn [mbind Result_bind]. rewrite toNumber_inside by done.
  cbn [mbind Result_bind]. split; intros Hcount.
  - by destruct (Z.ltb_spec (1 + n) 0); [|lia].
  - destruct (Z.ltb_spec (1 + n) 0); [lia|]. cbn [mbind Result_bind].
    eexists. split; [reflexivity|]. cbn.
    split; [done|]. split; [done|]. split; [done|].
    intros w c args. unfold PACK_invoke, alloc.
    by rewrite slice_drop.
Qed.

(** X16.  [UNPACK] followed by [PACK] copies an array: the stack ends with
    a new array in the place of the first, with the same elements in the
    same order, and the first array is as it was. *)
Theorem UNPACK_PACK_copies_the_array world context r items rest :
  let pc := ExecutionContext.pc context in
  let n := Z.of_nat (length items) in
  0 ≤ pc →
  ExecutionContext.code context !! Z.to_nat pc = Some xc2%byte →
  ExecutionContext.code context !! Z.to_nat (pc + 1) = Some xc1%byte →
  ExecutionContext.stack context = ArrayStackItem r :: rest →
  (r < length (World.arrays world))%nat →
  readCell (World.arrays world) r = items →
  n ≤ MAX_SIZE →
  0 ≤ ExecutionContext.gasLeft context →
  ExecutionContext.depth context ≤ MAX_INVOCATION_STACK_SIZE →
  Z.of_nat (length (ExecutionContext.stack context))
  + Z.of_nat (length (ExecutionContext.stackAlt context)) + 1 + n
  ≤ MAX_STACK_SIZE →
  ∃ context1 world2 context2,
    step world context = Ok (world, context1) ∧
    ExecutionContext.stack context1 = IntegerStackItem n :: items ++ rest ∧
    step world context1 = Ok (world2, context2) ∧
    (* a new array is on top ... *)
    ExecutionContext.stack context2
    = ArrayStackItem (length (World.arrays world)) :: rest ∧
    r ≠ length (World.arrays world) ∧
    (* ... with the elements of the first, which is as it was *)
    readCell (World.arrays world2) (length (World.arrays world)) = items ∧
    readCell (World.arrays world2) r = items ∧
    ExecutionContext.pc context2 = pc + 2.
Proof.
  intros pc n Hpc Hunpack Hpack Hstack Hr Hcell Hmax Hgas Hdepth Hsize.
  assert (0 ≤ n) as Hn by (subst n; lia).
  rewrite Hstack in Hsize. cbn [length] in Hsize.
  set (context1 :=
    ExecutionContext.with_stackAlt
      (ExecutionContext.with_stack
         (ExecutionContext.with_stack
            (ExecutionContext.with_pc context (pc + 1)) rest)
         (IntegerStackItem n :: items ++ rest))
      (ExecutionContext.stackAlt context)).
  assert (step world context = Ok (world, context1)) as Hstep1.
  { unfold step.
    rewrite (lookupOp_known _ _ _ UNPACK Hpc Hunpack eq_refl).
    unfold UNPACK. cbn [ExecutionContext.stack ExecutionContext.with_pc].
    rewrite Hstack.
    cbn [lookup list_lookup mbind Result_bind asArray]. rewrite Hcell.
    fold n. unfold createOp. cbn [mbind Result_bind].
    erewrite (applyOp_main _ _ [ArrayStackItem r] rest); cycle 1.
    - cbn. by rewrite Hstack.
    - reflexivity.
    - reflexivity.
    - reflexivity.
    - done.
    - cbn. lia.
    - cbn. rewrite Hstack. cbn. lia.
    - cbn [Op.invoke]. unfold UNPACK_invoke.
      cbn [arg lookup list_lookup mbind Result_bind asArray fmap Result_fmap].
      rewrite Hcell. reflexivity.
    - cbn -[reverse]. rewrite reverse_app, reverse_singleton, reverse_involutive.
      reflexivity. }
  set (world2 := World.with_arrays world (World.arrays world ++ [items])).
  set (context2 :=
    ExecutionContext.with_stackAlt
      (ExecutionContext.with_stack
         (ExecutionContext.with_stack
            (ExecutionContext.with_pc context1 (pc + 1 + 1)) rest)
         (ArrayStackItem (length (World.arrays world)) :: rest))
      (ExecutionContext.stackAlt context)).
  assert (step world context1 = Ok (world2, context2)) as Hstep2.
  { unfold step.
    rewrite (lookupOp_known _ _ xc1%byte PACK); [| |done|done]; cycle 1.
    { cbn. subst pc. lia. }
    unfold PACK.
    cbn [ExecutionContext.stack ExecutionContext.with_pc context1
         ExecutionContext.with_stackAlt ExecutionContext.with_stack
         lookup list_lookup mbind Result_bind asBigInteger].
    rewrite toNumber_inside by lia. cbn [mbind Result_bind].
    destruct (Z.ltb_spec (1 + n) 0) as [|_]; [lia|].
    unfold createOp. cbn [mbind Result_bind].
    erewrite (applyOp_main _ _ (IntegerStackItem n :: items) rest); cycle 1.
    - reflexivity.
    - cbn. lia.
    - reflexivity.
    - reflexivity.
    - done.
    - cbn. lia.
    - cbn. rewrite length_app. lia.
    - cbn [Op.invoke]. unfold PACK_invoke, alloc.
      rewrite slice_from_1. reflexivity.
    - reflexivity. }
  exists context1, world2, context2.
  split; [done|]. split; [done|]. split; [done|]. split; [done|].
  split; [lia|]. subst world2. cbn [World.arrays World.with_arrays].
  split; [apply readCell_alloc|]. split; [by rewrite readCell_app_l|].
  cbn. subst pc. lia.
Qed.

(** X17.  [NEWARRAY] and [NEWSTRUCT] build their elements over
    [_.range(0, n)], which counts down for a negative [n]: the array has
    [|n|] elements, all of them the boolean false, and a negative count is
    no fault.  [ARRAYSIZE] of the new array is [|n|]. *)
Theorem NEWARRAY_count_magnitude world context item n :
  asBigInteger item = Ok n →
  - MAX_SIZE ≤ n ≤ MAX_SIZE →
  let r := length (World.arrays world) in
  let cell := replicate (Z.to_nat (Z.abs n)) (BooleanStackItem false) in
  let world' := World.with_arrays world (World.arrays world ++ [cell]) in
  ∃ newArray newStruct arraySize,
    NEWARRAY world context = Ok newArray ∧
    NEWSTRUCT world context = Ok newStruct ∧
    ARRAYSIZE world context = Ok arraySize ∧
    Op.invoke newArray world context [item] []
    = Ok (world', OpResult.mk context (Some [ArrayStackItem r]) None) ∧
    Op.invoke newStruct world context [item] []
    = Ok (world', OpResult.mk context (Some [StructStackItem r]) None) ∧
    Op.invoke arraySize world' context [ArrayStackItem r] []
    = Ok (world',
          OpResult.mk context (Some [IntegerStackItem (Z.abs n)]) None).
Proof.
  intros Hitem Hn r cell world'.
  eexists _, _, _. do 3 (split; [reflexivity|]).
  cbn [Op.invoke arg lookup list_lookup mbind Result_bind isArray asArray].
  rewrite Hitem. cbn [mbind Result_bind]. rewrite toNumber_inside by done.
  cbn [mbind Result_bind]. unfold alloc, range0_length.
  split; [done|]. split; [done|].
  subst world' r cell. cbn [World.arrays World.with_arrays].
  rewrite readCell_alloc, length_replicate. rewrite Z2Nat.id by lia. done.
Qed.

(** X18.  What [SETITEM] stores, [PICKITEM] reads back: after a
    [SETITEM] of an item that is no struct, [PICKITEM] at the same index of
    the same array gives the item; the array has the length and the other
    elements it had, and no other array and nothing of the ledger has
    changed. *)
Theorem SETITEM_then_PICKITEM world context newItem indexItem arrayItem
    index r world' result :
  (∀ s, newItem ≠ StructStackItem s) →
  asBigInteger indexItem = Ok index →
  asArray arrayItem = Ok r →
  SETITEM_invoke world context [newItem; indexItem; arrayItem] []
  = Ok (world', result) →
  let h := World.arrays world in
  let h' := World.arrays world' in
  ∃ pickItem,
    PICKITEM world' context = Ok pickItem ∧
    (* the item is read back *)
    Op.invoke pickItem world' context [indexItem; arrayItem] []
    = Ok (world', OpResult.mk context (Some [newItem]) None) ∧
    (* the array keeps its length and its other elements *)
    length (readCell h' r) = length (readCell h r) ∧
    (∀ i, i ≠ Z.to_nat index → readCell h' r !! i = readCell h r !! i) ∧
    (* and the other arrays are as they were *)
    (∀ r', r' ≠ r → readCell h' r' = readCell h r') ∧
    World.blockchain world' = World.blockchain world.
Proof.
  intros Hplain Hindex Harray Hset h h'. subst h h'.
  unfold SETITEM_invoke in Hset.
  cbn [arg lookup list_lookup mbind Result_bind] in Hset.
  assert ((match newItem with
           | StructStackItem r0 =>
               clone (World.arrays world) r0
               ≫= λ '(h, r'), Ok (h, StructStackItem r')
           | _ => Ok (World.arrays world, newItem)
           end) = Ok (World.arrays world, newItem)) as Hkeep.
  { destruct newItem; try done. by destruct (Hplain value). }
  rewrite Hkeep, Hindex in Hset. cbn [mbind Result_bind] in Hset.
  destruct (toNumber context index) as [n|e] eqn:Hn;
    cbn [mbind Result_bind] in Hset; [|done].
  rewrite Harray in Hset. cbn [mbind Result_bind] in Hset.
  destruct (_ || _) eqn:Hguard in Hset; [done|].
  apply orb_false_elim in Hguard as [Hlo%Z.ltb_ge Hhi%Z.leb_gt].
  injection Hset as <- <-.
  assert (n = index) as ->.
  { unfold toNumber in Hn.
    destruct ((index <? - MAX_SIZE) || (MAX_SIZE <? index));
      [discriminate Hn|by injection Hn]. }
  assert (r < length (World.arrays world))%nat as Hr.
  { apply lookup_lt_is_Some. unfold readCell in Hhi.
    destruct (_ !! _); [by eexists|cbn in Hhi; lia]. }
  assert (readCell (writeCell (World.arrays world) r (Z.to_nat index) newItem) r
          = <[Z.to_nat index := newItem]> (readCell (World.arrays world) r))
    as Hcell.
  { unfold writeCell, readCell at 1. by rewrite list_lookup_insert_eq. }
  eexists. split; [reflexivity|].
  cbn [Op.invoke World.arrays World.with_arrays World.blockchain
       arg lookup list_lookup mbind Result_bind fmap Result_fmap].
  rewrite Hindex. cbn [mbind Result_bind]. rewrite Hn.
  cbn [mbind Result_bind]. rewrite Harray. cbn [fmap Result_fmap].
  rewrite Hcell. cbn [mbind Result_bind]. rewrite length_insert.
  destruct (Z.ltb_spec index 0); [lia|].
  destruct (Z.leb_spec
              (Z.of_nat (length (readCell (World.arrays world) r))) index);
    [lia|].
  cbn [orb]. unfold argAt, arg.
  destruct (Z.ltb_spec index 0); [lia|].
  rewrite list_lookup_insert_eq by lia. cbn [mbind Result_bind].
  split; [done|]. split; [done|]. split.
  - intros i Hi. by rewrite list_lookup_insert_ne.
  - split; [|done]. intros r' Hr'. unfold readCell.
    by rewrite writeCell_lookup_ne.
Qed.

(** ** Signatures *)

Lemma checkMultisigLoop_sound msg signatures n remaining : ∀ i j,
  0 ≤ i ≤ Z.of_nat (length signatures) →
  n - j = Z.of_nat (length remaining) →
  Z.of_nat (length signatures) - i ≤ n - j →
  checkMultisigLoop msg signatures (Z.of_nat (length signatures)) n remaining
    i j = Ok true →
  verifiedInOrder msg (drop (Z.to_nat i) signatures) remaining.
Proof.
  induction remaining as [|publicKey remaining IH]; intros i j Hi Hj Hleft.
  { intros _. exists []. split; [done|].
    rewrite drop_ge by (cbn in Hj; lia). constructor. }
  cbn [checkMultisigLoop length] in *.
  destruct (Z.ltb_spec i (Z.of_nat (length signatures))) as [Hlt|Hge]; cycle 1.
  { intros _. exists []. split; [apply sublist_nil_l|].
    rewrite drop_ge by lia. constructor. }
  destruct (lookup_lt_is_Some_2 signatures (Z.to_nat i)) as [signature Hsig];
    [lia|].
  rewrite Hsig.
  destruct (verify msg signature publicKey) as [currentResult|e] eqn:Hverify;
    cbn [mbind Result_bind]; [|done].
  destruct (Z.ltb_spec (n - (j + 1))
              (Z.of_nat (length signatures)
               - (if currentResult then i + 1 else i))) as [|Hfits]; [done|].
  intros Hloop. apply IH in Hloop as (keys & Hsub & Hall);
    [|destruct currentResult; lia|lia|lia].
  rewrite (drop_S _ _ _ Hsig).
  destruct currentResult.
  - exists (publicKey :: keys). split; [by apply sublist_skip|].
    constructor; [done|].
    by replace (S (Z.to_nat i)) with (Z.to_nat (i + 1)) by lia.
  - exists keys. split; [by apply sublist_cons|].
    by rewrite (drop_S _ _ _ Hsig) in Hall.
Qed.

Lemma checkMultisigLoop_complete msg signatures n remaining : ∀ i j,
  Forall (λ signature,
    Forall (λ publicKey, ∃ b, verify msg signature publicKey = Ok b)
      remaining) signatures →
  0 ≤ i ≤ Z.of_nat (length signatures) →
  n - j = Z.of_nat (length remaining) →
  verifiedInOrder msg (drop (Z.to_nat i) signatures) remaining →
  checkMultisigLoop msg signatures (Z.of_nat (length signatures)) n remaining
    i j = Ok true.
Proof.
  induction remaining as [|publicKey remaining IH];
    intros i j Htotal Hi Hj (keys & Hsub & Hall); [done|].
  cbn [checkMultisigLoop length] in *.
  destruct (Z.ltb_spec i (Z.of_nat (length signatures))) as [Hlt|Hge]; [|done].
  destruct (lookup_lt_is_Some_2 signatures (Z.to_nat i)) as [signature Hsig];
    [lia|].
  rewrite Hsig. rewrite (drop_S _ _ _ Hsig) in Hall.
  apply Forall2_cons_inv_l in Hall as (key & keys' & Hkey & Hall & ->).
  assert (Forall (λ signature,
            Forall (λ publicKey, ∃ b, verify msg signature publicKey = Ok b)
              remaining) signatures) as Htotal'.
  { eapply Forall_impl; [exact Htotal|]. cbn. intros s Hs.
    by apply Forall_cons in Hs as [_ Hs]. }
  assert (∃ b, verify msg signature publicKey = Ok b) as [currentResult Hverify].
  { rewrite Forall_forall in Htotal.
    specialize (Htotal signature (list_elem_of_lookup_2 _ _ _ Hsig)).
    by apply Forall_cons in Htotal as [Htotal _]. }
  rewrite Hverify. cbn [mbind Result_bind].
  pose proof (Forall2_length _ _ _ Hall) as Hlen. rewrite length_drop in Hlen.
  assert (verifiedInOrder msg
            (drop (Z.to_nat (if currentResult then i + 1 else i)) signatures)
            remaining) as Hrest.
  { destruct currentResult.
    - exists keys'. replace (Z.to_nat (i + 1)) with (S (Z.to_nat i)) by lia.
      split; [|done].
      apply sublist_cons_r in Hsub as [Hsub|(keys0 & [= -> ->] & Hsub)];
        [|done].
      apply sublist_cons_l in Hsub as (k1 & k2 & -> & Hsub).
      by apply sublist_inserts_l, sublist_cons.
    - apply sublist_cons_r in Hsub as [Hsub|(keys0 & [= -> ->] & Hsub)].
      + exists (key :: keys'). split; [done|].
        rewrite (drop_S _ _ _ Hsig). by constructor.
      + congruence. }
  destruct Hrest as (keys & Hsub' & Hall').
  pose proof (Forall2_length _ _ _ Hall') as Hlen'.
  rewrite length_drop in Hlen'.
  pose proof (sublist_length _ _ Hsub') as Hle.
  destruct (Z.ltb_spec (n - (j + 1))
              (Z.of_nat (length signatures)
               - (if currentResult then i + 1 else i))) as [Hshort|_].
  { destruct currentResult; lia. }
  apply IH; [done|destruct currentResult; lia|lia|by exists keys].
Qed.

Lemma CHECKMULTISIG_invoke_decoded world context args :
  CHECKMULTISIG_invoke world context args []
  = ('(index, publicKeys) ← multisigPublicKeys world context args;
     signatures ← multisigSignatures world args index;
     let n := Z.of_nat (length publicKeys) in
     let m := Z.of_nat (length signatures) in
     if (n =? 0) || (m =? 0) || (n <? m) then
       Throw InvalidCheckMultisigArgumentsError
     else
       Ok (world,
           OpResult.mk context
             (Some [BooleanStackItem
                      (tryCatch
                         (checkMultisigLoop (message context) signatures m n
                            publicKeys 0 0) false)]) None)).
Proof.
  unfold CHECKMULTISIG_invoke, multisigPublicKeys, multisigSignatures.
  destruct (arg args 0) as [a0|e]; cbn [mbind Result_bind]; [|done].
  destruct (if isArray a0 then _ else _) as [[index publicKeys]|e];
    cbn [mbind Result_bind]; [|done].
  destruct (argAt args index) as [ai|e]; cbn [mbind Result_bind]; [|done].
  by destruct (if isArray ai then _ else _).
Qed.

(** X19.  Whatever its arguments, [CHECKMULTISIG] answers true only if
    every signature it read is verified by a public key of its own among
    those it read, and these keys come in the order of the signatures: a
    signed message needs the signatures in the order of the keys. *)
Theorem CHECKMULTISIG_true_only_if_verified world context args world'
    result :
  CHECKMULTISIG_invoke world context args [] = Ok (world', result) →
  OpResult.results result = Some [BooleanStackItem true] →
  ∃ index publicKeys signatures,
    multisigPublicKeys world context args = Ok (index, publicKeys) ∧
    multisigSignatures world args index = Ok signatures ∧
    verifiedInOrder (message context) signatures publicKeys.
Proof.
  rewrite CHECKMULTISIG_invoke_decoded.
  destruct (multisigPublicKeys world context args)
    as [[index publicKeys]|e] eqn:Hkeys; cbn [mbind Result_bind]; [|done].
  destruct (multisigSignatures world args index) as [signatures|e] eqn:Hsigs;
    cbn [mbind Result_bind]; [|done].
  cbv zeta.
  destruct (_ || _) eqn:Hguard; [done|].
  apply orb_false_elim in Hguard as [Hguard Hmn%Z.ltb_ge].
  apply orb_false_elim in Hguard as [Hn%Z.eqb_neq Hm%Z.eqb_neq].
  destruct (checkMultisigLoop _ _ _ _ _ _ _) as [[]|e] eqn:Hloop;
    cbn [tryCatch]; intros [= _ <-]; cbn; intros [=].
  exists index, publicKeys, signatures. split; [done|]. split; [done|].
  apply (checkMultisigLoop_sound _ _ _ _ 0 0) in Hloop; [done|lia..].
Qed.

(** X20.  Conversely, whatever the shape of the arguments: when
    [crypto.verify] throws for none of the signatures and keys read, there
    is a signature, and the signatures are verified in order by keys of the
    list, [CHECKMULTISIG] answers true: the one pass it makes over the keys
    misses no such choice of keys. *)
Theorem CHECKMULTISIG_true_if_verified world context args index publicKeys
    signatures :
  multisigPublicKeys world context args = Ok (index, publicKeys) →
  multisigSignatures world args index = Ok signatures →
  signatures ≠ [] →
  Forall (λ signature,
    Forall (λ publicKey,
      ∃ b, verify (message context) signature publicKey = Ok b)
      publicKeys) signatures →
  verifiedInOrder (message context) signatures publicKeys →
  CHECKMULTISIG_invoke world context args []
  = Ok (world, OpResult.mk context (Some [BooleanStackItem true]) None).
Proof.
  intros Hkeys Hsigs Hsome Htotal Hverified.
  rewrite CHECKMULTISIG_invoke_decoded, Hkeys. cbn [mbind Result_bind].
  rewrite Hsigs. cbn [mbind Result_bind]. cbv zeta.
  pose proof Hverified as (keys & Hsub%sublist_length & Hlen%Forall2_length).
  destruct signatures as [|signature signatures]; [done|]. cbn [length] in *.
  destruct (Z.eqb_spec (Z.of_nat (length publicKeys)) 0); [lia|].
  destruct (Z.eqb_spec (Z.of_nat (S (length signatures))) 0); [lia|].
  destruct (Z.ltb_spec (Z.of_nat (length publicKeys))
              (Z.of_nat (S (length signatures)))); [lia|].
  cbn [orb].
  by rewrite (checkMultisigLoop_complete _ (signature :: signatures) _ _ 0 0)
    by (done || cbn [length]; lia).
Qed.

(** ** What no operation does *)

Ltac ok_cases :=
  repeat match goal with
         | H : Throw _ = Ok _ |- _ => discriminate H
         | H : Ok _ = Ok _ |- _ => injection H as H; simplify_eq
         | H : (?m ≫= _) = Ok _ |- _ =>
             let E := fresh "E" in
             destruct m eqn:E; cbn [mbind Result_bind] in H;
             [|discriminate H]
         | H : (_ <$> ?m) = Ok _ |- _ =>
             let E := fresh "E" in
             destruct m eqn:E; cbn [fmap Result_fmap] in H;
             [|discriminate H]
         | H : (if ?b then _ else _) = Ok _ |- _ => destruct b
         | H : (let '(_, _) := ?p in _) = Ok _ |- _ => destruct p
         | H : match ?x with _ => _ end = Ok _ |- _ => destruct x
         end.

Ltac invoked :=
  let Hcreate := fresh "Hcreate" in
  let Hinvoke := fresh "Hinvoke" in
  intros world context op w c args argsAlt w' result Hcreate Hinvoke;
  cbv [PUSH0 NOP JMP jump RET DUPFROMALTSTACK TOALTSTACK FROMALTSTACK XDROP
       DEPTH DROP DUP NIP OVER ROT SWAP TUCK SIZE INC DEC SIGN NEGATE ABS NOT
       NZ ADD SUB MUL BOOLAND BOOLOR NUMEQUAL NUMNOTEQUAL LT GT LTE GTE MIN MAX
       WITHIN CHECKSIG CHECKMULTISIG ARRAYSIZE PACK UNPACK PICKITEM SETITEM
       NEWARRAY NEWSTRUCT THROW THROWIFNOT pushNumber PUSHBYTES unaryInteger
       binaryInteger10 binaryInteger01 createOp createSysCall
       Neo_Runtime_GetTrigger Neo_Account_GetScriptHash Neo_Account_GetBalance
       Neo_Contract_GetScript Neo_Storage_GetContext Neo_Storage_Get
       Neo_Account_SetVotes Neo_Contract_Create Neo_Contract_GetStorageContext
       System_ExecutionEngine_GetExecutingScriptHash
       System_ExecutionEngine_GetCallingScriptHash
       System_ExecutionEngine_GetEntryScriptHash] in Hcreate;
  cbn [mbind Result_bind] in Hcreate;
  ok_cases;
  cbn [Op.invoke] in *;
  cbv [pureInvoke ret0 ret1 jump_invoke OVER_invoke CHECKSIG_invoke
       CHECKMULTISIG_invoke PACK_invoke UNPACK_invoke SETITEM_invoke
       Neo_Account_GetBalance_invoke Neo_Storage_Get_invoke
       Neo_Account_SetVotes_invoke Neo_Contract_Create_invoke
       Neo_Contract_GetStorageContext_invoke]
    in Hinvoke;
  ok_cases.

Ltac return_cases :=
  repeat match goal with
         | H : Raise _ = Return _ |- _ => discriminate H
         | H : Fault _ = Return _ |- _ => discriminate H
         | H : Return _ = Return _ |- _ => injection H as H; simplify_eq
         | H : (?m ≫= _) = Return _ |- _ =>
             let E := fresh "E" in
             destruct m eqn:E; cbn [mbind Outcome_bind] in H
         | H : (if ?b then _ else _) = Return _ |- _ => destruct b
         end.

Ltac beside H :=
  destruct H as
    (args & [(numBytes & w & argsAlt & w' & H)
            |[(w & argsAlt & w' & H)
            |[H|[H|[H|[(add & update & w & argsAlt & w' & H)
                      |(delete & w & argsAlt & w' & H)]]]]]]);
  [unfold pushData_invoke, pureInvoke, ret1 in H; ok_cases
  |unfold CAT_invoke, pureInvoke, ret1 in H; ok_cases
  |unfold SUBSTR_invoke in H; return_cases
  |unfold LEFT_invoke in H; return_cases
  |unfold RIGHT_invoke in H; return_cases
  |unfold Neo_Storage_Put_invoke in H; ok_cases
  |unfold Neo_Storage_Delete_invoke in H; ok_cases].

Ltac keeps := invoked; cbv zeta; cbn; repeat split; reflexivity.
Ltac keeps_done := invoked; reflexivity.

Lemma keepsContext_keepsScript create : keepsContext create → keepsScript create.
Proof.
  intros Hkeeps world context op w c args argsAlt w' result Hcreate Hinvoke.
  destruct (Hkeeps _ _ _ _ _ _ _ _ _ Hcreate Hinvoke)
    as (? & ? & ? & ? & ? & ? & ? & ? & ? & _).
  by repeat split.
Qed.

Lemma property_elem_of {A} (object : list (string * A)) key v :
  property object key = Some v → v ∈ object.*2.
Proof.
  induction object as [|[k x] object IH]; [done|]. cbn.
  destruct (String.eqb k key); [intros [= <-]; by left|].
  intros Hv. right. by apply IH.
Qed.

(** X21.  Every entry of the opcode table whose body is in the table (it is
    not left to [externalInvoke]), the decoding of [SYSCALL] apart, and
    every entry of [SYSCALLS] whose body is in the table hand back the
    context they were given, but for the stacks, the position and the
    [done] flag: the script, the script hashes, the script container, the
    invocation depth, the gas left and the action index are as they were,
    and so are the contracts created, but for [Neo.Contract.Create].
    [SYSCALL] invokes the body of a system call of [SYSCALLS].  The body of
    [call] ([APPCALL], [TAILCALL]) hands back the context of the nested
    execution with the script and the depth of the caller, and [CALL] with
    the depth of the caller. *)
Theorem operations_keep_the_context :
  Forall (λ entry,
    entry.1 = 0x68 ∨ isExternal entry.2 ∨ keepsContext entry.2)
    OPCODE_PAIRS ∧
  Forall (λ entry,
    isExternal entry.2 ∨
    keepsScript entry.2 ∧
    (entry.1 ≠ "Neo.Contract.Create"%string → keepsContext entry.2))
    SYSCALLS ∧
  (∀ world context op,
     SYSCALL world context = Ok op →
     ∃ createCall nextContext sysCall,
       createCall ∈ SYSCALLS.*2 ∧
       createCall world nextContext = Ok sysCall ∧
       Op.invoke op = Op.invoke sysCall) ∧
  (∀ executeScript tailCall w c args argsAlt w' result,
     call_invoke executeScript tailCall w c args argsAlt = Ok (w', result) →
     ExecutionContext.code (OpResult.context result) = ExecutionContext.code c ∧
     ExecutionContext.depth (OpResult.context result)
     = ExecutionContext.depth c) ∧
  (∀ run w c args argsAlt w' result,
     CALL_invoke run w c args argsAlt = Ok (w', result) →
     ExecutionContext.depth (OpResult.context result)
     = ExecutionContext.depth c) ∧
  (∀ c result,
     returnedBeside c result → sameScript c (OpResult.context result)).
Proof.
  split; [|split; [|split; [|split; [|split]]]].
  - unfold OPCODE_PAIRS. repeat apply Forall_app_2.
    + apply Forall_cons_2; [cbn [fst snd]; right; right; keeps|apply Forall_nil_2].
    + apply Forall_fmap, Forall_forall. intros idx _. unfold compose. cbv beta zeta. cbn [fst snd].
      right; right. keeps.
    + repeat (apply Forall_cons_2;
        [cbv beta; cbn [fst snd];
         first [by (right; left; eexists _, _) | (right; right; keeps)]|]).
      apply Forall_nil_2.
    + apply Forall_fmap, Forall_forall. intros idx _. unfold compose. cbv beta zeta. cbn [fst snd].
      right; right. keeps.
    + repeat (apply Forall_cons_2;
        [cbv beta; cbn [fst snd];
         first [by left | by (right; left; eexists _, _)
               | (right; right; keeps)]|]).
      apply Forall_nil_2.
  - unfold SYSCALLS.
    repeat (apply Forall_cons_2;
      [cbv beta; cbn [fst snd];
       first [by (left; eexists _, _)
             | (right; split;
                [apply keepsContext_keepsScript|intros _]; keeps)
             | (right; split; [keeps|intros Hne; by destruct Hne])]|]).
    apply Forall_nil_2.
  - intros world context op. unfold SYSCALL, lookupSysCall.
    destruct (readSysCallName _ _ _) as [[sysCallName index]|e];
      cbn [mbind Result_bind]; [|done].
    destruct (property SYSCALLS _) as [createCall|] eqn:Hcall;
      cbn [mbind Result_bind]; [|done].
    destruct (createCall world _) as [sysCall|e] eqn:Hcreate;
      cbn [mbind Result_bind]; [|done].
    intros [= <-]. exists createCall. eexists _, sysCall.
    split; [by eapply property_elem_of|]. by split.
  - intros executeScript tailCall w c args argsAlt w' result Hcall.
    unfold call_invoke in Hcall. ok_cases. by split.
  - intros run w c args argsAlt w' result Hcall.
    unfold CALL_invoke in Hcall. cbv [JMP jump createOp] in Hcall.
    cbn [mbind Result_bind Op.invoke Op.context] in Hcall.
    by ok_cases.
  - intros c result Hreturned. beside Hreturned; by repeat split.
Qed.

(** X22.  [RET] and [TAILCALL] end a script, and no other operation whose
    body is modelled does: [RET] hands back its context with [done] set;
    the body of [call] hands back [done: !!tailCall] whatever the nested
    execution left, which is true for [TAILCALL] and false for [APPCALL];
    [CALL] hands back [done: false]; every other entry of the opcode table
    whose body is in the table, the decoding of [SYSCALL] apart, and every
    entry of [SYSCALLS] whose body is in the table leave the flag as it
    is. *)
Theorem RET_and_TAILCALL_end_the_script :
  Forall (λ entry,
    entry.1 = 0x66 ∨ entry.1 = 0x68 ∨ isExternal entry.2 ∨ keepsDone entry.2)
    OPCODE_PAIRS ∧
  Forall (λ entry, isExternal entry.2 ∨ keepsDone entry.2) SYSCALLS ∧
  (∀ world context,
     ∃ op,
       RET world context = Ok op ∧
       ∀ w c args argsAlt,
         Op.invoke op w c args argsAlt
         = Ok (w, OpResult.mk (ExecutionContext.with_done c true) None None)) ∧
  OPCODES !! 0x67 = Some (call "APPCALL" None) ∧
  OPCODES !! 0x69 = Some (call "TAILCALL" (Some true)) ∧
  (∀ executeScript tailCall w c args argsAlt w' result,
     call_invoke executeScript tailCall w c args argsAlt = Ok (w', result) →
     ExecutionContext.done (OpResult.context result)
     = default false tailCall) ∧
  (∀ run w c args argsAlt w' result,
     CALL_invoke run w c args argsAlt = Ok (w', result) →
     ExecutionContext.done (OpResult.context result) = false) ∧
  (∀ c result,
     returnedBeside c result →
     ExecutionContext.done (OpResult.context result)
     = ExecutionContext.done c).
Proof.
  split; [|split; [|split; [|split; [done|split; [done|split; [|split]]]]]].
  - unfold OPCODE_PAIRS. repeat apply Forall_app_2.
    + apply Forall_cons_2; [cbn [fst snd]; do 3 right; keeps_done|apply Forall_nil_2].
    + apply Forall_fmap, Forall_forall. intros idx _. unfold compose. cbv beta zeta. cbn [fst snd].
      do 3 right. keeps_done.
    + repeat (apply Forall_cons_2;
        [cbv beta; cbn [fst snd];
         first [by (right; right; left; eexists _, _)
               | (do 3 right; keeps_done)]|]).
      apply Forall_nil_2.
    + apply Forall_fmap, Forall_forall. intros idx _. unfold compose. cbv beta zeta. cbn [fst snd].
      do 3 right. keeps_done.
    + repeat (apply Forall_cons_2;
        [cbv beta; cbn [fst snd];
         first [by left | by (right; left)
               | by (right; right; left; eexists _, _)
               | (do 3 right; keeps_done)]|]).
      apply Forall_nil_2.
  - unfold SYSCALLS.
    repeat (apply Forall_cons_2;
      [cbv beta; cbn [fst snd];
       first [by (left; eexists _, _) | (right; keeps_done)]|]).
    apply Forall_nil_2.
  - intros world context. eexists. split; reflexivity.
  - intros executeScript tailCall w c args argsAlt w' result Hcall.
    unfold call_invoke in Hcall. by ok_cases.
  - intros run w c args argsAlt w' result Hcall.
    unfold CALL_invoke in Hcall. cbv [JMP jump createOp] in Hcall.
    cbn [mbind Result_bind Op.invoke Op.context] in Hcall.
    by ok_cases.
  - intros c result Hreturned. by beside Hreturned.
Qed.

Lemma createOp_free name fields invoke :
  field fields "fee" = None → free (createOp name fields invoke).
Proof. intros Hfee world context op [= <-]. cbn. by rewrite Hfee. Qed.

Lemma property_Forall {A} (P : A → Prop) (object : list (string * A)) key v :
  Forall (λ entry, P entry.2) object → property object key = Some v → P v.
Proof.
  induction 1 as [|[k x] object Hx _ IH]; [done|]. cbn.
  destruct (String.eqb k key); [by intros [= <-]|done].
Qed.

Lemma SYSCALLS_free : Forall (λ entry, free entry.2) SYSCALLS.
Proof.
  unfold SYSCALLS.
  repeat (apply Forall_cons_2; [by apply createOp_free|]).
  apply Forall_nil_2.
Qed.

Lemma SYSCALL_free : free SYSCALL.
Proof.
  intros world context op. unfold SYSCALL, lookupSysCall.
  destruct (readSysCallName _ _ _) as [[sysCallName index]|e];
    cbn [mbind Result_bind]; [|done].
  destruct (property SYSCALLS _) as [createCall|] eqn:Hcall;
    cbn [mbind Result_bind]; [|done].
  destruct (createCall world _) as [sysCall|e] eqn:Hcreate;
    cbn [mbind Result_bind]; [|done].
  intros [= <-]. cbn [Op.fee].
  by eapply (property_Forall free _ _ _ SYSCALLS_free Hcall).
Qed.

Lemma OPCODE_PAIRS_free : Forall (λ entry, free entry.2) OPCODE_PAIRS.
Proof.
  unfold OPCODE_PAIRS. repeat apply Forall_app_2.
  - repeat constructor. by apply createOp_free.
  - apply Forall_fmap, Forall_forall. intros idx _. by apply createOp_free.
  - repeat (apply Forall_cons_2; [by apply createOp_free|]).
    apply Forall_nil_2.
  - apply Forall_fmap, Forall_forall. intros idx _. by apply createOp_free.
  - repeat (apply Forall_cons_2;
      [first [by apply createOp_free | apply SYSCALL_free
             | (unfold free; cbn [snd]; intros world context op Hcreate;
                cbv [CHECKMULTISIG PACK UNPACK createOp] in Hcreate;
                cbn [mbind Result_bind] in Hcreate; ok_cases; reflexivity)]|]).
    apply Forall_nil_2.
Qed.

(** X23.  No descriptor sets a fee: whatever the opcode, the operation
    decoded for it is free, a system call included. *)
Theorem every_operation_is_free opCode create world context op :
  OPCODES !! opCode = Some create →
  create world context = Ok op →
  Op.fee op = 0.
Proof.
  intros Hcreate. apply elem_of_list_to_map_2 in Hcreate.
  apply elem_of_reverse in Hcreate.
  pose proof OPCODE_PAIRS_free as Hfree. rewrite Forall_forall in Hfree.
  apply (Hfree _ Hcreate).
Qed.

(** ** System calls *)

Lemma SYSCALL_ALIASES_resolve :
  Forall (λ '(alias, name),
    property SYSCALL_ALIASES alias = Some name ∧
    property SYSCALL_ALIASES name = None ∧
    is_Some (property SYSCALLS name)) SYSCALL_ALIASES.
Proof.
  unfold SYSCALL_ALIASES at 3.
  repeat (apply Forall_cons_2;
    [split; [reflexivity|split; [reflexivity|eexists; reflexivity]]|]).
  apply Forall_nil_2.
Qed.

(** X24.  Every [AntShares.*] alias names a system call there is:
    [lookupSysCall] on the alias creates the call it creates on the
    [Neo.*] name. *)
Theorem lookupSysCall_resolves_aliases world alias name :
  (alias, name) ∈ SYSCALL_ALIASES →
  ∃ createCall,
    property SYSCALLS name = Some createCall ∧
    ∀ context sysCallName index,
      sysCallName = alias ∨ sysCallName = name →
      readSysCallName (ExecutionContext.code context)
        (ExecutionContext.pc context) SYS_CALL_STRING_LENGTH
      = Ok (sysCallName, index) →
      lookupSysCall world context
      = createCall world (ExecutionContext.with_pc context index).
Proof.
  intros Hin. pose proof SYSCALL_ALIASES_resolve as Hall.
  rewrite Forall_forall in Hall.
  destruct (Hall _ Hin) as (Halias & Hname & createCall & Hcall).
  exists createCall. split; [done|].
  intros context sysCallName index Hcase Hread. unfold lookupSysCall.
  rewrite Hread. cbn [mbind Result_bind].
  cbv zeta.
  destruct Hcase as [-> | ->]; [rewrite Halias|rewrite Hname];
    cbn [default from_option id]; by rewrite Hcall.
Qed.
End MoreProperties.

(** ** Storage *)

Section StorageLaws.
Context {platform : Platform}.
Variable storageItem_add : Blockchain.t → StorageItem.t → Blockchain.t.
Variable storageItem_update :
  Blockchain.t → StorageItem.t → Buffer → Blockchain.t.
Variable storageItem_delete : Blockchain.t → UInt160 → Buffer → Blockchain.t.

(** X25.  On a ledger whose [add] and [update] file an item under its hash
    and key, whose [delete] removes it, and which leave the contracts alone:
    after [Neo.Storage.Put] of a value under a key, [Neo.Storage.Get] of
    the key gives the value, whether the key was there before or not, and
    after [Neo.Storage.Delete] of the key it gives the empty buffer. *)
Theorem Storage_Get_after_Put_and_Delete world context contextItem keyItem
    valueItem hash key value world' result :
  (* what is assumed of the facade *)
  (∀ b item,
     Blockchain.contract (storageItem_add b item) = Blockchain.contract b ∧
     Blockchain.storageItem (storageItem_add b item)
       !! (StorageItem.hash item, StorageItem.key item) = Some item) →
  (∀ b item value,
     Blockchain.contract (storageItem_update b item value)
     = Blockchain.contract b ∧
     ∃ item',
       Blockchain.storageItem (storageItem_update b item value)
         !! (StorageItem.hash item, StorageItem.key item) = Some item' ∧
       StorageItem.value item' = value) →
  (∀ b hash key,
     Blockchain.contract (storageItem_delete b hash key)
     = Blockchain.contract b ∧
     Blockchain.storageItem (storageItem_delete b hash key) !! (hash, key)
     = None) →
  (* the ledger files an item under its own hash and key *)
  (∀ item,
     Blockchain.storageItem (World.blockchain world) !! (hash, key)
       = Some item →
     StorageItem.hash item = hash ∧ StorageItem.key item = key) →
  toStorageContext context contextItem = Ok hash →
  asBuffer keyItem = Ok key →
  asBuffer valueItem = Ok value →
  Neo_Storage_Put_invoke storageItem_add storageItem_update world context
    [contextItem; keyItem; valueItem] [] = Ok (world', result) →
  Neo_Storage_Get_invoke world' (OpResult.context result)
    [contextItem; keyItem] []
  = Ok (world',
        OpResult.mk (OpResult.context result)
          (Some [BufferStackItem value]) None) ∧
  ∃ world'' result',
    Neo_Storage_Delete_invoke storageItem_delete world'
      (OpResult.context result) [contextItem; keyItem] []
    = Ok (world'', result') ∧
    Neo_Storage_Get_invoke world'' (OpResult.context result')
      [contextItem; keyItem] []
    = Ok (world'',
          OpResult.mk (OpResult.context result')
            (Some [BufferStackItem []]) None).
Proof.
  intros Hadd Hupdate Hdelete Hfiled Hcontext Hkey Hvalue.
  unfold Neo_Storage_Put_invoke, Neo_Storage_Delete_invoke,
    Neo_Storage_Get_invoke, Blockchain.tryGet.
  cbn [arg lookup list_lookup mbind Result_bind].
  rewrite !Hcontext, Hkey, Hvalue. cbn [mbind Result_bind].
  destruct (checkStorage world context hash) as [contract|e] eqn:Hstorage;
    cbn [mbind Result_bind]; [|done].
  intros [= <- <-].
  cbn [World.blockchain World.with_blockchain OpResult.context].
  set (blockchain := match _ !! _ with Some _ => _ | None => _ end).
  assert (Blockchain.contract blockchain
          = Blockchain.contract (World.blockchain world) ∧
          ∃ item, Blockchain.storageItem blockchain !! (hash, key) = Some item
                  ∧ StorageItem.value item = value) as [Hcontracts Hitem].
  { subst blockchain.
    destruct (Blockchain.storageItem (World.blockchain world) !! (hash, key))
      as [item|] eqn:Hold.
    - destruct (Hfiled item eq_refl) as [<- <-].
      destruct (Hupdate (World.blockchain world) item value)
        as (? & item' & ? & ?). eauto.
    - destruct (Hadd (World.blockchain world) (StorageItem.mk hash key value))
        as [? ?]. eauto. }
  assert (∀ w, Blockchain.contract (World.blockchain w)
               = Blockchain.contract (World.blockchain world) →
            checkStorage w context hash = Ok contract) as Hcheck.
  { intros w Hw. unfold checkStorage in *. by rewrite Hw. }
  rewrite Hcontext. cbn [mbind Result_bind].
  rewrite (Hcheck (World.with_blockchain world blockchain)) by done.
  cbn [mbind Result_bind World.blockchain World.with_blockchain].
  destruct Hitem as (item & -> & ->). split; [done|].
  eexists _, _. split; [reflexivity|].
  cbn [OpResult.context].
  destruct (Hdelete blockchain hash key) as [Hcontracts' Hgone].
  rewrite Hcontext. cbn [mbind Result_bind].
  rewrite Hcheck by (cbn; congruence).
  cbn [mbind Result_bind World.blockchain World.with_blockchain].
  by rewrite Hgone.
Qed.
End StorageLaws.

(** ** Hexadecimal strings *)

Lemma digit_cases (P : N → Prop) :
  Forall P (N.of_nat <$> seq 0 16) → ∀ n, (n < 16)%N → P n.
Proof.
  intros HP n Hn. rewrite Forall_forall in HP. apply HP.
  apply list_elem_of_fmap. exists (N.to_nat n). split; [lia|].
  apply elem_of_seq. lia.
Qed.

Lemma hexValue_hexDigit n : (n < 16)%N → hexValue (hexDigit n) = Some n.
Proof. revert n. apply digit_cases. by repeat constructor. Qed.

Lemma hexDigit_not_x n : (n < 16)%N → hexDigit n ≠ "x"%char.
Proof. revert n. apply digit_cases. by repeat constructor. Qed.

Lemma byte_of_digits b :
  Byte.of_N (16 * (Byte.to_N b / 16) + Byte.to_N b mod 16) = Some b.
Proof.
  rewrite <- N.div_mod by done. apply Byte.of_to_N.
Qed.

Lemma fromHexString_toHexString value : fromHexString (toHexString value) = value.
Proof.
  induction value as [|b value IH]; [done|]. cbn [toHexString fromHexString].
  pose proof (Byte.to_N_bounded b).
  rewrite !hexValue_hexDigit
    by (try apply N.mod_upper_bound; try apply N.Div0.div_lt_upper_bound; lia).
  by rewrite byte_of_digits, IH.
Qed.

Lemma toHexString_inj : Inj (=) (=) toHexString.
Proof.
  intros a b Heq. by rewrite <- (fromHexString_toHexString a), Heq,
    fromHexString_toHexString.
Qed.

Lemma strip0x_toHexString value : strip0x (toHexString value) = toHexString value.
Proof.
  destruct value as [|b value]; [done|]. cbn [toHexString strip0x].
  pose proof (Byte.to_N_bounded b).
  assert (hexDigit (Byte.to_N b mod 16) ≠ "x"%char) as Hlow
    by (apply hexDigit_not_x, N.mod_upper_bound; lia).
  destruct (hexDigit (Byte.to_N b / 16)) as [[] [] [] [] [] [] [] []];
    try reflexivity.
  destruct (hexDigit (Byte.to_N b mod 16)) as [[] [] [] [] [] [] [] []];
    try reflexivity.
  done.
Qed.

(** X26.  [uInt160ToHex] and [uInt256ToHex] are injective: two hashes
    with the same hexadecimal string are the same hash, so that a
    dictionary keyed by the strings, like [createdContracts], is keyed by
    the hashes. *)
Theorem uInt160ToHex_inj (a b : UInt160) :
  (uInt160ToHex a = uInt160ToHex b → a = b) ∧
  (uInt256ToHex a = uInt256ToHex b → a = b).
Proof.
  unfold uInt160ToHex, uInt256ToHex.
  split; intros [= Heq%toHexString_inj]; by apply (inj reverse).
Qed.

(** X27.  Decoding undoes encoding: [hexToUInt160] of [uInt160ToHex] of a
    buffer is the buffer when it is 20 bytes long and [InvalidFormatError]
    otherwise, with or without the [0x] in front; likewise [hexToUInt256]
    with 32 bytes, and [hexToECPoint] of [ecPointToHex] with 33 bytes or the
    one byte of the point at infinity. *)
Theorem hexToUInt160_uInt160ToHex (value : Buffer) :
  hexToUInt160 (inl (uInt160ToHex value))
  = (if bool_decide (length value = 20%nat) then Ok value
     else Throw InvalidFormatError) ∧
  hexToUInt160 (inl (toHexString (reverse value)))
  = hexToUInt160 (inl (uInt160ToHex value)) ∧
  hexToUInt256 (inl (uInt256ToHex value))
  = (if bool_decide (length value = 32%nat) then Ok value
     else Throw InvalidFormatError) ∧
  hexToECPoint (inl (ecPointToHex (inr value)))
  = (if bool_decide (length value = 33%nat ∨ value = [x00%byte])
     then Ok value else Throw InvalidFormatError).
Proof.
  unfold hexToUInt160, hexToUInt256, hexToECPoint, uInt160ToHex, uInt256ToHex,
    ecPointToHex.
  cbn [strip0x]. rewrite strip0x_toHexString, !fromHexString_toHexString.
  rewrite reverse_involutive.
  unfold bufferToUInt160, bufferToUInt256, bufferToECPoint,
    UINT160_BUFFER_BYTES, UINT256_BUFFER_BYTES, ECPOINT_BUFFER_BYTES,
    ECPOINT_INFINITY.
  split; [|split; [done|split]]; repeat case_bool_decide; try done.
  all: cbn [andb]; repeat case_bool_decide; try done.
  all: exfalso; intuition (try subst value; done).
Qed.

Lemma ascii_compare_trans a b c :
  Ascii.compare a b = Lt → Ascii.compare b c = Lt → Ascii.compare a c = Lt.
Proof.
  unfold Ascii.compare. rewrite !N.compare_lt_iff. lia.
Qed.

Lemma ascii_compare_refl a : Ascii.compare a a = Eq.
Proof. unfold Ascii.compare. apply N.compare_refl. Qed.

Lemma string_compare_refl s : String.compare s s = Eq.
Proof.
  induction s as [|c s IH]; [done|]. cbn. by rewrite ascii_compare_refl.
Qed.

Lemma string_compare_trans s1 : ∀ s2 s3,
  String.compare s1 s2 = Lt → String.compare s2 s3 = Lt →
  String.compare s1 s3 = Lt.
Proof.
  induction s1 as [|c1 s1 IH]; intros [|c2 s2] [|c3 s3]; cbn; try done.
  destruct (Ascii.compare c1 c2) eqn:H12; try done;
    destruct (Ascii.compare c2 c3) eqn:H23; try done.
  - apply Ascii.compare_eq_iff in H12 as ->, H23 as ->.
    rewrite ascii_compare_refl. apply IH.
  - apply Ascii.compare_eq_iff in H12 as ->. by rewrite H23.
  - apply Ascii.compare_eq_iff in H23 as <-. by rewrite H12.
  - by rewrite (ascii_compare_trans _ _ _ H12 H23).
Qed.

(** X28.  [ecPointCompare] orders the public keys: it answers 0 exactly
    for two equal keys, exchanging the keys changes the sign of the answer,
    and "less" is transitive; a key given as its hexadecimal string
    compares as the key. *)
Theorem ecPointCompare_is_an_order (a b c : ECPoint) :
  let compare x y := ecPointCompare (inr x) (inr y) in
  (compare a b = 0 ↔ a = b) ∧
  compare b a = - compare a b ∧
  (compare a b = -1 → compare b c = -1 → compare a c = -1) ∧
  ecPointCompare (inl (ecPointToHex (inr a))) (inr b) = compare a b.
Proof.
  cbv zeta. unfold ecPointCompare, String.ltb. cbn [ecPointToHex].
  split; [|split; [|split; [|done]]].
  - destruct (String.compare (toHexString a) (toHexString b)) eqn:Hab.
    + apply String.compare_eq_iff, toHexString_inj in Hab as ->.
      by rewrite string_compare_refl.
    + split; [done|]. intros ->.
      by rewrite string_compare_refl in Hab.
    + rewrite String.compare_antisym, Hab. cbn. split; [done|]. intros ->.
      by rewrite string_compare_refl in Hab.
  - rewrite (String.compare_antisym (toHexString a) (toHexString b)).
    by destruct (String.compare (toHexString b) (toHexString a)).
  - destruct (String.compare (toHexString a) (toHexString b)) eqn:Hab;
      [rewrite String.compare_antisym, Hab; done| |
       rewrite String.compare_antisym, Hab; done].
    destruct (String.compare (toHexString b) (toHexString c)) eqn:Hbc;
      [rewrite String.compare_antisym, Hbc; done| |
       rewrite String.compare_antisym, Hbc; done].
    by rewrite (string_compare_trans _ _ _ Hab Hbc).
Qed.

(** ** Accounts *)

(** X29.  An account is deletable exactly when it is not frozen, it has
    no votes, and [serializeWireBase] would write no balance of it, that
    is, no balance of it is above zero. *)
Theorem Account_isDeletable_iff_nothing_to_write (this : Account.t) :
  Account.isDeletable this = true
  ↔ Account.isFrozen this = false ∧ Account.votes this = [] ∧
    Account_wireBalances this = ∅.
Proof.
  unfold Account.isDeletable, Account_wireBalances.
  rewrite !andb_true_iff, negb_true_iff, bool_decide_eq_true, length_zero_iff_nil.
  rewrite map_empty_filter.
  assert (bool_decide
            (length (map_to_list (Account.balances this)).*2 = 0%nat)
          || forallb (λ value, value <=? 0)
               (map_to_list (Account.balances this)).*2 = true
          ↔ map_Forall (λ _ value, ¬ 0 < value) (Account.balances this))
    as ->; [|tauto].
  rewrite map_Forall_to_list, orb_true_iff, bool_decide_eq_true, forallb_forall.
  rewrite length_zero_iff_nil. split.
  - intros [Hnil|Hall].
    + apply fmap_nil_inv in Hnil as ->. constructor.
    + apply Forall_forall. intros [k v] Hin. cbn.
      assert ((v <=? 0) = true) as Hv%Z.leb_le; [|lia].
      apply Hall, list_elem_of_In, list_elem_of_fmap. by exists (k, v).
  - intros Hall. right. intros v Hin%list_elem_of_In.
    apply list_elem_of_fmap in Hin as ([k v'] & -> & Hin).
    rewrite Forall_forall in Hall. apply Hall in Hin. cbn in *. lia.
Qed.

(** * The further properties at work on the sample platform *)

(** [ROLL] of the count 1 on the stack 7 8 9. *)
Lemma ROLL_is_PICK_with_XDROP_witness :
  let context :=
    Sample.context [] false
      [IntegerStackItem 7; IntegerStackItem 8; IntegerStackItem 9] in
  PICK_invoke (platform := Sample.platform) context [IntegerStackItem 1]
  = Return (Some (IntegerStackItem 8)) ∧
  ROLL_invoke (platform := Sample.platform) context [IntegerStackItem 1]
  = Return ([IntegerStackItem 7; IntegerStackItem 9],
            Some (IntegerStackItem 8)).
Proof.
  intros context.
  destruct (ROLL_is_PICK_with_XDROP (platform := Sample.platform)
              (Sample.world []) context (IntegerStackItem 1) 1 eq_refl)
    as (xdrop & _ & _ & Hpick & Hroll & _).
  - vm_compute. split; discriminate.
  - split; [exact Hpick|exact Hroll].
Defined.

(** [PICK] and [ROLL] of the count 5 on a stack of one item. *)
Lemma PICK_beyond_the_stack_is_undefined_witness :
  let context := Sample.context [] false [IntegerStackItem 7] in
  PICK_invoke (platform := Sample.platform) context [IntegerStackItem 5]
  = Return None ∧
  ROLL_invoke (platform := Sample.platform) context [IntegerStackItem 5]
  = Return ([IntegerStackItem 7], None).
Proof.
  intros context.
  apply (PICK_beyond_the_stack_is_undefined (platform := Sample.platform)
           context (IntegerStackItem 5) 5 eq_refl).
  - vm_compute. split; discriminate.
  - vm_compute. discriminate.
Defined.

(** [XSWAP] of the count 2 on the stack 7 8 9. *)
Lemma XSWAP_exchanges_two_items_witness :
  let context :=
    Sample.context [] false
      [IntegerStackItem 7; IntegerStackItem 8; IntegerStackItem 9] in
  ∃ stack',
    XSWAP_invoke (platform := Sample.platform) context [IntegerStackItem 2]
    = Return (Some <$> stack') ∧
    stack' !! 0%nat = Some (IntegerStackItem 9) ∧
    stack' !! 2%nat = Some (IntegerStackItem 7) ∧
    stack' !! 1%nat = Some (IntegerStackItem 8) ∧
    length stack' = 3%nat.
Proof.
  intros context.
  destruct (XSWAP_exchanges_two_items (platform := Sample.platform)
              context (IntegerStackItem 2) 2 eq_refl)
    as (stack' & Hswap & Hfirst & Hlast & Hother & Hlength & _).
  - vm_compute. split; discriminate.
  - vm_compute. split; [discriminate|reflexivity].
  - exists stack'. split; [exact Hswap|]. split; [exact Hfirst|].
    split; [exact Hlast|]. split; [|exact Hlength].
    apply (Hother 1%nat); discriminate.
Defined.

(** [XSWAP] of the count 3 on a stack of one item. *)
Lemma XSWAP_beyond_the_stack_grows_it_witness :
  let context := Sample.context [] false [IntegerStackItem 7] in
  ∃ stack',
    XSWAP_invoke (platform := Sample.platform) context [IntegerStackItem 3]
    = Return stack' ∧
    Z.of_nat (length stack') = 4 ∧
    stack' !! 0%nat = Some None ∧
    stack' !! 3%nat = Some (Some (IntegerStackItem 7)).
Proof.
  intros context.
  destruct (XSWAP_beyond_the_stack_grows_it (platform := Sample.platform)
              context (IntegerStackItem 3) 3 eq_refl)
    as (stack' & Hswap & Hlength & Htop & Hlast).
  - vm_compute. split; discriminate.
  - vm_compute. discriminate.
  - exists stack'. split; [exact Hswap|]. split; [exact Hlength|].
    split; [exact Htop|]. apply Hlast. reflexivity.
Defined.

(** [XTUCK] of the count 2 on the stack 7 8 9. *)
Lemma XTUCK_inserts_a_copy_of_the_top_witness :
  let context :=
    Sample.context [] false
      [IntegerStackItem 7; IntegerStackItem 8; IntegerStackItem 9] in
  XTUCK_invoke (platform := Sample.platform) context [IntegerStackItem 0]
  = Raise XTuckNegativeError ∧
  XTUCK_invoke (platform := Sample.platform) context [IntegerStackItem 2]
  = Return (Some <$> [IntegerStackItem 7; IntegerStackItem 8;
                      IntegerStackItem 7; IntegerStackItem 9]).
Proof.
  intros context. split.
  - apply (XTUCK_inserts_a_copy_of_the_top (platform := Sample.platform)
             context (IntegerStackItem 0) 0 (IntegerStackItem 7)
             [IntegerStackItem 8; IntegerStackItem 9] eq_refl);
      [vm_compute; split; discriminate|reflexivity|].
    vm_compute. discriminate.
  - apply (XTUCK_inserts_a_copy_of_the_top (platform := Sample.platform)
             context (IntegerStackItem 2) 2 (IntegerStackItem 7)
             [IntegerStackItem 8; IntegerStackItem 9] eq_refl);
      [vm_compute; split; discriminate|reflexivity|].
    reflexivity.
Defined.

(** [PUSHBYTES3] with one byte left in the script. *)
Lemma PUSHBYTES_pushes_the_bytes_that_follow_witness :
  let world := Sample.world [] in
  let context := Sample.context [x03; xaa]%byte false [] in
  ∃ op,
    lookupOp (platform := Sample.platform) world context = Ok op ∧
    Op.invoke op world (Op.context op) [] []
    = Ok (world,
          OpResult.mk (ExecutionContext.with_pc context 4)
            (Some [BufferStackItem [xaa]%byte]) None).
Proof.
  intros world context.
  destruct (PUSHBYTES_pushes_the_bytes_that_follow
              (platform := Sample.platform) world context x03%byte)
    as (op & Hop & _ & _ & Hinvoke & _).
  - vm_compute. discriminate.
  - reflexivity.
  - vm_compute. split; discriminate.
  - exists op. split; [exact Hop|exact Hinvoke].
Defined.

(** [PUSH10] *)
Lemma PUSH_numbers_push_their_value_witness :
  let world := Sample.world [] in
  let context := Sample.context [x5a]%byte false [] in
  ∃ op,
    lookupOp (platform := Sample.platform) world context = Ok op ∧
    Op.invoke op world context [] []
    = Ok (world,
          OpResult.mk context (Some [IntegerStackItem 10]) None).
Proof.
  intros world context.
  destruct (PUSH_numbers_push_their_value (platform := Sample.platform)
              world context x5a%byte)
    as (op & Hop & _ & _ & Hinvoke).
  - vm_compute. discriminate.
  - reflexivity.
  - right. vm_compute. split; discriminate.
  - exists op. split; [exact Hop|exact (Hinvoke world context [] [])].
Defined.

(** [PUSHDATA1 02 aa bb RET], past the opcode. *)
Lemma pushData_pushes_the_declared_bytes_witness :
  let world := Sample.world [] in
  let context :=
    ExecutionContext.with_pc
      (Sample.context [x4c; x02; xaa; xbb; x66]%byte false []) 1 in
  pushData_invoke 1 world context [] []
  = Ok (world,
        OpResult.mk (ExecutionContext.with_pc context 4)
          (Some [BufferStackItem [xaa; xbb]%byte]) None).
Proof.
  intros world context.
  apply (pushData_pushes_the_declared_bytes world context 1 2 [] []).
  - apply elem_of_cons. by left.
  - reflexivity.
  - vm_compute. discriminate.
  - vm_compute. discriminate.
Defined.

(** [PUSHDATA1 03 aa bb]: three bytes announced, two there. *)
Lemma pushData_tolerates_one_missing_byte_witness :
  let world := Sample.world [] in
  let context :=
    ExecutionContext.with_pc
      (Sample.context [x4c; x03; xaa; xbb]%byte false []) 1 in
  pushData_invoke 1 world context [] []
  = Ok (world,
        OpResult.mk (ExecutionContext.with_pc context 5)
          (Some [BufferStackItem [xaa; xbb]%byte]) None).
Proof.
  intros world context.
  destruct (pushData_tolerates_one_missing_byte world context 1 3 [] [])
    as [_ Hone].
  - apply elem_of_cons. by left.
  - reflexivity.
  - apply (Hone eq_refl).
Defined.

(** [PUSHDATA4 ff ff ff ff]: the size -1. *)
Lemma PUSHDATA4_negative_size_goes_back_witness :
  let world := Sample.world [] in
  let context :=
    ExecutionContext.with_pc
      (Sample.context [x4e; xff; xff; xff; xff]%byte false []) 1 in
  ∃ bytes,
    pushData_invoke 4 world context [] []
    = Ok (world,
          OpResult.mk (ExecutionContext.with_pc context 4)
            (Some [BufferStackItem bytes]) None) ∧
    4 < 5.
Proof.
  intros world context.
  exact (PUSHDATA4_negative_size_goes_back world context (-1) [] []
           eq_refl eq_refl).
Defined.

(** The buffers [01 02] and [03]. *)
Lemma LEFT_RIGHT_undo_CAT_witness :
  let world := Sample.world [] in
  let context := Sample.context [] false [] in
  let joined := BufferStackItem [x01; x02; x03]%byte in
  CAT_invoke world context
    [BufferStackItem [x03]%byte; BufferStackItem [x01; x02]%byte] []
  = Ok (world, OpResult.mk context (Some [joined]) None) ∧
  LEFT_invoke (platform := Sample.platform) context
    [IntegerStackItem 2; joined]
  = Return (OpResult.mk context (Some [BufferStackItem [x01; x02]%byte])
              None) ∧
  RIGHT_invoke (platform := Sample.platform) context
    [IntegerStackItem 1; joined]
  = Return (OpResult.mk context (Some [BufferStackItem [x03]%byte]) None).
Proof.
  intros world context joined.
  apply (LEFT_RIGHT_undo_CAT (platform := Sample.platform) world context
           [x01; x02]%byte [x03]%byte); vm_compute; discriminate.
Defined.

(** [RIGHT] of the count 0. *)
Lemma RIGHT_of_zero_is_everything_witness :
  let context := Sample.context [] false [] in
  RIGHT_invoke (platform := Sample.platform) context
    [IntegerStackItem 0; BufferStackItem [x01; x02]%byte]
  = Return (OpResult.mk context (Some [BufferStackItem [x01; x02]%byte])
              None).
Proof.
  intros context.
  destruct (RIGHT_of_zero_is_everything (platform := Sample.platform) context
              (IntegerStackItem 0) (BufferStackItem [x01; x02]%byte) 0
              [x01; x02]%byte eq_refl) as [Hzero _].
  - vm_compute. split; discriminate.
  - reflexivity.
  - exact (Hzero eq_refl).
Defined.

(** Five bytes asked of a buffer of three. *)
Lemma LEFT_and_SUBSTR_clamp_witness :
  let context := Sample.context [] false [] in
  let value := BufferStackItem [x01; x02; x03]%byte in
  LEFT_invoke (platform := Sample.platform) context
    [IntegerStackItem 5; value]
  = Return (OpResult.mk context
              (Some [BufferStackItem [x01; x02; x03]%byte]) None) ∧
  SUBSTR_invoke (platform := Sample.platform) context
    [IntegerStackItem 5; IntegerStackItem 1; value]
  = Return (OpResult.mk context (Some [BufferStackItem [x02; x03]%byte])
              None).
Proof.
  intros context value.
  apply (LEFT_and_SUBSTR_clamp (platform := Sample.platform) context
           (IntegerStackItem 5) (IntegerStackItem 1) value 5 1
           [x01; x02; x03]%byte eq_refl eq_refl eq_refl);
    vm_compute; split; discriminate.
Defined.

(** The count -1 on top of the stack. *)
Lemma PACK_count_witness :
  let world := Sample.world [] in
  let context :=
    Sample.context [] false [IntegerStackItem (-1); IntegerStackItem 7] in
  ∃ op,
    PACK (platform := Sample.platform) world context = Ok op ∧
    Op.in_ op = 0.
Proof.
  intros world context.
  destruct (PACK_count (platform := Sample.platform) world context
              (IntegerStackItem (-1)) [IntegerStackItem 7] (-1)
              eq_refl eq_refl) as [_ Hpack].
  - vm_compute. split; discriminate.
  - destruct Hpack as (op & Hop & Hin & _); [vm_compute; discriminate|].
    exists op. split; [exact Hop|exact Hin].
Defined.

(** [UNPACK PACK] on an array of 7 and 8. *)
Lemma UNPACK_PACK_copies_the_array_witness :
  let items := [IntegerStackItem 7; IntegerStackItem 8] in
  let world := Sample.world [items] in
  let context := Sample.context [xc2; xc1]%byte false [ArrayStackItem 0%nat] in
  ∃ context1 world2 context2,
    step (platform := Sample.platform) world context = Ok (world, context1) ∧
    step (platform := Sample.platform) world context1
    = Ok (world2, context2) ∧
    ExecutionContext.stack context2 = [ArrayStackItem 1%nat] ∧
    readCell (World.arrays world2) 1%nat = items ∧
    readCell (World.arrays world2) 0%nat = items.
Proof.
  intros items world context.
  destruct (UNPACK_PACK_copies_the_array (platform := Sample.platform)
              world context 0%nat items [])
    as (context1 & world2 & context2 & Hstep1 & _ & Hstep2 & Hstack & _
        & Hnew & Hold & _).
  - vm_compute. discriminate.
  - reflexivity.
  - reflexivity.
  - reflexivity.
  - apply Nat.lt_0_1.
  - reflexivity.
  - vm_compute. discriminate.
  - vm_compute. discriminate.
  - vm_compute. discriminate.
  - vm_compute. discriminate.
  - exists context1, world2, context2.
    split; [exact Hstep1|]. split; [exact Hstep2|]. split; [exact Hstack|].
    split; [exact Hnew|exact Hold].
Defined.

(** [NEWARRAY] of the count -3. *)
Lemma NEWARRAY_count_magnitude_witness :
  let world := Sample.world [] in
  let context := Sample.context [] false [] in
  ∃ newArray,
    NEWARRAY (platform := Sample.platform) world context = Ok newArray ∧
    Op.invoke newArray world context [IntegerStackItem (-3)] []
    = Ok (Sample.world [replicate 3 (BooleanStackItem false)],
          OpResult.mk context (Some [ArrayStackItem 0%nat]) None).
Proof.
  intros world context.
  destruct (NEWARRAY_count_magnitude (platform := Sample.platform) world
              context (IntegerStackItem (-3)) (-3) eq_refl)
    as (newArray & _ & _ & Hcreate & _ & _ & Hinvoke & _).
  - vm_compute. split; discriminate.
  - exists newArray. split; [exact Hcreate|exact Hinvoke].
Defined.

(** [SETITEM] of 9 at index 1 of an array of 7 and 8. *)
Lemma SETITEM_then_PICKITEM_witness :
  let world' := Sample.world [[IntegerStackItem 7; IntegerStackItem 9]] in
  let context := Sample.context [] false [] in
  ∃ pickItem,
    PICKITEM (platform := Sample.platform) world' context = Ok pickItem ∧
    Op.invoke pickItem world' context
      [IntegerStackItem 1; ArrayStackItem 0%nat] []
    = Ok (world', OpResult.mk context (Some [IntegerStackItem 9]) None).
Proof.
  intros world' context.
  destruct (SETITEM_then_PICKITEM (platform := Sample.platform)
              (Sample.world [[IntegerStackItem 7; IntegerStackItem 8]])
              context (IntegerStackItem 9) (IntegerStackItem 1)
              (ArrayStackItem 0%nat) 1 0%nat world'
              (OpResult.mk context None None))
    as (pickItem & Hcreate & Hinvoke & _).
  - intros s. discriminate.
  - reflexivity.
  - reflexivity.
  - reflexivity.
  - exists pickItem. split; [exact Hcreate|exact Hinvoke].
Defined.

(** Three keys in an array and two signatures after a count, by the first
    and the third key, under the toy scheme of [Sample.platform]. *)
Lemma CHECKMULTISIG_true_only_if_verified_witness :
  verifiedInOrder (platform := Sample.platform) [x2a]%byte
    [[x03; x2a]; [x05; x2a]]%byte [[x03]; [x04]; [x05]]%byte.
Proof.
  set (keyItems := BufferStackItem <$> [[x03]; [x04]; [x05]]%byte).
  set (world := Sample.world [keyItems]).
  set (context := Sample.context [] false []).
  destruct (CHECKMULTISIG_true_only_if_verified (platform := Sample.platform)
              world context
              [ArrayStackItem 0%nat; IntegerStackItem 2;
               BufferStackItem [x03; x2a]%byte;
               BufferStackItem [x05; x2a]%byte]
              world
              (OpResult.mk context (Some [BooleanStackItem true]) None)
              eq_refl eq_refl)
    as (index & publicKeys & signatures & Hkeys & Hsigs & Hverified).
  injection Hkeys as <- <-. injection Hsigs as <-. exact Hverified.
Defined.

(** Three keys after a count and two signatures in an array. *)
Lemma CHECKMULTISIG_true_if_verified_witness :
  let sigItems := BufferStackItem <$> [[x03; x2a]; [x05; x2a]]%byte in
  let world := Sample.world [sigItems] in
  let context := Sample.context [] false [] in
  CHECKMULTISIG_invoke (platform := Sample.platform) world context
    [IntegerStackItem 3; BufferStackItem [x03]%byte;
     BufferStackItem [x04]%byte; BufferStackItem [x05]%byte;
     ArrayStackItem 0%nat] []
  = Ok (world, OpResult.mk context (Some [BooleanStackItem true]) None).
Proof.
  intros sigItems world context.
  apply (CHECKMULTISIG_true_if_verified (platform := Sample.platform)
           world context _ 4 [[x03]; [x04]; [x05]]%byte
           [[x03; x2a]; [x05; x2a]]%byte).
  - reflexivity.
  - reflexivity.
  - discriminate.
  - repeat (apply Forall_cons_2 || apply Forall_nil_2);
      eexists; reflexivity.
  - exists [[x03]; [x05]]%byte. split.
    + apply sublist_skip, sublist_cons, sublist_skip, sublist_nil.
    + repeat (apply Forall2_cons_2 || apply Forall2_nil_2); reflexivity.
Defined.

(** The system call [AntShares.Storage.Get], read off a script. *)
Lemma every_operation_is_free_witness :
  let world := Sample.world [] in
  let context :=
    Sample.context (x15%byte :: list_byte_of_string "AntShares.Storage.Get")
      false [] in
  ∃ op,
    OPCODES (platform := Sample2.platform) !! 0x68
    = Some (SYSCALL (platform := Sample2.platform)) ∧
    SYSCALL (platform := Sample2.platform) world context = Ok op ∧
    Op.name op = "SYSCALL"%string ∧ Op.fee op = 0.
Proof.
  intros world context. eexists.
  split; [reflexivity|]. split; [reflexivity|]. split; [reflexivity|].
  apply (every_operation_is_free (platform := Sample2.platform) 0x68
           (SYSCALL (platform := Sample2.platform)) world context);
    reflexivity.
Defined.

Lemma lookupSysCall_resolves_aliases_witness :
  let world := Sample.world [] in
  let context :=
    Sample.context (x15%byte :: list_byte_of_string "AntShares.Storage.Get")
      false [] in
  Op.name <$> lookupSysCall (platform := Sample2.platform) world context
  = Ok "Neo.Storage.Get"%string.
Proof.
  intros world context.
  destruct (lookupSysCall_resolves_aliases (platform := Sample2.platform)
              world "AntShares.Storage.Get" "Neo.Storage.Get")
    as (createCall & Hcall & Hlookup).
  - unfold SYSCALL_ALIASES. repeat constructor.
  - rewrite (Hlookup context "AntShares.Storage.Get"%string 22
               (or_introl eq_refl) eq_refl).
    change (Some (Neo_Storage_Get (platform := Sample2.platform))
            = Some createCall) in Hcall.
    injection Hcall as <-. reflexivity.
Defined.

(** The toy ledger keeps the laws of the facade. *)
Lemma Sample2_storageItem_add_files b item :
  Blockchain.contract (Sample2.storageItem_add b item) = Blockchain.contract b ∧
  Blockchain.storageItem (Sample2.storageItem_add b item)
    !! (StorageItem.hash item, StorageItem.key item) = Some item.
Proof. split; [done|]. apply lookup_insert_eq. Qed.

Lemma Sample2_storageItem_delete_removes b hash key :
  Blockchain.contract (Sample2.storageItem_delete b hash key)
  = Blockchain.contract b ∧
  Blockchain.storageItem (Sample2.storageItem_delete b hash key) !! (hash, key)
  = None.
Proof. split; [done|]. apply lookup_delete_eq. Qed.

(** A value put under a new key of the contract [01]. *)
Lemma Storage_Get_after_Put_and_Delete_witness :
  let world := Sample.world [] in
  let context := Sample.context [] false [] in
  let contextItem := StorageContextStackItem [x01]%byte in
  let keyItem := BufferStackItem [x6c]%byte in
  let valueItem := BufferStackItem [x09]%byte in
  ∃ world' result,
    Neo_Storage_Put_invoke (platform := Sample.platform)
      Sample2.storageItem_add Sample2.storageItem_update world context
      [contextItem; keyItem; valueItem] [] = Ok (world', result) ∧
    Neo_Storage_Get_invoke (platform := Sample.platform) world'
      (OpResult.context result) [contextItem; keyItem] []
    = Ok (world',
          OpResult.mk (OpResult.context result)
            (Some [BufferStackItem [x09]%byte]) None).
Proof.
  intros world context contextItem keyItem valueItem.
  eexists _, _. split; [reflexivity|].
  eapply proj1.
  apply (Storage_Get_after_Put_and_Delete (platform := Sample.platform)
           Sample2.storageItem_add Sample2.storageItem_update
           Sample2.storageItem_delete world context contextItem keyItem
           valueItem [x01]%byte [x6c]%byte [x09]%byte).
  - apply Sample2_storageItem_add_files.
  - intros b item value. split; [reflexivity|]. eexists. split.
    + apply (Sample2_storageItem_add_files b
               (StorageItem.mk (StorageItem.hash item) (StorageItem.key item)
                  value)).
    + reflexivity.
  - apply Sample2_storageItem_delete_removes.
  - intros item Hitem. vm_compute in Hitem. discriminate Hitem.
  - reflexivity.
  - reflexivity.
  - reflexivity.
  - reflexivity.
Defined.
